(** * NeoPulse: the emotion-streaming session of [EmotionDetector.jsx]

    A shallow embedding of the React component
    [frontend/src/components/EmotionDetector.jsx]: its [useState] cells, its
    refs, the browser objects the refs point to (the WebSocket, the camera
    stream, the animation-frame queue), the event handlers installed by
    [connect], the capture loop, [disconnect], the reset button and the
    session statistics computed while rendering.

    Conventions.
    - A JavaScript number is kept by its exact rational value ([Qc]).
      Where the code computes with numbers and the last digit shows (the
      session statistics, the stress gauge) the model computes as the code
      does, in IEEE 754 doubles; the geometry of the timeline bars is
      computed exactly.
    - [JSON.parse] is not re-implemented: an inbound frame is either a parse
      failure or the value [JSON.parse] returned.
    - Strings are byte strings (UTF-8).  [slice] and [toUpperCase] are
      modelled on ASCII text, where bytes and UTF-16 code units coincide.
    - A handler runs to completion (one JavaScript macrotask); the [set...]
      calls of one handler are applied in program order and logged. *)

From Stdlib Require Import Ascii QArith Qcanon Qround Lqa.
From stdpp Require Import base numbers strings gmap list.

#[local] Set Warnings "-register-all".
#[local] Open Scope nat_scope.

(** ** JavaScript values *)

Inductive value : Type :=
| VUndefined
| VNull
| VBool (b : bool)
| VNum (q : Qc)
| VStr (s : string)
| VArr (l : list value)
| VObj (m : gmap string value).

(** ToBoolean.  [JSON.parse] never yields NaN; [-0] and [0] are both [0]. *)
Definition truthy (v : value) : bool :=
  match v with
  | VUndefined | VNull => false
  | VBool b => b
  | VNum q => negb (bool_decide (q = 0%Qc))
  | VStr s => negb (bool_decide (s = ""))
  | VArr _ | VObj _ => true
  end.

(** [a || b] *)
Definition js_or (a b : value) : value := if truthy a then a else b.

(** [v === "s"] against a string literal. *)
Definition is_str (v : value) (s : string) : bool :=
  match v with
  | VStr s' => bool_decide (s' = s)
  | _ => false
  end.

(** [data.k] for the keys the message handler reads ([type], [fps],
    [face_detected], [emotion], [all_emotions], [confidence],
    [stress_score], [mock], [timestamp]).  None of them is a property of
    [String.prototype], [Number.prototype], [Boolean.prototype],
    [Array.prototype] or [Object.prototype], so on a primitive or an array
    the read gives [undefined]; on [null] it throws ([None]). *)
Definition or_undefined (o : option value) : value :=
  match o with Some v => v | None => VUndefined end.

Definition prop (data : value) (k : string) : option value :=
  match data with
  | VUndefined | VNull => None
  | VObj m => Some (or_undefined (m !! k))
  | _ => Some VUndefined
  end.

Definition num (q : Q) : value := VNum (Q2Qc q).

(** ** The component's data *)

(** [status]: ["idle" | "connecting" | "live" | "error" | "no_face"] *)
Inductive Status := idle | connecting | live | error | no_face.

#[global] Instance Status_eq_dec : EqDecision Status.
Proof. solve_decision. Defined.

(** One element of the timeline: [{ t, e, stress }]. *)
Record Entry := mkEntry { t : value; e : value; stress : value }.

(** [WebSocket.readyState] *)
Inductive ReadyState := CONNECTING | OPEN | CLOSING | CLOSED.

#[global] Instance ReadyState_eq_dec : EqDecision ReadyState.
Proof. solve_decision. Defined.

(** The socket a [connect] call creates.  [sent] lists the objects handed to
    [JSON.stringify] and [send] while the socket was open, oldest first.
    [closure_status] is the [status] constant that the handlers installed on
    this socket close over: the one of the render that built the memoised
    [connect] ([useCallback(..., [token, userId])]). *)
Record WebSocket := mkWebSocket {
  readyState : ReadyState;
  sent : list value;
  closure_status : Status
}.

(** The camera stream of [getUserMedia]; [stops] counts the [stop()] calls
    its video track has received. *)
Record MediaStream := mkMediaStream { stops : nat }.

(** The [<video>] element: is a stream attached as [srcObject]? *)
Record Video := mkVideo { srcObject : bool }.

(** The [useState] cells. *)
Record Hooks := mkHooks {
  status : Status;
  emotion : value;
  allEmotions : value;
  confidence : value;
  stressScore : value;
  fps : value;
  timeline : list Entry;
  isMock : value;
  faceDetected : bool
}.

(** The [useRef] cells, each with the object it points to. *)
Record Refs := mkRefs {
  videoRef : option Video;
  canvasRef : bool;
  wsRef : option WebSocket;
  streamRef : option MediaStream;
  frameLoopRef : option nat;
  timelineRef : list Entry
}.

(** What the browser holds for the component. *)
Record Browser := mkBrowser {
  raf_queue : list nat;        (* pending requestAnimationFrame(capture) ids *)
  raf_next : nat;              (* the next id requestAnimationFrame returns *)
  toBlob_calls : nat;          (* frames drawn and handed to canvas.toBlob *)
  blobs_pending : nat;         (* toBlob / FileReader callbacks not yet run *)
  camera_wait : list Status    (* connect() calls suspended at getUserMedia,
                                  each with the status its closure captured *)
}.

Record Store := mkStore {
  hooks : Hooks;
  refs : Refs;
  browser : Browser;
  connect_closure : Status     (* status captured by the memoised connect *)
}.

(** The component as mounted: every [useState] and [useRef] initial value. *)
Definition initial : Store :=
  {| hooks := {| status := idle; emotion := VNull; allEmotions := VNull;
                 confidence := num 0; stressScore := num 0; fps := num 0;
                 timeline := []; isMock := VBool false;
                 faceDetected := false |};
     refs := {| videoRef := Some (mkVideo false); canvasRef := true;
                wsRef := None; streamRef := None; frameLoopRef := None;
                timelineRef := [] |};
     browser := {| raf_queue := []; raf_next := 1; toBlob_calls := 0;
                   blobs_pending := 0; camera_wait := [] |};
     connect_closure := idle |}.

(** ** Field updates *)

Definition with_hooks (f : Hooks -> Hooks) (s : Store) : Store :=
  mkStore (f (hooks s)) (refs s) (browser s) (connect_closure s).
Definition with_refs (f : Refs -> Refs) (s : Store) : Store :=
  mkStore (hooks s) (f (refs s)) (browser s) (connect_closure s).
Definition with_browser (f : Browser -> Browser) (s : Store) : Store :=
  mkStore (hooks s) (refs s) (f (browser s)) (connect_closure s).
Definition with_connect_closure (c : Status) (s : Store) : Store :=
  mkStore (hooks s) (refs s) (browser s) c.

Definition with_status (x : Status) (h : Hooks) : Hooks :=
  mkHooks x (emotion h) (allEmotions h) (confidence h) (stressScore h)
          (fps h) (timeline h) (isMock h) (faceDetected h).
Definition with_emotion (x : value) (h : Hooks) : Hooks :=
  mkHooks (status h) x (allEmotions h) (confidence h) (stressScore h)
          (fps h) (timeline h) (isMock h) (faceDetected h).
Definition with_allEmotions (x : value) (h : Hooks) : Hooks :=
  mkHooks (status h) (emotion h) x (confidence h)
          (stressScore h) (fps h) (timeline h) (isMock h) (faceDetected h).
Definition with_confidence (x : value) (h : Hooks) : Hooks :=
  mkHooks (status h) (emotion h) (allEmotions h)
          x (stressScore h) (fps h) (timeline h) (isMock h) (faceDetected h).
Definition with_stressScore (x : value) (h : Hooks) : Hooks :=
  mkHooks (status h) (emotion h) (allEmotions h)
          (confidence h) x (fps h) (timeline h) (isMock h)
          (faceDetected h).
Definition with_fps (x : value) (h : Hooks) : Hooks :=
  mkHooks (status h) (emotion h) (allEmotions h)
          (confidence h) (stressScore h) x (timeline h)
          (isMock h) (faceDetected h).
Definition with_timeline (x : list Entry) (h : Hooks) : Hooks :=
  mkHooks (status h) (emotion h) (allEmotions h)
          (confidence h) (stressScore h) (fps h)
          x (isMock h) (faceDetected h).
Definition with_isMock (x : value) (h : Hooks) : Hooks :=
  mkHooks (status h) (emotion h) (allEmotions h)
          (confidence h) (stressScore h) (fps h)
          (timeline h) x (faceDetected h).
Definition with_faceDetected (x : bool) (h : Hooks) : Hooks :=
  mkHooks (status h) (emotion h) (allEmotions h)
          (confidence h) (stressScore h) (fps h)
          (timeline h) (isMock h) x.

Definition with_videoRef (x : option Video) (r : Refs) : Refs :=
  mkRefs x (canvasRef r) (wsRef r) (streamRef r) (frameLoopRef r)
         (timelineRef r).
Definition with_wsRef (x : option WebSocket) (r : Refs) : Refs :=
  mkRefs (videoRef r) (canvasRef r) x (streamRef r) (frameLoopRef r)
         (timelineRef r).
Definition with_streamRef (x : option MediaStream) (r : Refs) : Refs :=
  mkRefs (videoRef r) (canvasRef r) (wsRef r) x
         (frameLoopRef r) (timelineRef r).
Definition with_frameLoopRef (x : option nat) (r : Refs) : Refs :=
  mkRefs (videoRef r) (canvasRef r) (wsRef r)
         (streamRef r) x (timelineRef r).
Definition with_timelineRef (x : list Entry) (r : Refs) : Refs :=
  mkRefs (videoRef r) (canvasRef r) (wsRef r)
         (streamRef r) (frameLoopRef r) x.

Definition with_raf_queue (x : list nat) (b : Browser) : Browser :=
  mkBrowser x (raf_next b) (toBlob_calls b) (blobs_pending b) (camera_wait b).
Definition with_raf_next (x : nat) (b : Browser) : Browser :=
  mkBrowser (raf_queue b) x (toBlob_calls b) (blobs_pending b)
            (camera_wait b).
Definition with_toBlob_calls (x : nat) (b : Browser) : Browser :=
  mkBrowser (raf_queue b) (raf_next b) x (blobs_pending b)
            (camera_wait b).
Definition with_blobs_pending (x : nat) (b : Browser) : Browser :=
  mkBrowser (raf_queue b) (raf_next b)
            (toBlob_calls b) x (camera_wait b).
Definition with_camera_wait (x : list Status) (b : Browser) : Browser :=
  mkBrowser (raf_queue b) (raf_next b)
            (toBlob_calls b) (blobs_pending b) x.


(** ** Handlers

    A handler is a function of the store that may throw, and that leaves a
    log of the calls it made, in program order.  A thrown exception keeps
    the writes made before it, as in JavaScript. *)

Inductive Call :=
| Set_status (x : Status)
| Set_emotion (x : value)
| Set_allEmotions (x : value)
| Set_confidence (x : value)
| Set_stressScore (x : value)
| Set_fps (x : value)
| Set_timeline (x : list Entry)
| Set_isMock (x : value)
| Set_faceDetected (x : bool)
| Assign_timelineRef (x : list Entry)
| Call_onEmotionUpdate (data : value)
| Call_send (msg : value)
| Call_close
| Call_track_stop
| Call_toBlob
| Call_requestAnimationFrame (id : nat)
| Call_cancelAnimationFrame (id : nat).

Definition M (A : Type) : Type := Store -> option A * Store * list Call.

#[global] Instance M_ret : MRet M := λ A x s, (Some x, s, []).
#[global] Instance M_bind : MBind M := λ A B f m s,
  match m s with
  | (Some x, s1, l1) => let '(r, s2, l2) := f x s1 in (r, s2, l1 ++ l2)
  | (None, s1, l1) => (None, s1, l1)
  end.

Definition throw {A} : M A := λ s, (None, s, []).

(** [try { body } catch {}] *)
Definition try_catch (body : M ()) : M () := λ s,
  let '(_, s1, l1) := body s in (Some (), s1, l1).

Definition read {A} (f : Store -> A) : M A := λ s, (Some (f s), s, []).
Definition write (f : Store -> Store) (c : Call) : M () :=
  λ s, (Some (), f s, [c]).
Definition skip : M () := mret ().

(** A mutation that is not a logged call (a plain ref assignment). *)
Definition modify (f : Store -> Store) : M () := λ s, (Some (), f s, []).

(** The store a handler leaves, and the calls it made. *)
Definition exec (m : M ()) (s : Store) : Store := (m s).1.2.
Definition calls (m : M ()) (s : Store) : list Call := (m s).2.
Definition throws (m : M ()) (s : Store) : bool :=
  match (m s).1.1 with None => true | Some _ => false end.

(** The [useState] setters. *)
Definition setStatus (x : Status) : M () :=
  write (with_hooks (with_status x)) (Set_status x).
Definition setEmotion (x : value) : M () :=
  write (with_hooks (with_emotion x)) (Set_emotion x).
Definition setAllEmotions (x : value) : M () :=
  write (with_hooks (with_allEmotions x)) (Set_allEmotions x).
Definition setConfidence (x : value) : M () :=
  write (with_hooks (with_confidence x)) (Set_confidence x).
Definition setStressScore (x : value) : M () :=
  write (with_hooks (with_stressScore x)) (Set_stressScore x).
Definition setFps (x : value) : M () :=
  write (with_hooks (with_fps x)) (Set_fps x).
Definition setTimeline (x : list Entry) : M () :=
  write (with_hooks (with_timeline x)) (Set_timeline x).
Definition setIsMock (x : value) : M () :=
  write (with_hooks (with_isMock x)) (Set_isMock x).
Definition setFaceDetected (x : bool) : M () :=
  write (with_hooks (with_faceDetected x)) (Set_faceDetected x).

(** [timelineRef.current = x] *)
Definition assign_timelineRef (x : list Entry) : M () :=
  write (with_refs (with_timelineRef x)) (Assign_timelineRef x).

(** [onEmotionUpdate?.(data)]: the parent's callback; it does not touch this
    component's store. *)
Definition onEmotionUpdate (data : value) : M () :=
  write id (Call_onEmotionUpdate data).

(** *** [ws.onmessage] *)

(** [event.data] as [JSON.parse] sees it. *)
Inductive MessageEvent :=
| NotJSON                     (* JSON.parse throws a SyntaxError *)
| Parsed (data : value).      (* JSON.parse returns data *)

Definition JSON_parse (event : MessageEvent) : M value :=
  match event with
  | NotJSON => throw
  | Parsed data => mret data
  end.

(** [data.k], throwing a TypeError on [null]. *)
Definition get (data : value) (k : string) : M value :=
  match prop data k with
  | Some v => mret v
  | None => throw
  end.

(** [l.slice(-n)]: the last [n] elements, all of [l] when it is shorter. *)
Definition slice_last {A} (n : nat) (l : list A) : list A :=
  drop (length l - n) l.

(** [[...timelineRef.current.slice(-299), entry]] *)
Definition push_entry (cur : list Entry) (entry : Entry) : list Entry :=
  slice_last 299 cur ++ [entry].

Definition onmessage (event : MessageEvent) : M () :=
  try_catch (
    data ← JSON_parse event;
    ty ← get data "type";
    if is_str ty "keepalive" || is_str ty "pong" then skip else
    data_fps ← get data "fps";
    setFps (js_or data_fps (num 0));;
    face ← get data "face_detected";
    if negb (truthy face) then
      setFaceDetected false;;
      setStatus no_face
    else
      setFaceDetected true;;
      setStatus live;;
      em ← get data "emotion";
      if truthy em then
        setEmotion em;;
        all ← get data "all_emotions";
        setAllEmotions all;;
        conf ← get data "confidence";
        setConfidence (js_or conf (num 0));;
        score ← get data "stress_score";
        setStressScore (js_or score (num 0));;
        mock ← get data "mock";
        setIsMock (js_or mock (VBool false));;
        ts ← get data "timestamp";
        let entry := {| t := ts; e := em; stress := js_or score (num 0) |} in
        cur ← read (λ s, timelineRef (refs s));
        assign_timelineRef (push_entry cur entry);;
        cur' ← read (λ s, timelineRef (refs s));
        setTimeline cur';;
        onEmotionUpdate data
      else skip).

(** *** The capture loop *)

(** [requestAnimationFrame(capture)]: a fresh non-zero id, queued. *)
Definition requestAnimationFrame : M nat := λ s,
  let id := raf_next (browser s) in
  (Some id,
   with_browser (λ b, with_raf_next (S id)
                        (with_raf_queue (raf_queue b ++ [id]) b)) s,
   [Call_requestAnimationFrame id]).

(** [cancelAnimationFrame(id)] *)
Definition cancelAnimationFrame (id : nat) : M () :=
  write (with_browser
           (λ b, with_raf_queue (filter (λ j, j ≠ id) (raf_queue b)) b))
        (Call_cancelAnimationFrame id).

Definition assign_frameLoopRef (x : option nat) : M () :=
  modify (with_refs (with_frameLoopRef x)).

(** [wsRef.current] is set and [readyState === WebSocket.OPEN]. *)
Definition ws_open (s : Store) : bool :=
  match wsRef (refs s) with
  | Some ws => bool_decide (readyState ws = OPEN)
  | None => false
  end.

(** [ctx.drawImage(video, 0, 0, 320, 240); canvas.toBlob(cb, "image/jpeg", 0.7)]:
    one more frame encoded, one more callback owed by the browser. *)
Definition draw_and_toBlob : M () :=
  write (with_browser
           (λ b, with_blobs_pending (S (blobs_pending b))
                   (with_toBlob_calls (S (toBlob_calls b)) b)))
        Call_toBlob.

(** The [capture] closure of [startFrameLoop], run for one animation frame. *)
Definition capture : M () :=
  open ← read ws_open;
  if negb open then skip else
  draw_and_toBlob;;
  id ← requestAnimationFrame;
  assign_frameLoopRef (Some id).

(** [ws.send(JSON.stringify(msg))].  The browser throws InvalidStateError
    while CONNECTING, transmits while OPEN and drops the data otherwise. *)
Definition ws_send (msg : value) (ws : WebSocket) : M () :=
  match readyState ws with
  | CONNECTING => throw
  | OPEN =>
      write (with_refs (with_wsRef
               (Some (mkWebSocket OPEN (sent ws ++ [msg]) (closure_status ws)))))
            (Call_send msg)
  | CLOSING | CLOSED => write id (Call_send msg)
  end.

(** The [{ frame: b64 }] and [{ type: "reset" }] objects. *)
Definition frame_msg (b64 : string) : value := VObj {[ "frame" := VStr b64 ]}.
Definition reset_msg : value := VObj {[ "type" := VStr "reset" ]}.

(** The [toBlob] callback followed by [reader.onload]: [blob] is [None] when
    the canvas could not be encoded, else the base64 text of the data URL. *)
Definition blob_callback (blob : option string) : M () :=
  match blob with
  | None => skip
  | Some b64 =>
      ws ← read (λ s, wsRef (refs s));
      match ws with
      | Some w => if bool_decide (readyState w = OPEN)
                  then ws_send (frame_msg b64) w else skip
      | None => skip
      end
  end.

Definition startFrameLoop : M () :=
  canvas ← read (λ s, canvasRef (refs s));
  video ← read (λ s, videoRef (refs s));
  if negb canvas || negb (bool_decide (is_Some video)) then skip else
  id ← requestAnimationFrame;
  assign_frameLoopRef (Some id).

Definition stopFrameLoop : M () :=
  cur ← read (λ s, frameLoopRef (refs s));
  match cur with
  | Some (S n) => cancelAnimationFrame (S n)
  | _ => skip
  end.

(** *** The other socket handlers *)

Definition onopen : M () :=
  setStatus live;;
  startFrameLoop.

Definition onerror : M () := setStatus error.

(** [ws.onclose]; [captured] is the [status] the handler closes over. *)
Definition onclose (captured : Status) : M () :=
  (if bool_decide (captured ≠ idle) then setStatus idle else skip);;
  stopFrameLoop.

(** *** [disconnect], the reset button, [connect] *)

(** [ws.close()]: CONNECTING and OPEN sockets start closing. *)
Definition ws_close (ws : WebSocket) : WebSocket :=
  match readyState ws with
  | CONNECTING | OPEN => mkWebSocket CLOSING (sent ws) (closure_status ws)
  | CLOSING | CLOSED => ws
  end.

(** [wsRef.current?.close()] *)
Definition close_socket : M () :=
  ws ← read (λ s, wsRef (refs s));
  match ws with
  | Some w => write (with_refs (with_wsRef (Some (ws_close w)))) Call_close
  | None => skip
  end.

(** [streamRef.current?.getTracks().forEach(t => t.stop())]: the stream
    holds one video track ([audio: false]). *)
Definition stop_tracks : M () :=
  stream ← read (λ s, streamRef (refs s));
  match stream with
  | Some m =>
      write (with_refs (with_streamRef (Some (mkMediaStream (S (stops m))))))
            Call_track_stop
  | None => skip
  end.

(** [if (videoRef.current) videoRef.current.srcObject = null] *)
Definition detach_video : M () :=
  video ← read (λ s, videoRef (refs s));
  match video with
  | Some _ => modify (with_refs (with_videoRef (Some (mkVideo false))))
  | None => skip
  end.

Definition disconnect : M () :=
  stopFrameLoop;;
  close_socket;;
  stop_tracks;;
  detach_video;;
  setStatus idle;;
  setEmotion VNull;;
  setAllEmotions VNull.

(** The RESET button's [onClick]. *)
Definition reset_click : M () :=
  ws ← read (λ s, wsRef (refs s));
  match ws with
  | Some w => ws_send reset_msg w
  | None => skip
  end;;
  assign_timelineRef [];;
  setTimeline [].

(** [connect], up to [await navigator.mediaDevices.getUserMedia(...)]. *)
Definition connect_begin : M () :=
  setStatus connecting;;
  captured ← read connect_closure;
  modify (with_browser (λ b, with_camera_wait (camera_wait b ++ [captured]) b)).

(** How the awaited steps of [connect] turn out. *)
Inductive CameraResult :=
| Denied                              (* getUserMedia rejects *)
| Granted (play_ok ws_ok : bool).     (* video.play() resolves?  new WebSocket
                                         returns? *)

(** [connect] from the point where [getUserMedia] settles; [captured] is
    the [status] this call's closure holds. *)
Definition connect_resume (captured : Status) (r : CameraResult) : M () :=
  match r with
  | Denied => setStatus error
  | Granted play_ok ws_ok =>
      modify (with_refs (with_streamRef (Some (mkMediaStream 0))));;
      video ← read (λ s, videoRef (refs s));
      played ← match video with
               | Some _ =>
                   modify (with_refs (with_videoRef (Some (mkVideo true))));;
                   mret play_ok
               | None => mret true
               end;
      if negb played then setStatus error else
      if negb ws_ok then setStatus error else
      modify (with_refs (with_wsRef (Some (mkWebSocket CONNECTING [] captured))))
  end.

(** ** Events

    What can happen to a mounted component, each event running one handler
    to completion.  Socket events concern the socket [wsRef] points to.  The
    START button is rendered while [status === "idle"], RESET and STOP
    otherwise; [ClickStop] also stands for the unmount cleanup, which runs
    [disconnect] whatever the status. *)

Inductive Event :=
| PropsChanged                       (* new token/userId: connect is rebuilt *)
| ClickStart                         (* START SCAN *)
| CameraSettled (r : CameraResult)   (* the oldest pending getUserMedia *)
| SocketOpened                       (* the open event *)
| SocketMessage (m : MessageEvent)   (* a message event *)
| SocketFailed                       (* the connection fails: error, close *)
| SocketClosed                       (* the connection ends: close *)
| AnimationFrame (id : nat)          (* the browser runs frame callback id *)
| BlobReady (blob : option string)   (* a toBlob/FileReader callback runs *)
| ClickReset                         (* RESET *)
| ClickStop.                         (* STOP, or the unmount cleanup *)

(** The browser moves the socket to [rs] before it fires the event. *)
Definition set_readyState (rs : ReadyState) (s : Store) : Store :=
  match wsRef (refs s) with
  | Some w =>
      with_refs (with_wsRef (Some (mkWebSocket rs (sent w) (closure_status w)))) s
  | None => s
  end.

Definition socket_state (s : Store) : option ReadyState :=
  readyState <$> wsRef (refs s).

Definition captured_status (s : Store) : Status :=
  match wsRef (refs s) with
  | Some w => closure_status w
  | None => idle
  end.

Definition handle (ev : Event) (s : Store) : Store :=
  match ev with
  | PropsChanged => with_connect_closure (status (hooks s)) s
  | ClickStart =>
      if bool_decide (status (hooks s) = idle) then exec connect_begin s else s
  | CameraSettled r =>
      match camera_wait (browser s) with
      | c :: rest =>
          exec (connect_resume c r) (with_browser (with_camera_wait rest) s)
      | [] => s
      end
  | SocketOpened =>
      match socket_state s with
      | Some CONNECTING => exec onopen (set_readyState OPEN s)
      | _ => s
      end
  | SocketMessage m =>
      match socket_state s with
      | Some OPEN | Some CLOSING => exec (onmessage m) s
      | _ => s
      end
  | SocketFailed =>
      match socket_state s with
      | Some CLOSED | None => s
      | Some _ =>
          let s1 := set_readyState CLOSED s in
          exec (onclose (captured_status s1)) (exec onerror s1)
      end
  | SocketClosed =>
      match socket_state s with
      | Some CLOSED | None => s
      | Some _ =>
          let s1 := set_readyState CLOSED s in
          exec (onclose (captured_status s1)) s1
      end
  | AnimationFrame id =>
      if bool_decide (id ∈ raf_queue (browser s)) then
        exec capture
          (with_browser
             (λ b, with_raf_queue (filter (λ j, j ≠ id) (raf_queue b)) b) s)
      else s
  | BlobReady blob =>
      match blobs_pending (browser s) with
      | S n => exec (blob_callback blob) (with_browser (with_blobs_pending n) s)
      | O => s
      end
  | ClickReset =>
      if bool_decide (status (hooks s) ≠ idle) then exec reset_click s else s
  | ClickStop => exec disconnect s
  end.

(** Events in order of occurrence. *)
Definition run (evs : list Event) (s : Store) : Store :=
  foldl (λ s ev, handle ev s) s evs.

(** ** Numbers as IEEE 754 doubles

    A JavaScript number is a binary64 value.  The finite ones are the
    integer multiples [m * 2^k] of a power of two with [|m| < 2^53] and
    [-1074 <= k <= 971]; they are kept by their exact rational value.  The
    two zeros are not told apart: both print as [0], and the one division
    here, by [timeline.length], has a zero dividend whenever its divisor
    is zero. *)

Inductive double := Finite (q : Qc) | Infinite (neg : bool) | NotANumber.

#[global] Instance double_eq_dec : EqDecision double.
Proof. solve_decision. Defined.

(** [a / b] rounded to the nearest integer, ties to the even one;
    [0 < b]. *)
Definition rne_div (a b : Z) : Z :=
  match (2 * (a mod b) ?= b)%Z with
  | Lt => (a / b)%Z
  | Gt => (a / b + 1)%Z
  | Eq => if Z.even (a / b) then (a / b)%Z else (a / b + 1)%Z
  end.

(** The rational [n / d >= 0], counted in units of [2^-1074], rounded to
    53 significant bits: the spacing of the doubles around [x] units is
    [2^k] units, [k = max 0 (floor (log2 x) - 52)]. *)
Definition round53 (n : Z) (d : positive) : Z :=
  let x := (n * 2 ^ 1074)%Z in
  let k := Z.max 0 (Z.log2 (x / Z.pos d) - 52) in
  (rne_div x (Z.pos d * 2 ^ k) * 2 ^ k)%Z.

(** [m] units of [2^-1074]. *)
Definition units (m : Z) : Qc := Q2Qc (m # 2 ^ 1074).

(** The double nearest to a rational, ties to even: [Infinity] from
    [2^1024 - 2^970] on.  A rational that is a double is left alone. *)
Definition to_double (q : Qc) : double :=
  let m := round53 (Z.abs (Qnum q)) (Qden q) in
  if (2 ^ 2098 <=? m)%Z then Infinite (Qnum q <? 0)%Z
  else Finite (units (Z.sgn (Qnum q) * m)).

(** The integer [z] as a number. *)
Definition whole (z : Z) : double := Finite (Q2Qc (inject_Z z)).

Definition negative (q : Qc) : bool := bool_decide (q < 0)%Qc.

(** [x + y], [x * y] and [x / y]: the exact result, rounded. *)
Definition dadd (x y : double) : double :=
  match x, y with
  | Finite a, Finite b => to_double (a + b)
  | NotANumber, _ | _, NotANumber => NotANumber
  | Infinite s, Infinite s' =>
      if bool_decide (s = s') then Infinite s else NotANumber
  | Infinite s, Finite _ | Finite _, Infinite s => Infinite s
  end.

Definition dmul (x y : double) : double :=
  match x, y with
  | Finite a, Finite b => to_double (a * b)
  | NotANumber, _ | _, NotANumber => NotANumber
  | Infinite s, Infinite s' => Infinite (xorb s s')
  | Infinite s, Finite b | Finite b, Infinite s =>
      if bool_decide (b = 0%Qc) then NotANumber
      else Infinite (xorb s (negative b))
  end.

Definition ddiv (x y : double) : double :=
  match x, y with
  | NotANumber, _ | _, NotANumber => NotANumber
  | Finite a, Finite b =>
      if bool_decide (b = 0%Qc)
      then if bool_decide (a = 0%Qc) then NotANumber else Infinite (negative a)
      else to_double (a / b)
  | Finite _, Infinite _ => Finite 0%Qc
  | Infinite s, Finite b => Infinite (xorb s (negative b))
  | Infinite _, Infinite _ => NotANumber
  end.

(** [x > c] and [x >= c] against a finite constant; false on [NaN]. *)
Definition dgt (x : double) (c : Qc) : bool :=
  match x with
  | Finite q => bool_decide (c < q)%Qc
  | Infinite neg => negb neg
  | NotANumber => false
  end.

Definition dge (x : double) (c : Qc) : bool :=
  match x with
  | Finite q => bool_decide (c ≤ q)%Qc
  | Infinite neg => negb neg
  | NotANumber => false
  end.

(** [x <= y]; [NaN] compares with nothing. *)
Definition dle (x y : double) : Prop :=
  match x, y with
  | Finite a, Finite b => (a ≤ b)%Qc
  | Infinite true, (Finite _ | Infinite _) => True
  | Finite _, Infinite false => True
  | Infinite false, Infinite false => True
  | _, _ => False
  end.

Definition dopp (x : double) : double :=
  match x with
  | Finite q => Finite (- q)%Qc
  | Infinite neg => Infinite (negb neg)
  | NotANumber => NotANumber
  end.

(** ** Session statistics

    The three figures of the SESSION STATS block, rendered from [timeline]
    when [timeline.length > 0].  They are modelled where [stress] is a number
    and [e] a string, as the wire format has them; elsewhere JavaScript
    falls back on string conversions that are not modelled ([None]). *)

Definition number_of (v : value) : option Qc :=
  match v with VNum q => Some q | _ => None end.

Definition string_of (v : value) : option string :=
  match v with VStr s => Some s | _ => None end.

(** [timeline.reduce((a, b) => a + b.stress, 0)] *)
Definition stress_total (tl : list Entry) : option double :=
  foldl (λ a b, x ← a; y ← number_of (stress b); Some (dadd x (to_double y)))
        (Some (Finite 0%Qc)) tl.

(** The integer nearest to a rational, halves upwards. *)
Definition round_half_up (x : Qc) : Z := Qfloor (x + Q2Qc (1 # 2))%Qc.

(** [Math.round]: exact on a finite double; [Infinity] and [NaN] stay. *)
Definition Math_round (x : double) : double :=
  match x with
  | Finite q => whole (round_half_up q)
  | _ => x
  end.

Definition Qc_of_nat (n : nat) : Qc := Q2Qc (inject_Z (Z.of_nat n)).

(** AVG STRESS: [Math.round(total / timeline.length * 100)], shown with a
    [%] sign after it. *)
Definition avg_stress (tl : list Entry) : option double :=
  total ← stress_total tl;
  Some (Math_round (dmul (ddiv total (to_double (Qc_of_nat (length tl))))
                         (to_double (Qc_of_nat 100)))).

(** FRAMES: [timeline.length] *)
Definition frames (tl : list Entry) : nat := length tl.

(** What a property of [counts] holds: a number of occurrences, or, once 1
    has been added to a function inherited from [Object.prototype], a
    string that is not numeric. *)
Inductive Count := Times (n : nat) | Junk.

(** The function-valued properties every object inherits. *)
Definition Object_prototype_functions : list string :=
  ["constructor"; "hasOwnProperty"; "isPrototypeOf"; "propertyIsEnumerable";
   "toLocaleString"; "toString"; "valueOf"; "__defineGetter__";
   "__defineSetter__"; "__lookupGetter__"; "__lookupSetter__"].

(** [counts[k] = (counts[k] || 0) + 1] on the own properties of [counts],
    in order of creation.  An own number is incremented and an own string
    stays a string.  A key that is not yet an own property reads as
    [undefined], so that it is created with 1, unless it names something
    inherited: a function, which plus 1 is a string, or [__proto__], an
    accessor whose setter ignores the string assigned to it. *)
Fixpoint bump (k : string) (counts : list (string * Count))
  : list (string * Count) :=
  match counts with
  | [] =>
      if bool_decide (k = "__proto__") then []
      else if bool_decide (k ∈ Object_prototype_functions) then [(k, Junk)]
      else [(k, Times 1)]
  | (k', c) :: rest =>
      if bool_decide (k' = k)
      then (k', match c with Times n => Times (n + 1) | Junk => Junk end) :: rest
      else (k', c) :: bump k rest
  end.

(** [timeline.forEach(t => counts[t.e] = (counts[t.e] || 0) + 1)] *)
Definition count_labels (tl : list Entry) : option (list (string * Count)) :=
  foldl (λ acc t, counts ← acc; k ← string_of (e t); Some (bump k counts))
        (Some []) tl.

(** A stable sort by a comparator, as [Array.prototype.sort] is for a
    consistent comparator. *)
Fixpoint insert_by {A} (cmp : A -> A -> Z) (x : A) (l : list A) : list A :=
  match l with
  | [] => [x]
  | y :: rest =>
      if (cmp x y <=? 0)%Z then x :: y :: rest else y :: insert_by cmp x rest
  end.

Definition sort_by {A} (cmp : A -> A -> Z) (l : list A) : list A :=
  foldr (insert_by cmp) [] l.

(** Array indices: the canonical decimal strings of 0 .. 2^32 - 2. *)
Definition digit_of (c : ascii) : option N :=
  let n := N_of_ascii c in
  if (48 <=? n)%N && (n <=? 57)%N then Some (n - 48)%N else None.

Fixpoint digits_value (acc : N) (s : string) : option N :=
  match s with
  | EmptyString => Some acc
  | String c rest => d ← digit_of c; digits_value (acc * 10 + d)%N rest
  end.

Definition array_index (k : string) : option N :=
  match k with
  | EmptyString => None
  | String "0" EmptyString => Some 0%N
  | String "0" _ => None
  | _ => n ← digits_value 0 k;
         if (n <=? 4294967294)%N then Some n else None
  end.

(** [Object.entries(counts)]: array-index keys first, in ascending numeric
    order, then the other keys in order of creation. *)
Definition Object_entries {A} (counts : list (string * A)) : list (string * A) :=
  let indexed :=
    omap (λ kv, i ← array_index kv.1; Some (i, kv)) counts in
  let named :=
    filter (λ kv, array_index kv.1 = None) counts in
  (snd <$> sort_by (λ a b, Z.of_N a.1 - Z.of_N b.1)%Z indexed) ++ named.

(** The comparator [(a, b) => b[1] - a[1]]: greater counts first.  With a
    count that is not a number the difference is [NaN], which [sort] reads
    as 0. *)
Definition by_count_desc (a b : string * Count) : Z :=
  match a.2, b.2 with
  | Times n, Times m => (Z.of_nat m - Z.of_nat n)%Z
  | _, _ => 0%Z
  end.

Definition is_times (c : Count) : bool :=
  match c with Times _ => true | Junk => false end.

Definition all_equal (ns : list nat) : bool :=
  match ns with
  | [] => true
  | n :: rest => forallb (Nat.eqb n) rest
  end.

(** [entries.sort((a, b) => b[1] - a[1])].  The comparator is consistent
    when every count is a number, and when all the numbers are equal (it
    is 0 throughout, and the order is kept); otherwise the order is the
    engine's choice ([None]). *)
Definition sort_entries (entries : list (string * Count))
  : option (list (string * Count)) :=
  if forallb (λ kv, is_times kv.2) entries
     || all_equal (omap (λ kv, match kv.2 with Times n => Some n | Junk => None end)
                        entries)
  then Some (sort_by by_count_desc entries)
  else None.

Definition ascii_char (c : ascii) : bool := (N_of_ascii c <? 128)%N.

Fixpoint ascii_text (s : string) : bool :=
  match s with
  | EmptyString => true
  | String c rest => ascii_char c && ascii_text rest
  end.

Definition upper_ascii (c : ascii) : ascii :=
  let n := N_of_ascii c in
  if (97 <=? n)%N && (n <=? 122)%N then ascii_of_N (n - 32) else c.

Fixpoint upper_text (s : string) : string :=
  match s with
  | EmptyString => EmptyString
  | String c rest => String (upper_ascii c) (upper_text rest)
  end.

(** [s.toUpperCase()], for ASCII text. *)
Definition toUpperCase (s : string) : option string :=
  if ascii_text s then Some (upper_text s)
  else None.

(** [s.slice(0, 4)]: the first four UTF-16 code units, which are the first
    four bytes when these are ASCII. *)
Definition slice4 (s : string) : option string :=
  let cut := String.substring 0 4 s in
  if ascii_text cut then Some cut else None.

(** A figure as shown, or one the model does not determine. *)
Inductive Figure := Shown (text : string) | Unspecified.

(** TOP STATE:
    [Object.entries(counts).sort((a, b) => b[1] - a[1])[0]?.[0]
       ?.slice(0, 4).toUpperCase() || "—"] *)
Definition top_state (tl : list Entry) : option Figure :=
  counts ← count_labels tl;
  Some match sort_entries (Object_entries counts) with
       | Some ((k, _) :: _) =>
           match slice4 k ≫= toUpperCase with
           | Some shown => Shown (if bool_decide (shown = "") then "—" else shown)
           | None => Unspecified
           end
       | Some [] => Shown "—"
       | None => Unspecified
       end.

(** ** Reading the handlers' results *)

(** [data.k] once [data] is known not to be [null]. *)
Definition field (data : value) (k : string) : value :=
  or_undefined (prop data k).

(** A control frame: [data.type] is ["keepalive"] or ["pong"]. *)
Definition is_control (data : value) : bool :=
  is_str (field data "type") "keepalive" || is_str (field data "type") "pong".

(** The entry a message adds to the timeline. *)
Definition entry_of (data : value) : Entry :=
  {| t := field data "timestamp"; e := field data "emotion";
     stress := js_or (field data "stress_score") (num 0) |}.


(** The three outcomes of [ws.onmessage] on a message that is not a
    control frame, as store updates and call logs: no face, a face without
    an emotion label, a full sample. *)
Definition flag_update (data : value) (b : bool) (h : Hooks) : Hooks :=
  with_status (if b then live else no_face)
    (with_faceDetected b
       (with_fps (js_or (field data "fps") (num 0)) h)).

Definition flag_calls (data : value) (b : bool) : list Call :=
  [Set_fps (js_or (field data "fps") (num 0));
   Set_faceDetected b; Set_status (if b then live else no_face)].

Definition sample_update (data : value) (tl : list Entry) (s : Store) : Store :=
  with_refs (with_timelineRef tl)
    (with_hooks
       (λ h, with_timeline tl
               (with_isMock (js_or (field data "mock") (VBool false))
               (with_stressScore (js_or (field data "stress_score") (num 0))
               (with_confidence (js_or (field data "confidence") (num 0))
               (with_allEmotions (field data "all_emotions")
               (with_emotion (field data "emotion")
               (flag_update data true h))))))) s).

Definition sample_calls (data : value) (tl : list Entry) : list Call :=
  [Set_emotion (field data "emotion");
   Set_allEmotions (field data "all_emotions");
   Set_confidence (js_or (field data "confidence") (num 0));
   Set_stressScore (js_or (field data "stress_score") (num 0));
   Set_isMock (js_or (field data "mock") (VBool false));
   Assign_timelineRef tl; Set_timeline tl;
   Call_onEmotionUpdate data].

(** The entry [ws.onmessage] appends for a message, if it appends one. *)
Definition recorded (event : MessageEvent) : option Entry :=
  match event with
  | NotJSON | Parsed VNull | Parsed VUndefined => None
  | Parsed data =>
      if negb (is_control data) && truthy (field data "face_detected")
         && truthy (field data "emotion")
      then Some (entry_of data) else None
  end.

(** Messages handled one after the other. *)
Definition deliver (msgs : list MessageEvent) (s : Store) : Store :=
  foldl (λ s m, exec (onmessage m) s) s msgs.

(** The session states of the specification, read off [status]. *)
Definition Live (s : Store) : Prop := status (hooks s) = live.
Definition NoSignal (s : Store) : Prop := status (hooks s) = no_face.

(** Calls that set the liveness flag and the status, the rate metric, and
    the rest. *)
Definition is_flag_write (c : Call) : bool :=
  match c with Set_faceDetected _ | Set_status _ => true | _ => false end.
Definition is_rate_write (c : Call) : bool :=
  match c with Set_fps _ => true | _ => false end.

(** Events that neither end nor replace the connection. *)
Definition in_session (ev : Event) : bool :=
  match ev with
  | SocketMessage _ | AnimationFrame _ | BlobReady _ | ClickReset
  | ClickStart | PropsChanged => true
  | CameraSettled _ | SocketOpened | SocketFailed | SocketClosed
  | ClickStop => false
  end.

(** ** Example stores *)

Definition sample_msg (face : bool) (em : string) (score : Q) : MessageEvent :=
  Parsed (VObj (<["face_detected" := VBool face]>
               (<["emotion" := VStr em]>
               (<["stress_score" := num score]> ∅)))).

(** Mounted, started, camera granted: the socket is connecting. *)
Definition connecting_session : Store :=
  run [ClickStart; CameraSettled (Granted true true)] initial.

(** ... then the socket opens; *)
Definition opened_session : Store := handle SocketOpened connecting_session.

(** ... or the server starts the closing handshake while frame 1 of the
    capture loop is still queued, *)
Definition closing_session : Store := set_readyState CLOSING opened_session.

(** ... or a first classification arrives. *)
Definition live_session : Store :=
  handle (SocketMessage (sample_msg true "calm" (1 # 5))) opened_session.

(** ** Reading the statistics *)

(** The label and the stress score of an entry of the expected types. *)
Definition label (en : Entry) : string :=
  match e en with VStr k => k | _ => "" end.
Definition score (en : Entry) : Qc :=
  match stress en with VNum q => q | _ => 0%Qc end.

(** A label that [counts] treats as a fresh name: not an array index and
    not the name of a property inherited from [Object.prototype]. *)
Definition fresh_name (k : string) : Prop :=
  array_index k = None ∧ k ≠ "__proto__" ∧ k ∉ Object_prototype_functions.

#[global] Instance fresh_name_dec k : Decision (fresh_name k).
Proof. unfold fresh_name. apply _. Defined.

(** An entry as the wire format has it: a numeric stress score and a label
    that is a non-empty string, a fresh name, and ASCII in its first four
    characters (as the seven emotion labels are). *)
Definition plain (en : Entry) : Prop :=
  e en = VStr (label en) ∧ stress en = VNum (score en) ∧
  label en ≠ "" ∧ fresh_name (label en) ∧
  is_Some (slice4 (label en) ≫= toUpperCase).

(** The figure for a list of scores: their sum in the order of the list,
    divided by their number, times 100, each step rounded to a double. *)
Definition double_sum (qs : list Qc) : double :=
  foldl (λ a q, dadd a (to_double q)) (Finite 0%Qc) qs.
Definition double_percentage (qs : list Qc) : double :=
  dmul (ddiv (double_sum qs) (to_double (Qc_of_nat (length qs))))
       (to_double (Qc_of_nat 100)).

(** The mean of a list of numbers. *)
Definition total (qs : list Qc) : Qc := foldr Qcplus 0%Qc qs.
Definition mean (qs : list Qc) : Qc := (total qs / Qc_of_nat (length qs))%Qc.

(** How often [k] occurs in [ls]. *)
Definition occurrences (k : string) (ls : list string) : nat :=
  length (filter (λ x, x = k) ls).

(** The number stored under [k], 0 when there is none. *)
Definition times (c : Count) : nat :=
  match c with Times n => n | Junk => 0 end.

Fixpoint count_of (k : string) (counts : list (string * Count)) : nat :=
  match counts with
  | [] => 0
  | (k', c) :: rest => if bool_decide (k' = k) then times c else count_of k rest
  end.

Definition ent (em : string) (q : Q) : Entry :=
  {| t := VUndefined; e := VStr em; stress := num q |}.

(** ** Further readings of the store and of the call log *)

(** The messages [onEmotionUpdate] was called with, in order. *)
Definition parent_updates (cs : list Call) : list value :=
  omap (λ c, match c with Call_onEmotionUpdate d => Some d | _ => None end) cs.

(** A message on the wire format: [emotion], when truthy, is a string and
    [stress_score], when truthy, is a number. *)
Definition wire_typed (event : MessageEvent) : Prop :=
  match event with
  | NotJSON => True
  | Parsed data =>
      (truthy (field data "emotion") = true ->
       ∃ k, field data "emotion" = VStr k) ∧
      (truthy (field data "stress_score") = true ->
       ∃ q, field data "stress_score" = VNum q)
  end.

(** An entry with a non-empty string label and a numeric stress score. *)
Definition typed_entry (en : Entry) : Prop :=
  e en = VStr (label en) ∧ label en ≠ "" ∧ stress en = VNum (score en).

(** [{ frame: ... }] messages, and how many the current socket was sent. *)
Definition is_frame (msg : value) : bool :=
  match msg with
  | VObj m => bool_decide (is_Some (m !! "frame"))
  | _ => false
  end.

Definition frames_sent (s : Store) : nat :=
  match wsRef (refs s) with
  | Some w => length (filter (λ m, is_frame m = true) (sent w))
  | None => 0
  end.

(** The capture loop has at most one animation frame outstanding, and it is
    the one [frameLoopRef] holds. *)
Definition single_loop (s : Store) : Prop :=
  0 < raf_next (browser s) ∧
  (raf_queue (browser s) = [] ∨
   ∃ id, raf_queue (browser s) = [id] ∧ frameLoopRef (refs s) = Some id ∧
         0 < id < raf_next (browser s)).

(** ** The handlers' effects as store updates *)

(** What [stopFrameLoop] does to the frame queue. *)
Definition cancel_loop (s : Store) (b : Browser) : Browser :=
  match frameLoopRef (refs s) with
  | Some (S n) => with_raf_queue (filter (λ j, j ≠ S n) (raf_queue b)) b
  | _ => b
  end.

(** [frameLoopRef.current = requestAnimationFrame(capture)] *)
Definition request_frame (s : Store) : Store :=
  with_refs (with_frameLoopRef (Some (raf_next (browser s))))
    (with_browser
       (λ b, with_raf_next (S (raf_next b))
               (with_raf_queue (raf_queue b ++ [raf_next b]) b)) s).

(** One more frame drawn and handed to [toBlob]. *)
Definition count_frame (b : Browser) : Browser :=
  with_blobs_pending (S (blobs_pending b))
    (with_toBlob_calls (S (toBlob_calls b)) b).

(** The socket after [msg] has gone out on it. *)
Definition after_send (msg : value) (w : WebSocket) : WebSocket :=
  mkWebSocket OPEN (sent w ++ [msg]) (closure_status w).

(** The timeline emptied, in the ref and in the state. *)
Definition cleared (s : Store) : Store :=
  with_hooks (with_timeline []) (with_refs (with_timelineRef []) s).

(** What the capture loop consists of: the queued frames, the next frame
    id, and the id kept in [frameLoopRef]. *)
Definition loop_view (s : Store) : list nat * nat * option nat :=
  (raf_queue (browser s), raf_next (browser s), frameLoopRef (refs s)).

(** The messages sent on the current socket ([[]] without a socket). *)
Definition sent_log (s : Store) : list value :=
  match wsRef (refs s) with Some w => sent w | None => [] end.

(** No more frames sent, together with those still being encoded, than
    frames drawn; and nothing sent but frames and reset requests. *)
Definition frames_accounted (s : Store) : Prop :=
  frames_sent s + blobs_pending (browser s) ≤ toBlob_calls (browser s) ∧
  Forall (λ msg, (∃ b64, msg = frame_msg b64) ∨ msg = reset_msg) (sent_log s).

(** What frame transmission consists of: the current socket's log, the
    encoder callbacks pending, the frames drawn. *)
Definition io_view (s : Store) : list value * nat * nat :=
  (sent_log s, blobs_pending (browser s), toBlob_calls (browser s)).

(** ** Rendering

    What the component computes on each render next to the session
    statistics: the stress gauge, the bars of the stress timeline and the
    badge over the video.  Colours of the bars, glows and the hover titles
    are left out; a [TypeError] thrown while rendering is [None]. *)

(** *** The stress gauge *)

(** [Math.round(stressScore * 100)], for a numeric [stressScore]. *)
Definition stressPct (stressScore : value) : option double :=
  x ← number_of stressScore;
  Some (Math_round (dmul (to_double x) (to_double (Qc_of_nat 100)))).

Definition stressLabel (stressPct : double) : string :=
  if dgt stressPct (Qc_of_nat 70) then "HIGH"
  else if dgt stressPct (Qc_of_nat 40) then "MODERATE" else "LOW".

Definition stressLabelClr (stressPct : double) : string :=
  if dgt stressPct (Qc_of_nat 70) then "#f87171"
  else if dgt stressPct (Qc_of_nat 40) then "#fb923c" else "#4ade80".

(** *** [StressTimeline] *)

Record Bar := mkBar { height : Qc; opacity : Qc }.

Inductive TimelineView := Placeholder | Bars (bs : list Bar).

(** [Math.max(a, b)] *)
Definition Math_max (a b : Qc) : Qc := if bool_decide (a ≤ b)%Qc then b else a.

(** [recent.map((entry, i) => ...)] from index [i] on.  The bar of an entry
    is [Math.max(4, entry.stress * 38)] high; its title calls
    [entry.stress.toFixed(2)], which throws unless [entry.stress] is a
    number. *)
Fixpoint bars (len i : nat) (recent : list Entry) : option (list Bar) :=
  match recent with
  | [] => Some []
  | entry :: rest =>
      x ← number_of (stress entry);
      bs ← bars len (S i) rest;
      Some ({| height := Math_max (Qc_of_nat 4) (x * Qc_of_nat 38);
               opacity := Q2Qc (2 # 5)
                          + Qc_of_nat i / Qc_of_nat len * Q2Qc (3 # 5) |}%Qc
            :: bs)
  end.

(** The placeholder text when [!timeline.length], else one bar for each of
    [timeline.slice(-80)]. *)
Definition StressTimeline (timeline : list Entry) : option TimelineView :=
  match timeline with
  | [] => Some Placeholder
  | _ :: _ =>
      let recent := slice_last 80 timeline in
      Bars <$> bars (length recent) 0 recent
  end.

(** *** The badge over the video

    Five children [{status === ... && "text"}]; React renders the strings
    and nothing for [false]. *)
Definition shown_if (c : bool) (text : string) : string :=
  if c then text else "".

Definition badge (h : Hooks) : string :=
  shown_if (bool_decide (status h = idle)) "● STANDBY"
  +:+ shown_if (bool_decide (status h = connecting)) "○ INITIALIZING"
  +:+ shown_if (bool_decide (status h = live) && faceDetected h) "● TRACKING"
  +:+ shown_if (bool_decide (status h = no_face)) "○ NO FACE DETECTED"
  +:+ shown_if (bool_decide (status h = error)) "● ERROR".

(** ** The parent: [App.jsx]

    [App] keeps the route, the last emotion reported and the flag of the
    breathing prompt.  It renders [EmotionDetector] on the route
    ["/emotion"] only, passing [handleEmotionUpdate], which is memoised on
    [showBreathPrompt].  The detector calls the [onEmotionUpdate] that its
    [connect] closed over, and [connect] is memoised on [token] and
    [userId]: with those two fixed, that is the handler of the render that
    mounted the detector.  [detector] is [Some c] while the detector is
    mounted, [c] being the [showBreathPrompt] that handler closed over.
    A message still in flight when the detector is unmounted is not
    considered. *)

Record App := mkApp {
  route : string;
  emotionState : value * value;   (* { emotion, stressScore } *)
  showBreathPrompt : bool;
  detector : option bool;
}.

(** [v > q] for [v] a number, or one of the values that convert to a number
    without parsing: [undefined] is [NaN], [null] and [false] are 0, [true]
    is 1.  Strings, arrays and objects are not modelled ([None]). *)
Definition js_gt (v : value) (q : Qc) : option bool :=
  match v with
  | VNum x => Some (bool_decide (q < x)%Qc)
  | VUndefined => Some false
  | VNull => Some (bool_decide (q < 0)%Qc)
  | VBool b => Some (bool_decide (q < (if b then 1 else 0))%Qc)
  | _ => None
  end.

(** [handleEmotionUpdate], as closed over [showBreathPrompt = captured].
    [None] when reading [data] throws or the comparison is not modelled. *)
Definition handleEmotionUpdate (captured : bool) (data : value) (a : App)
  : option App :=
  em ← prop data "emotion";
  sc ← prop data "stress_score";
  over ← js_gt sc (Q2Qc (3 # 4));
  Some {| route := route a;
          emotionState := (em, sc);
          showBreathPrompt :=
            if over && negb captured then true else showBreathPrompt a;
          detector := detector a |}.

(** The banner is on screen when [showBreathPrompt && route !== "/breathing"]. *)
Definition banner (a : App) : bool :=
  showBreathPrompt a && negb (bool_decide (route a = "/breathing")).

(** [setRoute(r)]: the detector is unmounted when the route leaves
    ["/emotion"], and mounted, with the handler of that render, when the
    route becomes ["/emotion"]. *)
Definition setRoute (r : string) (a : App) : App :=
  {| route := r;
     emotionState := emotionState a;
     showBreathPrompt := showBreathPrompt a;
     detector :=
       if bool_decide (r = "/emotion") then
         if bool_decide (route a = "/emotion") then detector a
         else Some (showBreathPrompt a)
       else None |}.

Definition setShowBreathPrompt (b : bool) (a : App) : App :=
  {| route := route a;
     emotionState := emotionState a;
     showBreathPrompt := b;
     detector := detector a |}.

Inductive AppEvent :=
  | Navigate (r : string)            (* Nav, HealthOrbit: [onNavigate(r)] *)
  | EmotionUpdate (data : value)     (* the detector: [onEmotionUpdate?.(data)] *)
  | BreatheNow                       (* banner button BREATHE NOW *)
  | Dismiss                          (* banner button ✕ *)
  | BreathingComplete.               (* [BreathingExercise]: [onComplete] *)

Definition app_handle (ev : AppEvent) (a : App) : option App :=
  match ev with
  | Navigate r => Some (setRoute r a)
  | EmotionUpdate data =>
      match detector a with
      | Some captured => handleEmotionUpdate captured data a
      | None => Some a
      end
  | BreatheNow =>
      Some (if banner a
            then setShowBreathPrompt false (setRoute "/breathing" a) else a)
  | Dismiss =>
      Some (if banner a then setShowBreathPrompt false a else a)
  | BreathingComplete =>
      Some (if bool_decide (route a = "/breathing")
            then setRoute "/" (setShowBreathPrompt false a) else a)
  end.

Definition app_run (evs : list AppEvent) (a : App) : option App :=
  foldl (λ oa ev, a ← oa; app_handle ev a) (Some a) evs.

(** [App]'s first render after login. *)
Definition app_initial : App :=
  {| route := "/";
     emotionState := (VStr "calm", num (3 # 10));
     showBreathPrompt := false;
     detector := None |}.

(** ** Readings of what is rendered *)

(** An entry whose stress score is a number between 0 and 1, as the server
    sends it. *)
Definition score_in_range (en : Entry) : Prop :=
  ∃ q, stress en = VNum q ∧ (0 ≤ q)%Qc ∧ (q ≤ 1)%Qc.

(** A bar that shows and stays inside the strip, 40 units high, that
    [StressTimeline] draws it in. *)
Definition bar_fits (b : Bar) : Prop :=
  (Qc_of_nat 4 ≤ height b)%Qc ∧ (height b ≤ Qc_of_nat 38)%Qc ∧
  (Q2Qc (2 # 5) ≤ opacity b)%Qc ∧ (opacity b < 1)%Qc.

(** ** Example states of [App] *)

(** A report of high stress, as the detector passes it on. *)
Definition high_stress : value :=
  VObj (<["face_detected" := VBool true]>
       (<["emotion" := VStr "stressed"]>
       (<["stress_score" := num (4 # 5)]> ∅))).

(** The detector page, opened from the first render. *)
Definition detector_page : App := setRoute "/emotion" app_initial.

(** The prompt was raised on the detector page and the user went back to
    the start page without answering it. *)
Definition prompted_app : App :=
  setRoute "/" (setShowBreathPrompt true
                  (mkApp "/emotion" (VStr "stressed", num (4 # 5)) false
                         (Some false))).

(** The least stress scores from which the gauge reads HIGH and MODERATE:
    [0.705 - 2^-47 / 100] and [0.405 - 2^-48 / 100]. *)
Definition high_from : Qc :=
  (Q2Qc (141 # 200) - Q2Qc (1 # 100 * 2 ^ 47))%Qc.
Definition moderate_from : Qc :=
  (Q2Qc (81 # 200) - Q2Qc (1 # 100 * 2 ^ 48))%Qc.

(** The largest run of whole numbers among the doubles ends at [2^53]:
    the next whole number is rounded back to it. *)
Definition whole_limit : Qc := Q2Qc (inject_Z (2 ^ 53)).

(** A sum of [k] scores so far: it never passes [2^53], and stays under
    [k] as long as [k] is a double. *)
Definition partial_sum (k : nat) (a : Qc) : Prop :=
  (0 ≤ a)%Qc ∧ (a ≤ whole_limit)%Qc ∧
  ((Z.of_nat k ≤ 2 ^ 53)%Z -> (a ≤ Qc_of_nat k)%Qc).

(** Up to 512 a number and its double differ by at most [2^-44]. *)
Definition rounding_error : Q := 1 # 2 ^ 44.

(** How far AVG STRESS may lie from the mean as a percentage: the half
    that [Math.round] may take or give, and [2^-35] for the doubles. *)
Definition figure_slack : Q := (1 # 2) + (1 # 2 ^ 35).


(** * Proofs *)

(** ** The message handler, case by case *)

Ltac unfold_handler :=
  cbv [onmessage try_catch JSON_parse get mbind M_bind mret M_ret skip throw
       read write modify setStatus setEmotion setAllEmotions setConfidence
       setStressScore setFps setTimeline setIsMock setFaceDetected
       assign_timelineRef onEmotionUpdate exec calls throws
       fst snd].

Lemma onmessage_not_json s : onmessage NotJSON s = (Some (), s, []).
Proof. reflexivity. Qed.

Lemma onmessage_null s : onmessage (Parsed VNull) s = (Some (), s, []).
Proof. reflexivity. Qed.

Ltac handler_case data :=
  unfold is_control, field in *;
  destruct data;
  cbn [prop or_undefined is_str truthy negb orb] in *;
  try discriminate; try congruence;
  unfold_handler; cbn [prop or_undefined is_str truthy negb orb];
  repeat match goal with
         | H : _ = true |- _ => rewrite H
         | H : _ = false |- _ => rewrite H
         end;
  cbn [negb]; reflexivity.

Lemma onmessage_control data s :
  is_control data = true -> onmessage (Parsed data) s = (Some (), s, []).
Proof. intros H. handler_case data. Qed.

Lemma onmessage_no_face data s :
  data <> VNull -> data <> VUndefined ->
  is_control data = false ->
  truthy (field data "face_detected") = false ->
  onmessage (Parsed data) s =
    (Some (), with_hooks (flag_update data false) s, flag_calls data false).
Proof. intros Hn Hu Hc Hf. handler_case data. Qed.

Lemma onmessage_face_only data s :
  is_control data = false ->
  truthy (field data "face_detected") = true ->
  truthy (field data "emotion") = false ->
  onmessage (Parsed data) s =
    (Some (), with_hooks (flag_update data true) s, flag_calls data true).
Proof. intros Hc Hf He. handler_case data. Qed.

Lemma onmessage_sample data s :
  is_control data = false ->
  truthy (field data "face_detected") = true ->
  truthy (field data "emotion") = true ->
  let tl := push_entry (timelineRef (refs s)) (entry_of data) in
  onmessage (Parsed data) s =
    (Some (), sample_update data tl s,
     flag_calls data true ++ sample_calls data tl).
Proof. intros Hc Hf He. handler_case data. Qed.

(** Every message falls under one of four cases. *)
Lemma onmessage_cases event s :
  (recorded event = None ∧ onmessage event s = (Some (), s, [])) ∨
  ∃ data, event = Parsed data ∧ data ≠ VNull ∧ data ≠ VUndefined ∧
          is_control data = false ∧
          ((truthy (field data "face_detected") = false ∧
            recorded event = None ∧
            onmessage event s =
              (Some (), with_hooks (flag_update data false) s,
               flag_calls data false)) ∨
           (truthy (field data "face_detected") = true ∧
            truthy (field data "emotion") = false ∧
            recorded event = None ∧
            onmessage event s =
              (Some (), with_hooks (flag_update data true) s,
               flag_calls data true)) ∨
           (truthy (field data "face_detected") = true ∧
            truthy (field data "emotion") = true ∧
            recorded event = Some (entry_of data) ∧
            onmessage event s =
              (Some (),
               sample_update data
                 (push_entry (timelineRef (refs s)) (entry_of data)) s,
               flag_calls data true
               ++ sample_calls data
                    (push_entry (timelineRef (refs s)) (entry_of data))))).
Proof.
  destruct event as [|data]; [left; split; reflexivity|].
  assert (data = VNull ∨ data = VUndefined ∨ (data ≠ VNull ∧ data ≠ VUndefined))
    as [->|[->|[Hn Hu]]] by (destruct data; naive_solver);
    [left; split; reflexivity | left; split; reflexivity |].
  assert (∀ b, negb (is_control data) && truthy (field data "face_detected")
               && truthy (field data "emotion") = b ->
               recorded (Parsed data) = if b then Some (entry_of data) else None)
    as Hrec by (intros b <-; by destruct data).
  destruct (is_control data) eqn:Hc.
  { left; split; [by apply (Hrec false) | by apply onmessage_control]. }
  right. exists data. do 4 (split; [done|]).
  destruct (truthy (field data "face_detected")) eqn:Hf.
  - destruct (truthy (field data "emotion")) eqn:He.
    + right; right. do 2 (split; [done|]).
      split; [by apply (Hrec true) | by apply onmessage_sample].
    + right; left. do 2 (split; [done|]).
      split; [by apply (Hrec false) | by apply onmessage_face_only].
  - left. split; [done|].
    split; [by apply (Hrec false) | by apply onmessage_no_face].
Qed.

Lemma exec_eq (m : M ()) s r s' l : m s = (r, s', l) -> exec m s = s'.
Proof. unfold exec. by intros ->. Qed.

Lemma calls_eq (m : M ()) s r s' l : m s = (r, s', l) -> calls m s = l.
Proof. unfold calls. by intros ->. Qed.

(** A message that is not a control frame sets the status from its
    [face_detected] flag alone. *)
Lemma onmessage_status data s :
  data ≠ VNull -> data ≠ VUndefined -> is_control data = false ->
  let s' := exec (onmessage (Parsed data)) s in
  status (hooks s') = (if truthy (field data "face_detected") then live else no_face)
  ∧ faceDetected (hooks s') = truthy (field data "face_detected").
Proof.
  intros Hn Hu Hc. cbn zeta.
  destruct (truthy (field data "face_detected")) eqn:Hf.
  - destruct (truthy (field data "emotion")) eqn:He.
    + by rewrite (exec_eq _ _ _ _ _ (onmessage_sample data s Hc Hf He)).
    + by rewrite (exec_eq _ _ _ _ _ (onmessage_face_only data s Hc Hf He)).
  - by rewrite (exec_eq _ _ _ _ _ (onmessage_no_face data s Hn Hu Hc Hf)).
Qed.

(** ** The other handlers *)

Ltac unfold_monad :=
  cbv [mbind M_bind mret M_ret skip throw read write modify exec calls throws
       try_catch setStatus setEmotion setAllEmotions setConfidence
       setStressScore setFps setTimeline setIsMock setFaceDetected
       assign_timelineRef assign_frameLoopRef onEmotionUpdate
       requestAnimationFrame cancelAnimationFrame draw_and_toBlob].

Lemma capture_closed s : ws_open s = false -> capture s = (Some (), s, []).
Proof. intros H. unfold capture. unfold_monad. by rewrite H. Qed.

Lemma ws_open_browser f s : ws_open (with_browser f s) = ws_open s.
Proof. reflexivity. Qed.

(** An animation frame that finds the socket not open changes nothing but
    the frame queue, which loses the frame that ran. *)
Lemma frame_closed id s :
  ws_open s = false ->
  let s' := handle (AnimationFrame id) s in
  hooks s' = hooks s ∧ refs s' = refs s ∧
  raf_next (browser s') = raf_next (browser s) ∧
  toBlob_calls (browser s') = toBlob_calls (browser s) ∧
  blobs_pending (browser s') = blobs_pending (browser s) ∧
  camera_wait (browser s') = camera_wait (browser s) ∧
  raf_queue (browser s') ⊆ raf_queue (browser s) ∧
  connect_closure s' = connect_closure s.
Proof.
  intros H. cbn [handle]. case_bool_decide as Hid; cbn zeta.
  - erewrite exec_eq by (apply capture_closed; by rewrite ws_open_browser).
    repeat split. cbn. intros x. rewrite list_elem_of_filter. tauto.
  - repeat split. done.
Qed.

Lemma frames_closed ids s :
  ws_open s = false ->
  let s' := run (AnimationFrame <$> ids) s in
  hooks s' = hooks s ∧ refs s' = refs s ∧
  raf_next (browser s') = raf_next (browser s) ∧
  toBlob_calls (browser s') = toBlob_calls (browser s) ∧
  blobs_pending (browser s') = blobs_pending (browser s) ∧
  raf_queue (browser s') ⊆ raf_queue (browser s).
Proof.
  revert s. induction ids as [|id ids IH]; intros s H; [done|].
  destruct (frame_closed id s H) as (Hh & Hr & Hn & Ht & Hb & _ & Hq & _).
  assert (ws_open (handle (AnimationFrame id) s) = false) as H'
    by (unfold ws_open in *; by rewrite Hr).
  destruct (IH _ H') as (Hh' & Hr' & Hn' & Ht' & Hb' & Hq').
  cbn zeta in *. unfold run in *. cbn [fmap list_fmap foldl].
  rewrite Hh', Hr', Hn', Ht', Hb'. repeat split; try done.
  etrans; done.
Qed.

Ltac unfold_handlers :=
  cbv [disconnect stopFrameLoop close_socket stop_tracks detach_video
       reset_click ws_send capture startFrameLoop onopen onerror onclose
       connect_begin connect_resume blob_callback];
  unfold_monad.

Lemma disconnect_result s :
  ∃ l,
    disconnect s =
      (Some (),
       with_hooks (λ h, with_allEmotions VNull
                          (with_emotion VNull (with_status idle h)))
         (with_refs
            (λ r, with_videoRef ((λ _, mkVideo false) <$> videoRef r)
                    (with_streamRef
                       ((λ m, mkMediaStream (S (stops m))) <$> streamRef r)
                       (with_wsRef (ws_close <$> wsRef r) r)))
            (with_browser
               (λ b, match frameLoopRef (refs s) with
                     | Some (S n) =>
                         with_raf_queue
                           (filter (λ j, j ≠ S n) (raf_queue b)) b
                     | _ => b
                     end) s)),
       l).
Proof.
  unfold_handlers.
  destruct s as [h [v c w m f tl] b cc]; cbn.
  destruct f as [[|n]|], w as [w|], m as [m|], v as [v|]; cbn;
    eexists; reflexivity.
Qed.

Lemma ws_close_not_open w :
  readyState (ws_close w) = CLOSING ∨ readyState (ws_close w) = CLOSED.
Proof. unfold ws_close. destruct w as [[] ? ?]; cbn; auto. Qed.

Lemma reset_open s w :
  wsRef (refs s) = Some w -> readyState w = OPEN ->
  reset_click s =
    (Some (),
     with_hooks (with_timeline [])
       (with_refs
          (λ r, with_timelineRef []
                  (with_wsRef
                     (Some (mkWebSocket OPEN (sent w ++ [reset_msg])
                                        (closure_status w))) r)) s),
     [Call_send reset_msg; Assign_timelineRef []; Set_timeline []]).
Proof. intros Hw Ho. unfold_handlers. rewrite Hw, Ho. reflexivity. Qed.

Lemma onclose_result captured s :
  ∃ l,
    onclose captured s =
      (Some (),
       with_hooks (λ h, if bool_decide (captured ≠ idle)
                        then with_status idle h else h)
         (with_browser
            (λ b, match frameLoopRef (refs s) with
                  | Some (S n) =>
                      with_raf_queue (filter (λ j, j ≠ S n) (raf_queue b)) b
                  | _ => b
                  end) s),
       l) ∧ Forall (λ c, c ≠ Call_track_stop) l.
Proof.
  unfold_handlers. destruct s as [h [v c w m f tl] b cc]; cbn.
  destruct f as [[|n]|]; case_bool_decide; cbn; destruct h, b;
    eexists; (split; [reflexivity|]); repeat constructor; done.
Qed.

Lemma onopen_result s :
  ∃ s' l,
    onopen s = (Some (), s', l) ∧
    hooks s' = with_status live (hooks s) ∧
    wsRef (refs s') = wsRef (refs s) ∧
    timelineRef (refs s') = timelineRef (refs s) ∧
    raf_queue (browser s')
      = (if canvasRef (refs s) && bool_decide (is_Some (videoRef (refs s)))
         then raf_queue (browser s) ++ [raf_next (browser s)]
         else raf_queue (browser s)).
Proof.
  unfold_handlers. destruct s as [h [v c w m f tl] b cc]; cbn.
  destruct c, v as [v|]; cbn; do 2 eexists; (split; [reflexivity|]);
    repeat split; done.
Qed.

(** ** One session: from the open event on *)

Lemma ws_open_true s :
  ws_open s = true ↔ ∃ w, wsRef (refs s) = Some w ∧ readyState w = OPEN.
Proof.
  unfold ws_open. destruct (wsRef (refs s)) as [w|].
  - rewrite bool_decide_eq_true. split.
    + intros H. by exists w.
    + by intros (w' & [= <-] & H).
  - split; [done | by intros (w & ? & _)].
Qed.

Lemma ws_open_socket_state s : ws_open s = true ↔ socket_state s = Some OPEN.
Proof.
  unfold ws_open, socket_state.
  destruct (wsRef (refs s)) as [w|]; cbn; [|done].
  rewrite bool_decide_eq_true. split; congruence.
Qed.

Lemma handle_opened s :
  socket_state s = Some CONNECTING ->
  let s' := handle SocketOpened s in
  status (hooks s') = live ∧
  socket_state s' = Some OPEN ∧
  faceDetected (hooks s') = faceDetected (hooks s) ∧
  timeline (hooks s') = timeline (hooks s) ∧
  timelineRef (refs s') = timelineRef (refs s) ∧
  raf_queue (browser s')
    = (if canvasRef (refs s) && bool_decide (is_Some (videoRef (refs s)))
       then raf_queue (browser s) ++ [raf_next (browser s)]
       else raf_queue (browser s)).
Proof.
  intros H. cbn [handle]. rewrite H. cbn zeta.
  destruct (onopen_result (set_readyState OPEN s))
    as (s' & l & Ho & Hh & Hw & Ht & Hq).
  rewrite (exec_eq _ _ _ _ _ Ho), Hh, Hq. unfold socket_state in *.
  rewrite Hw, Ht.
  unfold set_readyState. destruct (wsRef (refs s)) as [w|]; done.
Qed.

(** The socket handlers leave the socket itself alone. *)
Lemma onmessage_refs event s :
  let s' := exec (onmessage event) s in
  wsRef (refs s') = wsRef (refs s) ∧ streamRef (refs s') = streamRef (refs s) ∧
  frameLoopRef (refs s') = frameLoopRef (refs s) ∧ browser s' = browser s ∧
  (status (hooks s') = status (hooks s) ∨ Live s' ∨ NoSignal s').
Proof.
  cbn zeta.
  destruct (onmessage_cases event s)
    as [[_ H]|(d & -> & _ & _ & _ &
               [(_ & _ & H)|[(_ & _ & _ & H)|(_ & _ & _ & H)]])];
    rewrite (exec_eq _ _ _ _ _ H); unfold Live, NoSignal; cbn; auto 10.
Qed.

Lemma capture_result s :
  ∃ s' l,
    capture s = (Some (), s', l) ∧ hooks s' = hooks s ∧
    wsRef (refs s') = wsRef (refs s) ∧
    streamRef (refs s') = streamRef (refs s) ∧
    timelineRef (refs s') = timelineRef (refs s) ∧
    connect_closure s' = connect_closure s.
Proof.
  unfold_handlers. destruct (ws_open s); cbn; do 2 eexists;
    (split; [reflexivity|]); done.
Qed.

Lemma blob_callback_result blob s :
  ∃ s' l,
    blob_callback blob s = (Some (), s', l) ∧ hooks s' = hooks s ∧
    ws_open s' = ws_open s ∧
    streamRef (refs s') = streamRef (refs s) ∧
    timelineRef (refs s') = timelineRef (refs s) ∧
    browser s' = browser s.
Proof.
  unfold_handlers. destruct blob as [b64|]; [|by do 2 eexists].
  destruct (wsRef (refs s)) as [w|] eqn:Hw; [|by do 2 eexists].
  case_bool_decide as Ho; [|by do 2 eexists].
  rewrite Ho. do 2 eexists. split; [reflexivity|].
  unfold ws_open. rewrite Hw. cbn. by rewrite Ho.
Qed.

(** While the socket is open and only in-session events occur, the socket
    stays open and the status stays ["live"] or ["no_face"]. *)
Lemma in_session_step ev s :
  in_session ev = true ->
  ws_open s = true -> Live s ∨ NoSignal s ->
  ws_open (handle ev s) = true ∧ (Live (handle ev s) ∨ NoSignal (handle ev s)).
Proof.
  intros Hev Ho Hst.
  assert (status (hooks s) ≠ idle) as Hidle
    by (unfold Live, NoSignal in Hst; destruct Hst as [-> | ->]; done).
  destruct ev; try discriminate; cbn [handle].
  - (* PropsChanged *) done.
  - (* ClickStart *) by rewrite bool_decide_false.
  - (* SocketMessage *)
    rewrite (proj1 (ws_open_socket_state s) Ho).
    destruct (onmessage_refs m s) as (Hw & _ & _ & _ & Hs). cbn zeta in *.
    split.
    + unfold ws_open in *. by rewrite Hw.
    + unfold Live, NoSignal in *. destruct Hs as [-> | Hs]; done.
  - (* AnimationFrame *)
    case_bool_decide as Hq; [|done].
    destruct (capture_result
                (with_browser
                   (λ b, with_raf_queue (filter (λ j, j ≠ id) (raf_queue b)) b) s))
      as (s' & l & H & Hh & Hw & _).
    rewrite (exec_eq _ _ _ _ _ H). unfold ws_open, Live, NoSignal in *.
    by rewrite Hw, Hh.
  - (* BlobReady *)
    destruct (blobs_pending (browser s)) as [|n]; [done|].
    destruct (blob_callback_result blob (with_browser (with_blobs_pending n) s))
      as (s' & l & H & Hh & Hw & _).
    rewrite (exec_eq _ _ _ _ _ H), Hw. unfold Live, NoSignal. by rewrite Hh.
  - (* ClickReset *)
    rewrite bool_decide_true by done.
    apply ws_open_true in Ho as (w & Hw & Hr).
    rewrite (exec_eq _ _ _ _ _ (reset_open s w Hw Hr)). done.
Qed.

Lemma in_session_run evs s :
  Forall (λ ev, in_session ev = true) evs ->
  ws_open s = true -> Live s ∨ NoSignal s ->
  ws_open (run evs s) = true ∧ (Live (run evs s) ∨ NoSignal (run evs s)).
Proof.
  intros Hevs. revert s. induction Hevs as [|ev evs Hev _ IH]; intros s Ho Hst.
  - done.
  - destruct (in_session_step ev s Hev Ho Hst) as [Ho' Hst'].
    apply (IH _ Ho' Hst').
Qed.

(** ** The timeline *)

Lemma length_slice_last {A} n (l : list A) : length (slice_last n l) = min n (length l).
Proof. unfold slice_last. rewrite length_drop. lia. Qed.

Lemma slice_last_short {A} n (l : list A) : length l ≤ n -> slice_last n l = l.
Proof.
  intros H. unfold slice_last. replace (length l - n) with 0 by lia. done.
Qed.

Lemma slice_last_app {A} n (a b : list A) :
  slice_last n (slice_last n a ++ b) = slice_last n (a ++ b).
Proof.
  destruct (decide (length a ≤ n)) as [Hle|Hgt].
  - by rewrite (slice_last_short n a).
  - unfold slice_last at 1 3. rewrite !length_app, length_slice_last.
    unfold slice_last.
    replace (n `min` length a + length b - n) with (length b) by lia.
    replace (length a + length b - n) with ((length a - n) + length b) by lia.
    rewrite <- drop_drop. f_equal. rewrite drop_app_le by lia. done.
Qed.

Lemma push_entry_slice cur x : push_entry cur x = slice_last 300 (cur ++ [x]).
Proof.
  unfold push_entry, slice_last. rewrite length_app. cbn [length].
  replace (length cur + 1 - 300) with (length cur - 299) by lia.
  rewrite drop_app_le by lia. done.
Qed.

Lemma length_push_entry cur x : length (push_entry cur x) ≤ 300.
Proof. rewrite push_entry_slice, length_slice_last. lia. Qed.

(** Pushing entries one by one keeps the last 300 of all of them. *)
Lemma foldl_push_entry l cur :
  length cur ≤ 300 ->
  foldl push_entry cur l = slice_last 300 (cur ++ l).
Proof.
  revert cur. induction l as [|x l IH]; intros cur H; cbn [foldl].
  - by rewrite app_nil_r, slice_last_short.
  - rewrite IH by apply length_push_entry.
    rewrite push_entry_slice, slice_last_app, <- app_assoc. done.
Qed.

Lemma onmessage_timeline event s :
  let s' := exec (onmessage event) s in
  timelineRef (refs s')
    = match recorded event with
      | Some x => push_entry (timelineRef (refs s)) x
      | None => timelineRef (refs s)
      end ∧
  (timeline (hooks s) = timelineRef (refs s) ->
   timeline (hooks s') = timelineRef (refs s')).
Proof.
  cbn zeta.
  destruct (onmessage_cases event s)
    as [[Hr H]|(d & -> & _ & _ & _ &
               [(_ & Hr & H)|[(_ & _ & Hr & H)|(_ & _ & Hr & H)]])];
    rewrite (exec_eq _ _ _ _ _ H), Hr; done.
Qed.

Lemma deliver_timeline msgs s :
  timelineRef (refs (deliver msgs s))
    = foldl push_entry (timelineRef (refs s)) (omap recorded msgs) ∧
  (timeline (hooks s) = timelineRef (refs s) ->
   timeline (hooks (deliver msgs s)) = timelineRef (refs (deliver msgs s))).
Proof.
  revert s. induction msgs as [|m msgs IH]; intros s; [done|].
  unfold deliver in *. cbn [foldl omap list_omap].
  destruct (onmessage_timeline m s) as [Ht Hmirror]. cbn zeta in *.
  destruct (IH (exec (onmessage m) s)) as [IH1 IH2].
  split.
  - rewrite IH1, Ht. by destruct (recorded m).
  - intros Hs. apply IH2, Hmirror, Hs.
Qed.

Lemma onclose_timeline captured s :
  timelineRef (refs (exec (onclose captured) s)) = timelineRef (refs s) ∧
  timeline (hooks (exec (onclose captured) s)) = timeline (hooks s).
Proof.
  destruct (onclose_result captured s) as (l & H & _).
  rewrite (exec_eq _ _ _ _ _ H). cbn. by destruct (bool_decide _).
Qed.

Lemma set_readyState_timeline rs s :
  timelineRef (refs (set_readyState rs s)) = timelineRef (refs s) ∧
  timeline (hooks (set_readyState rs s)) = timeline (hooks s).
Proof. unfold set_readyState. by destruct (wsRef (refs s)). Qed.

(** No handler touches the timeline except [ws.onmessage], which pushes,
    and the reset button, which empties it. *)
Lemma handle_timeline ev s :
  let s' := handle ev s in
  (timelineRef (refs s') = timelineRef (refs s) ∧
   timeline (hooks s') = timeline (hooks s)) ∨
  (timelineRef (refs s') = [] ∧ timeline (hooks s') = []) ∨
  (∃ x, timelineRef (refs s') = push_entry (timelineRef (refs s)) x ∧
        timeline (hooks s') = push_entry (timelineRef (refs s)) x).
Proof.
  destruct ev; cbn [handle]; cbn zeta.
  - by left.
  - case_bool_decide as Hq; [|by left]. left. by unfold_handlers.
  - destruct (camera_wait (browser s)) as [|c rest]; [by left|]. left.
    unfold_handlers. destruct r as [|[] []]; cbn; try done.
    all: destruct (videoRef (refs s)); done.
  - destruct (socket_state s) as [[]|]; try by left.
    destruct (onopen_result (set_readyState OPEN s))
      as (s' & l & H & Hh & _ & Ht & _).
    rewrite (exec_eq _ _ _ _ _ H), Hh, Ht. left.
    unfold set_readyState. by destruct (wsRef (refs s)).
  - assert (let s' := exec (onmessage m) s in
            (timelineRef (refs s') = timelineRef (refs s) ∧
             timeline (hooks s') = timeline (hooks s)) ∨
            (timelineRef (refs s') = [] ∧ timeline (hooks s') = []) ∨
            (∃ x, timelineRef (refs s') = push_entry (timelineRef (refs s)) x ∧
                  timeline (hooks s') = push_entry (timelineRef (refs s)) x))
      as Hm.
    { cbn zeta.
      destruct (onmessage_cases m s)
        as [[_ H]|(d & -> & _ & _ & _ &
                   [(_ & _ & H)|[(_ & _ & _ & H)|(_ & _ & _ & H)]])];
        rewrite (exec_eq _ _ _ _ _ H); [by left..|].
      right; right. by eexists. }
    destruct (socket_state s) as [[]|]; (by left) || exact Hm.
  - destruct (socket_state s) as [[]|]; try by left.
    all: left; set (s1 := set_readyState CLOSED s);
      destruct (onclose_timeline (captured_status s1) (exec onerror s1))
        as [-> ->];
      apply (set_readyState_timeline CLOSED s).
  - destruct (socket_state s) as [[]|]; try by left.
    all: left; set (s1 := set_readyState CLOSED s);
      destruct (onclose_timeline (captured_status s1) s1) as [-> ->];
      apply (set_readyState_timeline CLOSED s).
  - case_bool_decide as Hq; [|by left].
    match goal with |- context [exec capture ?s0] =>
      destruct (capture_result s0) as (s' & l & H & Hh & _ & _ & Ht & _) end.
    rewrite (exec_eq _ _ _ _ _ H), Hh, Ht. by left.
  - destruct (blobs_pending (browser s)) as [|n]; [by left|].
    match goal with |- context [exec (blob_callback blob) ?s0] =>
      destruct (blob_callback_result blob s0)
        as (s' & l & H & Hh & _ & _ & Ht & _) end.
    rewrite (exec_eq _ _ _ _ _ H), Hh, Ht. by left.
  - case_bool_decide as Hq; [|by left].
    unfold_handlers. destruct (wsRef (refs s)) as [[[] snt c]|]; cbn; auto.
  - destruct (disconnect_result s) as (l & H).
    rewrite (exec_eq _ _ _ _ _ H). by left.
Qed.

Lemma run_timeline_bound evs s :
  length (timelineRef (refs s)) ≤ 300 -> length (timeline (hooks s)) ≤ 300 ->
  length (timelineRef (refs (run evs s))) ≤ 300 ∧
  length (timeline (hooks (run evs s))) ≤ 300.
Proof.
  revert s. induction evs as [|ev evs IH]; intros s H1 H2; [done|].
  unfold run in *. cbn [foldl]. apply IH.
  - destruct (handle_timeline ev s) as [[-> _]|[[-> _]|(x & -> & _)]];
      cbn; [lia | lia | apply length_push_entry].
  - destruct (handle_timeline ev s) as [[_ ->]|[[_ ->]|(x & _ & ->)]];
      cbn; [lia | lia | apply length_push_entry].
Qed.


(** ** Rounding to the nearest double *)

#[local] Open Scope Z_scope.

Lemma rne_div_bounds a b :
  0 < b ->
  2 * b * rne_div a b - b <= 2 * a <= 2 * b * rne_div a b + b.
Proof.
  intros Hb. unfold rne_div.
  pose proof (Z.div_mod a b ltac:(lia)) as Hd.
  pose proof (Z.mod_pos_bound a b Hb) as Hm.
  destruct (Z.compare_spec (2 * (a mod b)) b); [destruct (Z.even (a / b))|..];
    nia.
Qed.

(** A tie is resolved to an even integer. *)
Lemma rne_div_tie a b :
  0 < b ->
  2 * a = 2 * b * rne_div a b + b \/ 2 * a = 2 * b * rne_div a b - b ->
  Z.even (rne_div a b) = true.
Proof.
  intros Hb. unfold rne_div.
  pose proof (Z.div_mod a b ltac:(lia)) as Hd.
  pose proof (Z.mod_pos_bound a b Hb) as Hm.
  destruct (Z.compare_spec (2 * (a mod b)) b) as [He|Hl|Hg].
  - destruct (Z.even (a / b)) eqn:Ev; intros _; [done|].
    rewrite Z.even_add, Ev. done.
  - intros [H|H]; exfalso; nia.
  - intros [H|H]; exfalso; nia.
Qed.

Lemma rne_div_exact m b : 0 < b -> rne_div (m * b) b = m.
Proof.
  intros Hb. unfold rne_div.
  rewrite Z.mod_mul, Z.div_mul by lia. rewrite Z.mul_0_r.
  destruct (Z.compare_spec 0 b); lia.
Qed.

(** Rounding is monotone in the rational [a / b]. *)
Lemma rne_div_mono a b a' b' :
  0 < b -> 0 < b' -> a * b' <= a' * b -> rne_div a b <= rne_div a' b'.
Proof.
  intros Hb Hb' Hle.
  pose proof (rne_div_bounds a b Hb) as [Hl Hu].
  pose proof (rne_div_bounds a' b' Hb') as [Hl' Hu'].
  pose proof (rne_div_tie a b Hb) as Ht.
  pose proof (rne_div_tie a' b' Hb') as Ht'.
  set (m := rne_div a b) in *. set (m' := rne_div a' b') in *.
  destruct (Z_le_gt_dec m m') as [|Hgt]; [done|]. exfalso.
  assert (2 * a * b' >= (2 * m' + 1) * (b * b')) as H1 by nia.
  assert (2 * a' * b <= (2 * m' + 1) * (b * b')) as H2 by nia.
  assert (2 * a * b' = (2 * m' + 1) * (b * b')) as E1 by nia.
  assert (2 * a' * b = (2 * m' + 1) * (b * b')) as E2 by nia.
  assert (2 * a = (2 * m' + 1) * b) as E3 by nia.
  assert (2 * a' = (2 * m' + 1) * b') as E4 by nia.
  assert (m = m' + 1) as Em by nia.
  assert (Z.even m = true) as Ev by (apply Ht; right; nia).
  assert (Z.even m' = true) as Ev' by (apply Ht'; left; nia).
  rewrite Em, Z.even_add, Ev' in Ev. done.
Qed.

Lemma rne_div_nonneg a b : 0 < b -> 0 <= a -> 0 <= rne_div a b.
Proof.
  intros Hb Ha. rewrite <- (rne_div_exact 0 1) by lia.
  apply rne_div_mono; lia.
Qed.

Lemma div_mono_cross a b a' b' :
  0 < b -> 0 < b' -> a * b' <= a' * b -> a / b <= a' / b'.
Proof.
  intros Hb Hb' Hle. apply Z.div_le_lower_bound; [done|].
  pose proof (Z.mul_div_le a b Hb). nia.
Qed.

Lemma pow2_pos k : 0 < 2 ^ k \/ k < 0.
Proof. destruct (Z_lt_le_dec k 0); [by right | left; by apply Z.pow_pos_nonneg]. Qed.

(** The spacing exponent of the doubles around [x] units. *)
Lemma spacing_mono x y :
  x <= y -> Z.max 0 (Z.log2 x - 52) <= Z.max 0 (Z.log2 y - 52).
Proof. intros H. pose proof (Z.log2_le_mono x y H). lia. Qed.

Lemma below_binade x :
  0 <= x -> x < 2 ^ (Z.max 0 (Z.log2 x - 52) + 53).
Proof.
  intros Hx. destruct (Z.eq_dec x 0) as [->|Hn].
  - by apply Z.pow_pos_nonneg.
  - pose proof (Z.log2_spec x ltac:(lia)) as [_ Hu].
    pose proof (Z.log2_nonneg x).
    eapply Z.lt_le_trans; [exact Hu|].
    apply Z.pow_le_mono_r; lia.
Qed.

(** The units of [n / d], and what they are rounded with. *)
Lemma round53_mono n d n' d' :
  0 <= n -> n * Z.pos d' <= n' * Z.pos d -> round53 n d <= round53 n' d'.
Proof.
  intros Hn Hle. unfold round53.
  set (U := 2 ^ 1074). assert (0 < U) as HU by (by apply Z.pow_pos_nonneg).
  set (X := n * U). set (X' := n' * U).
  assert (0 <= X) as HX by nia.
  assert (X * Z.pos d' <= X' * Z.pos d) as HXle by nia.
  set (fx := X / Z.pos d). set (fx' := X' / Z.pos d').
  assert (fx <= fx') as Hf by (apply div_mono_cross; lia).
  assert (0 <= fx) as Hf0 by (apply Z.div_pos; lia).
  pose proof (spacing_mono fx fx' Hf) as Hk.
  set (k := Z.max 0 (Z.log2 fx - 52)) in *.
  set (k' := Z.max 0 (Z.log2 fx' - 52)) in *.
  assert (0 <= k) as Hk0 by lia.
  assert (0 < 2 ^ k) as Hp by (by apply Z.pow_pos_nonneg).
  assert (0 < 2 ^ k') as Hp' by (apply Z.pow_pos_nonneg; lia).
  destruct (Z.eq_dec k k') as [<-|Hne].
  - apply Z.mul_le_mono_nonneg_r; [lia|].
    apply rne_div_mono; nia.
  - assert (k < k') as Hlt by lia.
    assert (k' = Z.log2 fx' - 52) as Ek' by lia.
    assert (0 < fx') as Hf'.
    { destruct (Z_lt_le_dec 0 fx') as [|Hle0]; [done|].
      rewrite (Z.log2_nonpos fx' Hle0) in Ek'. lia. }
    set (B := 2 ^ (k' + 52)).
    assert (B <= fx') as HB.
    { pose proof (Z.log2_spec fx' Hf') as [Hl _].
      unfold B. by replace (k' + 52) with (Z.log2 fx') by lia. }
    assert (fx < B) as HfB.
    { pose proof (below_binade fx Hf0) as Hb. fold k in Hb.
      eapply Z.lt_le_trans; [exact Hb|]. apply Z.pow_le_mono_r; lia. }
    assert (B = 2 ^ (k' + 52 - k) * 2 ^ k) as EB.
    { unfold B. rewrite <- Z.pow_add_r by lia. f_equal. lia. }
    assert (B = 2 ^ 52 * 2 ^ k') as EB'.
    { unfold B. rewrite <- Z.pow_add_r by lia. f_equal. lia. }
    assert (X <= B * Z.pos d) as HXB.
    { pose proof (Z.div_mod X (Z.pos d) ltac:(lia)) as Hd.
      pose proof (Z.mod_pos_bound X (Z.pos d) ltac:(lia)) as Hm.
      fold fx in Hd. nia. }
    assert (B * Z.pos d' <= X') as HBX.
    { pose proof (Z.mul_div_le X' (Z.pos d') ltac:(lia)) as Hd.
      fold fx' in Hd. nia. }
    apply Z.le_trans with B.
    + rewrite EB. apply Z.mul_le_mono_nonneg_r; [lia|].
      rewrite <- (rne_div_exact (2 ^ (k' + 52 - k)) 1) by lia.
      apply rne_div_mono; [lia | lia |].
      replace (2 ^ (k' + 52 - k) * (Z.pos d * 2 ^ k)) with (B * Z.pos d)
        by (rewrite EB; ring).
      lia.
    + rewrite EB'. apply Z.mul_le_mono_nonneg_r; [lia|].
      rewrite <- (rne_div_exact (2 ^ 52) 1) at 1 by lia.
      apply rne_div_mono; [lia | lia |]. rewrite !Z.mul_1_r. nia.
Qed.

(** A value that is [c * 2^k] units, [k] being its own spacing exponent,
    is a double: rounding leaves it alone. *)
Lemma round53_fixed n d c :
  0 <= c ->
  let X := n * 2 ^ 1074 in
  let k := Z.max 0 (Z.log2 (X / Z.pos d) - 52) in
  X = c * 2 ^ k * Z.pos d ->
  round53 n d = c * 2 ^ k.
Proof.
  intros Hc X k HX. unfold round53. fold X k.
  assert (0 < 2 ^ k) as Hp by (apply Z.pow_pos_nonneg; lia).
  f_equal. rewrite HX.
  replace (c * 2 ^ k * Z.pos d) with (c * (Z.pos d * 2 ^ k)) by ring.
  apply rne_div_exact. nia.
Qed.

Lemma round53_0 d : round53 0 d = 0.
Proof.
  apply (round53_fixed 0 d 0); [done|]. cbn zeta. by rewrite !Z.mul_0_l.
Qed.

Lemma round53_nonneg n d : 0 <= n -> 0 <= round53 n d.
Proof.
  intros Hn. rewrite <- (round53_0 1). apply round53_mono; lia.
Qed.

(** Integers up to [2^53] are doubles. *)
Lemma round53_int m : 0 <= m <= 2 ^ 53 -> round53 m 1 = m * 2 ^ 1074.
Proof.
  intros [H0 H1]. destruct (Z.eq_dec m 0) as [->|Hn]; [apply round53_0|].
  assert (Z.log2 (m * 2 ^ 1074) = 1074 + Z.log2 m) as El
    by (apply Z.log2_mul_pow2; lia).
  pose proof (Z.log2_nonneg m) as Hl0.
  destruct (Z.eq_dec m (2 ^ 53)) as [->|Hn'].
  - rewrite (round53_fixed (2 ^ 53) 1 (2 ^ 52)); [|lia|];
      cbn zeta; rewrite Z.div_1_r, El, Z.log2_pow2 by lia;
      replace (Z.max 0 (1074 + 53 - 52)) with 1075 by lia.
    + rewrite <- !Z.pow_add_r by lia. done.
    + rewrite Z.mul_1_r, <- !Z.pow_add_r by lia. done.
  - assert (Z.log2 m < 53) as Hl by (apply Z.log2_lt_pow2; lia).
    rewrite (round53_fixed m 1 (m * 2 ^ (52 - Z.log2 m)));
      [| apply Z.mul_nonneg_nonneg; [lia | apply Z.pow_nonneg; lia] |];
      cbn zeta; rewrite Z.div_1_r, El;
      replace (Z.max 0 (1074 + Z.log2 m - 52)) with (1022 + Z.log2 m) by lia.
    + rewrite <- Z.mul_assoc, <- Z.pow_add_r by lia. do 2 f_equal. lia.
    + rewrite Z.mul_1_r, <- Z.mul_assoc, <- Z.pow_add_r by lia.
      do 2 f_equal. lia.
Qed.

(** Below the midpoint above [c * 2^k], rounding gives at most [c * 2^k]. *)
Lemma round53_below n d c k :
  0 <= n -> 0 <= k -> 2 ^ 52 <= c ->
  2 * (n * 2 ^ 1074) < (2 * c + 1) * 2 ^ k * Z.pos d ->
  Z.log2 (n * 2 ^ 1074 / Z.pos d) - 52 <= k ->
  round53 n d <= c * 2 ^ k.
Proof.
  intros Hn Hk Hc Hlt Hsp. unfold round53.
  set (U := 2 ^ 1074) in *. assert (0 < U) as HU by (by apply Z.pow_pos_nonneg).
  set (X := n * U) in *. assert (0 <= X) as HX by nia.
  set (fx := X / Z.pos d) in *.
  assert (0 <= fx) as Hf0 by (apply Z.div_pos; lia).
  set (k0 := Z.max 0 (Z.log2 fx - 52)).
  assert (k0 <= k) as Hk0 by lia.
  assert (0 < 2 ^ k) as Hp by (by apply Z.pow_pos_nonneg).
  assert (0 < 2 ^ k0) as Hp0 by (apply Z.pow_pos_nonneg; lia).
  destruct (Z.eq_dec k0 k) as [->|Hne].
  - apply Z.mul_le_mono_nonneg_r; [lia|].
    pose proof (rne_div_bounds X (Z.pos d * 2 ^ k) ltac:(nia)) as [Hl _].
    nia.
  - assert (fx < 2 ^ (k + 52)) as HfB.
    { pose proof (below_binade fx Hf0) as Hb. fold k0 in Hb.
      eapply Z.lt_le_trans; [exact Hb|]. apply Z.pow_le_mono_r; lia. }
    assert (2 ^ (k + 52) = 2 ^ (k + 52 - k0) * 2 ^ k0) as EB.
    { rewrite <- Z.pow_add_r by lia. f_equal. lia. }
    assert (2 ^ (k + 52) = 2 ^ 52 * 2 ^ k) as EB'
      by (rewrite <- Z.pow_add_r by lia; f_equal; lia).
    assert (X <= 2 ^ (k + 52) * Z.pos d) as HXB.
    { pose proof (Z.div_mod X (Z.pos d) ltac:(lia)) as Hd.
      pose proof (Z.mod_pos_bound X (Z.pos d) ltac:(lia)) as Hm.
      fold fx in Hd. nia. }
    apply Z.le_trans with (2 ^ (k + 52)); [|nia].
    rewrite EB at 1. apply Z.mul_le_mono_nonneg_r; [lia|].
    rewrite <- (rne_div_exact (2 ^ (k + 52 - k0)) 1) by lia.
    apply rne_div_mono; [nia | lia |].
    replace (2 ^ (k + 52 - k0) * (Z.pos d * 2 ^ k0))
      with (2 ^ (k + 52) * Z.pos d) by (rewrite EB; ring).
    lia.
Qed.

#[local] Close Scope Z_scope.

(** ** Doubles *)

Lemma units_pos_den : Z.pos (2 ^ 1074) = (2 ^ 1074)%Z.
Proof. by rewrite Pos2Z.inj_pow. Qed.

Lemma units_le m m' : (units m ≤ units m')%Qc ↔ (m ≤ m')%Z.
Proof.
  unfold units, Qcle. cbn [this Q2Qc]. rewrite !Qred_correct.
  unfold Qle. cbn [Qnum Qden].
  assert (0 < Z.pos (2 ^ 1074))%Z by lia. nia.
Qed.

Lemma units_opp m : units (- m) = (- units m)%Qc.
Proof.
  unfold units. apply Qc_is_canon. cbn [this Q2Qc Qcopp].
  rewrite !Qred_correct. reflexivity.
Qed.

Lemma units_0 : units 0 = 0%Qc.
Proof. apply Qc_is_canon. unfold units. cbn [this Q2Qc]. by rewrite Qred_correct. Qed.

Lemma units_whole z : units (z * 2 ^ 1074) = Q2Qc (inject_Z z).
Proof.
  unfold units. apply Qc_is_canon. cbn [this Q2Qc]. rewrite !Qred_correct.
  unfold Qeq, inject_Z. cbn [Qnum Qden]. rewrite units_pos_den. lia.
Qed.

Lemma Qc_sign (q : Qc) : (0 ≤ q)%Qc ↔ (0 ≤ Qnum q)%Z.
Proof.
  unfold Qcle, Qle. change (this 0%Qc) with (0 # 1)%Q. cbn [Qnum Qden]. lia.
Qed.

Lemma to_double_nonneg (q : Qc) :
  (0 ≤ q)%Qc ->
  to_double q
  = if (2 ^ 2098 <=? round53 (Qnum q) (Qden q))%Z then Infinite false
    else Finite (units (round53 (Qnum q) (Qden q))).
Proof.
  intros H. apply Qc_sign in H. unfold to_double.
  rewrite Z.abs_eq by done.
  destruct (Z.eq_dec (Qnum q) 0%Z) as [E|E].
  - rewrite E, round53_0. done.
  - replace (Qnum q <? 0)%Z with false by (symmetry; apply Z.ltb_ge; lia).
    rewrite Z.sgn_pos by lia. by rewrite Z.mul_1_l.
Qed.

Lemma to_double_opp (q : Qc) : to_double (- q) = dopp (to_double q).
Proof.
  assert (this (- q)%Qc = Qopp q) as E.
  { cbn [this Qcopp Q2Qc]. rewrite Qred_opp. f_equal. apply canon. }
  unfold to_double. rewrite E. cbn [Qnum Qden Qopp].
  rewrite Z.abs_opp, Z.sgn_opp.
  destruct (2 ^ 2098 <=? _)%Z eqn:Ho; cbn [dopp].
  - f_equal. destruct (Z.ltb_spec (- Qnum q) 0%Z), (Z.ltb_spec (Qnum q) 0%Z);
      try done; try lia.
    exfalso. assert (Qnum q = 0%Z) as E0 by lia.
    rewrite E0, round53_0 in Ho. done.
  - f_equal. rewrite Z.mul_opp_l. apply units_opp.
Qed.

Lemma dle_refl x : x ≠ NotANumber -> dle x x.
Proof. destruct x as [q|[]|]; try done. intros _. apply Qcle_refl. Qed.

(** Rounding to the nearest double is monotone. *)
Lemma to_double_mono_nonneg (x y : Qc) :
  (0 ≤ x)%Qc -> (x ≤ y)%Qc -> dle (to_double x) (to_double y).
Proof.
  intros H0 Hxy.
  assert (0 ≤ y)%Qc as H0' by (by apply Qcle_trans with x).
  rewrite !to_double_nonneg by done.
  assert (round53 (Qnum x) (Qden x) ≤ round53 (Qnum y) (Qden y))%Z as Hm.
  { apply round53_mono; [by apply Qc_sign|]. exact Hxy. }
  destruct (Z.leb_spec (2 ^ 2098) (round53 (Qnum x) (Qden x))),
           (Z.leb_spec (2 ^ 2098) (round53 (Qnum y) (Qden y)));
    try done; [lia|].
  by apply units_le.
Qed.

Lemma to_double_sign (x : Qc) :
  (0 ≤ x)%Qc -> dle (Finite 0) (to_double x).
Proof.
  intros H. rewrite to_double_nonneg by done.
  destruct (2 ^ 2098 <=? _)%Z; [done|]. cbn. rewrite <- units_0.
  apply units_le, round53_nonneg. by apply Qc_sign.
Qed.

Lemma dle_opp x y : dle x y -> dle (dopp y) (dopp x).
Proof.
  destruct x as [a|[]|], y as [b|[]|]; cbn; try done.
  intros H. by apply Qcopp_le_compat.
Qed.

Lemma dle_trans x y z : dle x y -> dle y z -> dle x z.
Proof.
  destruct x as [a|[]|], y as [b|[]|], z as [c|[]|]; cbn; try done.
  apply Qcle_trans.
Qed.

Lemma to_double_mono (x y : Qc) :
  (x ≤ y)%Qc -> dle (to_double x) (to_double y).
Proof.
  intros Hxy.
  destruct (Qclt_le_dec x 0) as [Hx|Hx]; [|by apply to_double_mono_nonneg].
  destruct (Qclt_le_dec y 0) as [Hy|Hy].
  - rewrite <- (Qcopp_involutive x), <- (Qcopp_involutive y).
    rewrite (to_double_opp (- x)), (to_double_opp (- y)).
    apply dle_opp, to_double_mono_nonneg.
    + apply Qclt_le_weak in Hy. apply Qcopp_le_compat in Hy. exact Hy.
    + by apply Qcopp_le_compat.
  - apply dle_trans with (Finite 0); [|by apply to_double_sign].
    rewrite <- (Qcopp_involutive x), (to_double_opp (- x)).
    change (Finite 0) with (dopp (Finite 0)).
    apply dle_opp, to_double_sign.
    apply Qclt_le_weak in Hx. apply Qcopp_le_compat in Hx. exact Hx.
Qed.

(** Closed facts about doubles, by evaluation. *)
Ltac by_evaluation :=
  match goal with |- ?P => apply (bool_decide_eq_true_1 P); vm_compute; reflexivity end.

Lemma Qred_int z : Qred (inject_Z z) = inject_Z z.
Proof. apply Qred_identity. cbn. apply Z.gcd_1_r. Qed.

(** Integers up to [2^53] in size are doubles. *)
Lemma to_double_whole z :
  (Z.abs z ≤ 2 ^ 53)%Z -> to_double (Q2Qc (inject_Z z)) = whole z.
Proof.
  intros Hz. unfold to_double, whole. cbn [this Q2Qc]. rewrite Qred_int.
  cbn [Qnum Qden inject_Z].
  rewrite round53_int by lia.
  assert (Z.abs z * 2 ^ 1074 < 2 ^ 2098)%Z as Hlt.
  { replace (2 ^ 2098)%Z with (2 ^ 1024 * 2 ^ 1074)%Z
      by (rewrite <- Z.pow_add_r by lia; done).
    apply Z.mul_lt_mono_pos_r; [by apply Z.pow_pos_nonneg|].
    eapply Z.le_lt_trans; [exact Hz|]. by apply Z.pow_lt_mono_r. }
  destruct (Z.leb_spec (2 ^ 2098) (Z.abs z * 2 ^ 1074)); [lia|].
  f_equal.
  replace (Z.sgn z * (Z.abs z * 2 ^ 1074))%Z with (z * 2 ^ 1074)%Z;
    [apply units_whole|].
  rewrite Z.mul_assoc. f_equal. destruct z; cbn; lia.
Qed.

(** Between two doubles there are only finite doubles. *)
Lemma to_double_between (lo hi x lo' hi' : Qc) :
  to_double lo = Finite lo' -> to_double hi = Finite hi' ->
  (lo ≤ x)%Qc -> (x ≤ hi)%Qc ->
  ∃ a, to_double x = Finite a ∧ (lo' ≤ a)%Qc ∧ (a ≤ hi')%Qc.
Proof.
  intros Hlo Hhi H1 H2.
  pose proof (to_double_mono lo x H1) as M1.
  pose proof (to_double_mono x hi H2) as M2.
  rewrite Hlo in M1. rewrite Hhi in M2.
  destruct (to_double x) as [a|[]|]; try done. by exists a.
Qed.

Lemma to_double_0 : to_double 0 = Finite 0%Qc.
Proof. apply (to_double_whole 0). cbn. lia. Qed.

Lemma to_double_nat n :
  (Z.of_nat n ≤ 2 ^ 53)%Z -> to_double (Qc_of_nat n) = Finite (Qc_of_nat n).
Proof. intros H. apply (to_double_whole (Z.of_nat n)). lia. Qed.

(** Below the midpoint over [c * 2^k] units, a non-negative rational is
    rounded to at most [c * 2^k] units. *)
Lemma to_double_below (y : Qc) (c k : Z) :
  (0 ≤ y)%Qc -> (0 ≤ k)%Z -> (2 ^ 52 ≤ c < 2 ^ 53)%Z ->
  (c * 2 ^ k < 2 ^ 2098)%Z ->
  (y < Q2Qc ((2 * c + 1) * 2 ^ k # 2 ^ 1075))%Qc ->
  ∃ m, to_double y = Finite (units m) ∧ (0 ≤ m ≤ c * 2 ^ k)%Z.
Proof.
  intros Hy Hk [Hc1 Hc2] Hfin Hlt.
  pose proof (proj1 (Qc_sign y) Hy) as Hn.
  assert (0 < 2 ^ k)%Z as Hp by (by apply Z.pow_pos_nonneg).
  assert (Z.pos (2 ^ 1075) = 2 * 2 ^ 1074)%Z as E75.
  { rewrite Pos2Z.inj_pow. by rewrite <- (Z.pow_succ_r 2 1074). }
  assert (0 < 2 ^ 1074)%Z as HU by (by apply Z.pow_pos_nonneg).
  assert (2 * (Qnum y * 2 ^ 1074) < (2 * c + 1) * 2 ^ k * Z.pos (Qden y))%Z
    as Hmid.
  { unfold Qclt in Hlt. cbn [this Q2Qc] in Hlt. rewrite Qred_correct in Hlt.
    unfold Qlt in Hlt. cbn [Qnum Qden] in Hlt. rewrite E75 in Hlt. lia. }
  assert (Z.log2 (Qnum y * 2 ^ 1074 / Z.pos (Qden y)) - 52 ≤ k)%Z as Hsp.
  { set (fx := (Qnum y * 2 ^ 1074 / Z.pos (Qden y))%Z).
    assert (0 ≤ fx)%Z as Hf0 by (apply Z.div_pos; nia).
    destruct (Z.eq_dec fx 0%Z) as [E0|Hne]; [rewrite E0; cbn; lia|].
    assert (fx < 2 ^ (k + 53))%Z as Hf; [|apply Z.log2_lt_pow2 in Hf; lia].
    rewrite Z.pow_add_r by lia.
    apply Z.div_lt_upper_bound; [lia|]. nia. }
  pose proof (round53_below (Qnum y) (Qden y) c k Hn Hk Hc1 Hmid Hsp) as Hle.
  pose proof (round53_nonneg (Qnum y) (Qden y) Hn) as H0.
  rewrite to_double_nonneg by done.
  destruct (Z.leb_spec (2 ^ 2098) (round53 (Qnum y) (Qden y))); [lia|].
  eexists. split; [done | lia].
Qed.

(** The integer nearest to a rational *)

Lemma Qfloor_ge (z : Z) (q : Q) : (z <= Qfloor q)%Z <-> (inject_Z z <= q)%Q.
Proof.
  split; intros H.
  - apply Qle_trans with (inject_Z (Qfloor q)); [by rewrite <- Zle_Qle|].
    apply Qfloor_le.
  - rewrite <- (Qfloor_Z z). by apply Qfloor_resp_le.
Qed.

Lemma round_half_up_Q (x : Qc) :
  round_half_up x = Qfloor (this x + (1 # 2))%Q.
Proof.
  unfold round_half_up. apply Qfloor_comp. cbn. by rewrite Qred_correct.
Qed.

(** [z < Math.round(x)] exactly when [z + 1/2 <= x]. *)
Lemma round_half_up_gt (z : Z) (x : Qc) :
  (z < round_half_up x)%Z <-> (inject_Z z + (1 # 2) <= this x)%Q.
Proof.
  rewrite round_half_up_Q, <- Z.le_succ_l, Qfloor_ge.
  unfold Z.succ. rewrite inject_Z_plus.
  split; intros H.
  - apply (Qplus_le_l _ _ (1 # 2)).
    eapply Qle_trans; [|exact H]. apply Qle_lteq. right. ring.
  - apply (Qplus_le_l _ _ (1 # 2)) in H.
    eapply Qle_trans; [|exact H]. apply Qle_lteq. right. ring.
Qed.

Lemma round_half_up_mono (x y : Qc) :
  (x ≤ y)%Qc -> (round_half_up x ≤ round_half_up y)%Z.
Proof.
  intros H. rewrite !round_half_up_Q. apply Qfloor_resp_le.
  by apply Qplus_le_l.
Qed.

Lemma round_half_up_Z (z : Z) : round_half_up (Q2Qc (inject_Z z)) = z.
Proof.
  rewrite round_half_up_Q.
  transitivity (Qfloor (inject_Z z + (1 # 2))).
  { apply Qfloor_comp, Qplus_comp; [apply Qred_correct | reflexivity]. }
  apply Z.le_antisymm.
  - apply Z.lt_succ_r, Z.nle_gt. intros H.
    apply Qfloor_ge in H.
    revert H. unfold Qle, Qplus, inject_Z, Z.succ. cbn. lia.
  - apply Qfloor_ge. unfold Qle, Qplus, inject_Z. cbn. lia.
Qed.

(** A percentage between 0 and 100 stays there when rounded. *)
Lemma round_half_up_percent (x y : Qc) :
  (0 ≤ x)%Qc -> (x ≤ y)%Qc -> (y ≤ Qc_of_nat 100)%Qc ->
  (0 ≤ round_half_up x ≤ round_half_up y)%Z ∧ (round_half_up y ≤ 100)%Z.
Proof.
  intros H0 Hxy H1. split; [split|].
  - rewrite <- (round_half_up_Z 0) at 1. by apply round_half_up_mono.
  - by apply round_half_up_mono.
  - rewrite <- (round_half_up_Z 100) at 1. by apply round_half_up_mono.
Qed.

(** ** The statistics *)

Lemma stress_total_numeric tl acc :
  Forall (λ en, stress en = VNum (score en)) tl ->
  foldl (λ a b, x ← a; y ← number_of (stress b); Some (dadd x (to_double y)))
        (Some acc) tl
  = Some (foldl (λ a q, dadd a (to_double q)) acc (score <$> tl)).
Proof.
  intros H. revert acc. induction H as [|en tl Hs _ IH]; intros acc; [done|].
  cbn [foldl fmap list_fmap]. rewrite Hs. cbn. apply IH.
Qed.

Lemma plain_numeric tl :
  Forall plain tl -> Forall (λ en, stress en = VNum (score en)) tl.
Proof. intros H. eapply Forall_impl; [exact H|]. by intros en (_ & ? & _). Qed.

Lemma bump_keys k counts :
  k ≠ "__proto__" ->
  (bump k counts).*1
  = if decide (k ∈ counts.*1) then counts.*1 else counts.*1 ++ [k].
Proof.
  intros Hp. induction counts as [|[k' n] rest IH]; cbn.
  - rewrite decide_False by apply not_elem_of_nil.
    rewrite bool_decide_false by done. by case_bool_decide.
  - case_bool_decide as Hk; cbn.
    + subst. rewrite decide_True; [done | left].
    + rewrite IH. destruct (decide (k ∈ rest.*1)) as [Hin|Hin].
      * rewrite decide_True; [done | by right].
      * rewrite decide_False; [done|].
        rewrite elem_of_cons. intros [-> | ?]; done.
Qed.

(** Fresh names only ever store numbers. *)
Lemma bump_times k counts :
  fresh_name k ->
  Forall (λ kv, is_times kv.2 = true) counts ->
  Forall (λ kv, is_times kv.2 = true) (bump k counts).
Proof.
  intros (_ & Hp & Hf) H. induction H as [|[k' c] rest Hc Hrest IH]; cbn.
  - rewrite !bool_decide_false by done. by repeat constructor.
  - case_bool_decide; constructor; try done. cbn in *. by destruct c.
Qed.

Lemma bump_count k' k counts :
  fresh_name k ->
  Forall (λ kv, is_times kv.2 = true) counts ->
  count_of k' (bump k counts)
  = count_of k' counts + (if decide (k = k') then 1 else 0).
Proof.
  intros (_ & Hp & Hf) H. induction H as [|[k0 c] rest Hc _ IH]; cbn.
  - rewrite !bool_decide_false by done. cbn.
    case_bool_decide; case_decide; done.
  - destruct c as [n|]; [|done].
    destruct (bool_decide (k0 = k)) eqn:Hk0; cbn.
    + apply bool_decide_eq_true in Hk0 as ->.
      case_bool_decide; case_decide; try done; lia.
    + apply bool_decide_eq_false in Hk0.
      case_bool_decide; [subst; rewrite decide_False; [lia | done]|].
      apply IH.
Qed.

Lemma count_of_elem k c counts :
  NoDup counts.*1 -> (k, c) ∈ counts -> count_of k counts = times c.
Proof.
  induction counts as [|[k0 c0] rest IH]; cbn; intros Hnd Hin.
  - by apply elem_of_nil in Hin.
  - apply NoDup_cons in Hnd as [Hk0 Hnd].
    apply elem_of_cons in Hin as [[= -> ->]|Hin].
    + by rewrite bool_decide_true.
    + rewrite bool_decide_false; [by apply IH|].
      intros ->. apply Hk0. apply list_elem_of_fmap. by exists (k, c).
Qed.

Lemma occurrences_snoc k ls x :
  occurrences k (ls ++ [x])
  = occurrences k ls + (if decide (x = k) then 1 else 0).
Proof.
  unfold occurrences. rewrite filter_app, length_app. f_equal.
  cbn. unfold filter. cbn. by case_decide.
Qed.

Lemma occurrences_pos k ls : k ∈ ls ↔ 0 < occurrences k ls.
Proof.
  unfold occurrences. split.
  - intros H. assert (k ∈ filter (λ x, x = k) ls) as Hf
      by (by apply list_elem_of_filter).
    destruct (filter _ ls); [by apply elem_of_nil in Hf | cbn; lia].
  - intros H. destruct (filter (λ x, x = k) ls) as [|y l] eqn:Hf; [cbn in H; lia|].
    assert (y ∈ filter (λ x, x = k) ls) as Hy by (rewrite Hf; left).
    apply list_elem_of_filter in Hy as [-> Hy]. done.
Qed.

(** The [counts] object after the fresh names [ls] have been tallied. *)
Lemma tally_spec ls :
  Forall fresh_name ls ->
  let counts := foldl (λ c k, bump k c) [] ls in
  NoDup counts.*1 ∧
  (∀ k, k ∈ counts.*1 ↔ k ∈ ls) ∧
  (∀ k, count_of k counts = occurrences k ls) ∧
  (∀ K1 k K2, counts.*1 = K1 ++ k :: K2 ->
     ∃ l1 l2, ls = l1 ++ k :: l2 ∧ ∀ x, x ∈ l1 -> x ∈ K1) ∧
  Forall (λ kv, is_times kv.2 = true) counts.
Proof.
  induction ls as [|x ls IH] using rev_ind; cbn zeta; intros Hfresh.
  - cbn. split; [constructor|]. split; [done|]. split; [done|].
    split; [|constructor]. intros K1 k K2 H. by destruct K1.
  - apply Forall_app in Hfresh as [Hfresh Hx].
    apply (proj1 (Forall_singleton _ _)) in Hx.
    rewrite foldl_app. cbn [foldl].
    set (counts := foldl (λ c k, bump k c) [] ls) in *.
    destruct (IH Hfresh) as (Hnd & Hkeys & Hcnt & Hord & Htimes).
    pose proof (bump_keys x counts (proj1 (proj2 Hx))) as Hb.
    split; [|split; [|split; [|split]]].
    + rewrite Hb. case_decide as Hx'; [done|].
      apply NoDup_app. split; [done|]. split.
      * intros y Hy Hy'. apply list_elem_of_singleton in Hy' as ->. done.
      * apply NoDup_singleton.
    + intros k. rewrite Hb, elem_of_app, list_elem_of_singleton, <- Hkeys.
      case_decide as Hx'.
      * split; [tauto | intros [?| ->]; done].
      * by rewrite elem_of_app, list_elem_of_singleton.
    + intros k. by rewrite bump_count, occurrences_snoc, Hcnt.
    + intros K1 k K2 HK. rewrite Hb in HK. case_decide as Hx'.
      * destruct (Hord K1 k K2 HK) as (l1 & l2 & -> & Hl1).
        exists l1, (l2 ++ [x]). split; [|done].
        by rewrite <- app_assoc.
      * destruct K2 as [|k2 K2 _] using rev_ind.
        -- apply app_inj_tail in HK as [<- <-].
           exists ls, []. split; [done|]. intros y. by rewrite Hkeys.
        -- rewrite app_comm_cons, app_assoc in HK.
           apply app_inj_tail in HK as [HK <-].
           destruct (Hord K1 k K2 HK) as (l1 & l2 & -> & Hl1).
           exists l1, (l2 ++ [x]). split; [|done].
           by rewrite <- app_assoc.
    + by apply bump_times.
Qed.

Lemma count_labels_strings tl :
  Forall (λ en, e en = VStr (label en)) tl ->
  count_labels tl = Some (foldl (λ c k, bump k c) [] (label <$> tl)).
Proof.
  unfold count_labels. generalize (@nil (string * Count)).
  intros c H. revert c. induction H as [|en tl He _ IH]; intros c.
  - done.
  - cbn [foldl fmap list_fmap]. rewrite He. cbn. apply IH.
Qed.

Lemma Object_entries_named {A} (counts : list (string * A)) :
  Forall (λ kv, array_index kv.1 = None) counts ->
  Object_entries counts = counts.
Proof.
  intros H. unfold Object_entries.
  assert (omap (λ kv : string * A, i ← array_index kv.1; Some (i, kv)) counts = [])
    as ->.
  { induction H as [|kv l Hkv _ IH]; [done|]. cbn. by rewrite Hkv. }
  cbn. induction H as [|kv l Hkv _ IH]; [done|].
  rewrite filter_cons_True by done. by f_equal.
Qed.

Lemma sort_by_cons {A} (cmp : A -> A -> Z) x l :
  sort_by cmp (x :: l) = insert_by cmp x (sort_by cmp l).
Proof. reflexivity. Qed.

Lemma sort_entries_times entries :
  Forall (λ kv, is_times kv.2 = true) entries ->
  sort_entries entries = Some (sort_by by_count_desc entries).
Proof.
  intros H. unfold sort_entries.
  assert (forallb (λ kv : string * Count, is_times kv.2) entries = true) as ->;
    [|done].
  apply forallb_forall. intros kv Hin%list_elem_of_In.
  rewrite Forall_forall in H. by apply H.
Qed.

(** The first element of the sorted entries is the first one, in the
    order of [Object.entries], whose count is the greatest. *)
Lemma sort_by_count_head (l : list (string * Count)) :
  Forall (λ kv, is_times kv.2 = true) l ->
  l ≠ [] ->
  ∃ c1 k n c2 rest,
    l = c1 ++ (k, n) :: c2 ∧
    sort_by by_count_desc l = (k, n) :: rest ∧
    Forall (λ y, times y.2 < times n) c1 ∧
    Forall (λ y, times y.2 ≤ times n) c2.
Proof.
  induction l as [|[k0 n0] l IH]; [done|]. intros Ht _.
  apply Forall_cons in Ht as [Ht0 Ht]. cbn in Ht0.
  destruct l as [|y l'].
  - exists [], k0, n0, [], []. cbn. repeat split; constructor.
  - destruct IH as (c1 & k & n & c2 & rest & Hl & Hs & H1 & H2); [done..|].
    assert (is_times n = true) as Htn.
    { rewrite Forall_forall in Ht. apply (Ht (k, n)).
      rewrite Hl, elem_of_app. right. left. }
    rewrite sort_by_cons, Hs. cbn [insert_by].
    unfold by_count_desc at 1. cbn [snd].
    destruct n0 as [n0|], n as [n|]; try done. cbn [times] in *.
    destruct (Z.leb_spec (Z.of_nat n - Z.of_nat n0) 0) as [Hle|Hgt].
    + exists [], k0, (Times n0), (y :: l'), ((k, Times n) :: rest).
      split; [done|]. split; [done|]. split; [constructor|].
      rewrite Hl. apply Forall_app. split; [|constructor].
      * eapply Forall_impl; [exact H1|]. cbn. lia.
      * cbn. lia.
      * eapply Forall_impl; [exact H2|]. cbn. lia.
    + exists ((k0, Times n0) :: c1), k, (Times n), c2,
        (insert_by by_count_desc (k0, Times n0) rest).
      split; [by rewrite Hl|]. split; [done|]. split; [|done].
      constructor; [cbn; lia | done].
Qed.

Lemma shown_nonempty k shown :
  k ≠ "" -> slice4 k ≫= toUpperCase = Some shown -> shown ≠ "".
Proof.
  destruct k as [|c k]; [done|]. intros _. unfold slice4, toUpperCase.
  destruct (ascii_text (String.substring 0 4 (String c k))); [|done].
  cbn [mbind option_bind]. cbn [String.substring].
  destruct (ascii_text _); [|done]. intros [= <-]. cbn. discriminate.
Qed.

(** * Properties of the session *)

(** ** C1: the channel closes without a stop *)

(** C1 (what the code does): [ws.onclose] never stops the camera track and
    never touches the timeline, whatever status its closure captured; with
    the closure of a [connect] built while the status was ["idle"] (always
    so unless [token] or [userId] changed later) it does not set the status
    either.  So a live session whose channel closes stays ["live"], with the
    camera stream still running ([stops] = 0), not released once. *)
Theorem close_leaves_status_and_camera :
  (∀ captured s,
     streamRef (refs (exec (onclose captured) s)) = streamRef (refs s) ∧
     Forall (λ c, c ≠ Call_track_stop) (calls (onclose captured) s) ∧
     timeline (hooks (exec (onclose captured) s)) = timeline (hooks s) ∧
     timelineRef (refs (exec (onclose captured) s)) = timelineRef (refs s)) ∧
  (∀ s, status (hooks (exec (onclose idle) s)) = status (hooks s)) ∧
  let s' := handle SocketClosed live_session in
  Live live_session ∧
  captured_status live_session = idle ∧
  socket_state s' = Some CLOSED ∧
  status (hooks s') = live ∧
  streamRef (refs s') = Some (mkMediaStream 0) ∧
  timeline (hooks s') = timeline (hooks live_session).
Proof.
  split; [|split].
  - intros c s. destruct (onclose_result c s) as (l & H & Hl).
    rewrite (exec_eq _ _ _ _ _ H), (calls_eq _ _ _ _ _ H).
    repeat split; try done; cbn; by case_bool_decide.
  - intros s. destruct (onclose_result idle s) as (l & H & _).
    by rewrite (exec_eq _ _ _ _ _ H).
  - vm_compute. repeat split.
Qed.

(** ** C2: malformed inbound messages *)

(** C2, as stated, fails: the empty JSON object, which lacks
    [face_detected], moves a live session to ["no_face"]. *)
Lemma empty_object_changes_status :
  status (hooks (exec (onmessage (Parsed (VObj ∅))) live_session))
  ≠ status (hooks live_session).
Proof. vm_compute. discriminate. Qed.

(** C2 (amended): text that is not JSON (and the JSON value [null]) is
    dropped and changes nothing.  A JSON object that is not a control frame
    and lacks [face_detected] is handled as a no-face message: [fps] becomes
    [data.fps || 0], [faceDetected] false and [status] ["no_face"]; the
    latest sample (emotion, distribution, confidence, stress score, mock
    flag), the timeline, every ref and the browser objects stay as they
    were. *)
Theorem malformed_message_effect (s : Store) (m : gmap string value) :
  is_control (VObj m) = false ->
  m !! "face_detected" = None ->
  (exec (onmessage NotJSON) s = s ∧ calls (onmessage NotJSON) s = []) ∧
  (exec (onmessage (Parsed VNull)) s = s) ∧
  let s' := exec (onmessage (Parsed (VObj m))) s in
  status (hooks s') = no_face ∧
  faceDetected (hooks s') = false ∧
  fps (hooks s') = js_or (field (VObj m) "fps") (num 0) ∧
  emotion (hooks s') = emotion (hooks s) ∧
  allEmotions (hooks s') = allEmotions (hooks s) ∧
  confidence (hooks s') = confidence (hooks s) ∧
  stressScore (hooks s') = stressScore (hooks s) ∧
  isMock (hooks s') = isMock (hooks s) ∧
  timeline (hooks s') = timeline (hooks s) ∧
  refs s' = refs s ∧ browser s' = browser s.
Proof.
  intros Hc Hface. split; [done|]. split; [done|].
  assert (truthy (field (VObj m) "face_detected") = false) as Hf.
  { unfold field; cbn [prop or_undefined]. by rewrite Hface. }
  cbn zeta.
  rewrite (exec_eq _ _ _ _ _
             (onmessage_no_face (VObj m) s ltac:(done) ltac:(done) Hc Hf)).
  repeat split.
Qed.

Lemma malformed_message_effect_witness :
  status (hooks (exec (onmessage (Parsed (VObj ∅))) live_session)) = no_face.
Proof.
  apply (malformed_message_effect live_session ∅); reflexivity.
Defined.

(** ** C3: the timeline keeps the last 300 entries *)

(** C3: whatever the events, [timelineRef] and [timeline] never hold more
    than 300 entries.  After any sequence of messages the timeline is the
    last 300 of the entries those messages appended, in order of arrival;
    so after 300 + k appends it has exactly 300 entries, the first k
    appended ones having been dropped. *)
Theorem history_keeps_last_300
    (msgs : list MessageEvent) (evs : list Event) (k : nat) :
  length (omap recorded msgs) = 300 + k ->
  let s' := deliver msgs initial in
  timelineRef (refs s') = drop k (omap recorded msgs) ∧
  length (timelineRef (refs s')) = 300 ∧
  timeline (hooks s') = timelineRef (refs s') ∧
  (∀ msgs0,
     timelineRef (refs (deliver msgs0 initial))
       = slice_last 300 (omap recorded msgs0) ∧
     length (timelineRef (refs (deliver msgs0 initial))) ≤ 300) ∧
  (∀ entries, foldl push_entry [] entries = slice_last 300 entries) ∧
  length (timelineRef (refs (run evs initial))) ≤ 300 ∧
  length (timeline (hooks (run evs initial))) ≤ 300.
Proof.
  intros Hk. cbn zeta.
  assert (∀ entries, foldl push_entry [] entries = slice_last 300 entries)
    as Hfold by (intros; rewrite foldl_push_entry; cbn; [done | lia]).
  assert (∀ msgs0, timelineRef (refs (deliver msgs0 initial))
                   = slice_last 300 (omap recorded msgs0)) as Hall.
  { intros msgs0. destruct (deliver_timeline msgs0 initial) as [-> _].
    apply Hfold. }
  split; [|split; [|split; [|split; [|split]]]].
  - rewrite Hall. unfold slice_last. rewrite Hk. f_equal. lia.
  - rewrite Hall, length_slice_last. lia.
  - by apply deliver_timeline.
  - intros msgs0. rewrite Hall, length_slice_last. split; [done | lia].
  - done.
  - apply run_timeline_bound; cbn; lia.
Qed.

Lemma history_keeps_last_300_witness :
  length (timelineRef (refs (deliver (replicate 302 (sample_msg true "calm" (1 # 5)))
                                     initial))) = 300.
Proof.
  refine (proj1 (proj2
            (history_keeps_last_300
               (replicate 302 (sample_msg true "calm" (1 # 5))) [] 2 _))).
  vm_compute. reflexivity.
Defined.

(** ** C4: STOP *)

(** What [disconnect] (the STOP button and the unmount cleanup) has done
    when it returns, from any store: it returns normally and leaves
    [status] at ["idle"]; the socket [wsRef] points to has been closed (it
    is CLOSING or CLOSED, never OPEN); the camera track of the stream in
    [streamRef] has been stopped; the animation frame recorded in
    [frameLoopRef] is cancelled, and animation frames that fire next draw,
    encode and request nothing; [timeline] and [timelineRef] are as
    before. *)
Lemma disconnect_releases (s : Store) (ids : list nat) :
  let s' := exec disconnect s in
  throws disconnect s = false ∧
  status (hooks s') = idle ∧
  ws_open s' = false ∧
  wsRef (refs s') = ws_close <$> wsRef (refs s) ∧
  streamRef (refs s')
    = (λ m, mkMediaStream (S (stops m))) <$> streamRef (refs s) ∧
  raf_queue (browser s')
    = match frameLoopRef (refs s) with
      | Some (S n) => filter (λ j, j ≠ S n) (raf_queue (browser s))
      | _ => raf_queue (browser s)
      end ∧
  Forall (λ j, j = 0 ∨ frameLoopRef (refs s) ≠ Some j) (raf_queue (browser s')) ∧
  (let s'' := run (AnimationFrame <$> ids) s' in
   toBlob_calls (browser s'') = toBlob_calls (browser s) ∧
   blobs_pending (browser s'') = blobs_pending (browser s) ∧
   raf_next (browser s'') = raf_next (browser s) ∧
   refs s'' = refs s' ∧ hooks s'' = hooks s') ∧
  timeline (hooks s') = timeline (hooks s) ∧
  timelineRef (refs s') = timelineRef (refs s).
Proof.
  destruct (disconnect_result s) as [l H]. cbn zeta.
  unfold throws. rewrite (exec_eq _ _ _ _ _ H), H. clear H.
  set (s' := with_hooks _ _).
  assert (ws_open s' = false) as Hopen.
  { unfold ws_open, s'. cbn. destruct (wsRef (refs s)) as [w|]; [|done]. cbn.
    destruct (ws_close_not_open w) as [-> | ->]; done. }
  split; [done|]. split; [done|]. split; [done|]. split; [done|].
  split; [done|]. split.
  { subst s'. cbn. by destruct (frameLoopRef (refs s)) as [[|n]|]. }
  split.
  { subst s'. cbn. destruct (frameLoopRef (refs s)) as [[|n]|] eqn:Hf; cbn.
    - apply Forall_forall. intros j _.
      destruct j; [by left | right; congruence].
    - apply Forall_forall. intros j Hj. right.
      apply list_elem_of_filter in Hj as [Hj _]. congruence.
    - apply Forall_forall. intros j _. by right. }
  split; [|done].
  destruct (frames_closed ids s' Hopen) as (Hh & Hr & Hn & Ht & Hb & _).
  cbn zeta in *. rewrite Ht, Hb, Hn, Hr, Hh. subst s'. cbn.
  by destruct (frameLoopRef (refs s)) as [[|n]|].
Qed.

(** C4 (what the code does): STOP does not call off a start that is still
    under way.  [disconnect] leaves the pending [getUserMedia] pending, and
    [connect], once the camera is granted, goes on without looking at the
    status: it stores the stream and creates the socket, and the socket's
    open event sets the status to ["live"] and starts the capture loop.  So
    START, STOP, camera granted, socket open ends live, with the camera
    running ([stops] = 0), a frame drawn and sent, and the next one
    requested.  And STOP while the socket is connecting closes it; when the
    browser then reports the failed connection, the status ends at
    ["error"], not ["idle"]. *)
Theorem stop_while_connecting :
  (∀ s, camera_wait (browser (exec disconnect s)) = camera_wait (browser s)) ∧
  (∀ captured s,
     let s' := exec (connect_resume captured (Granted true true)) s in
     streamRef (refs s') = Some (mkMediaStream 0) ∧
     socket_state s' = Some CONNECTING ∧
     hooks s' = hooks s) ∧
  (∀ s, status (hooks (exec onopen s)) = live) ∧
  (let stopped := run [ClickStart; ClickStop] initial in
   let resumed :=
     run [CameraSettled (Granted true true); SocketOpened; AnimationFrame 1;
          BlobReady (Some "/9j/4AAQ")] stopped in
   status (hooks stopped) = idle ∧
   camera_wait (browser stopped) = [idle] ∧
   status (hooks resumed) = live ∧
   socket_state resumed = Some OPEN ∧
   streamRef (refs resumed) = Some (mkMediaStream 0) ∧
   toBlob_calls (browser resumed) = 1 ∧
   sent_log resumed = [frame_msg "/9j/4AAQ"] ∧
   raf_queue (browser resumed) = [2]) ∧
  (let stopped := handle ClickStop connecting_session in
   let failed := handle SocketFailed stopped in
   socket_state connecting_session = Some CONNECTING ∧
   status (hooks stopped) = idle ∧
   socket_state stopped = Some CLOSING ∧
   status (hooks failed) = error ∧
   socket_state failed = Some CLOSED).
Proof.
  split; [|split; [|split; [|split]]].
  - intros s. destruct (disconnect_result s) as [l H].
    rewrite (exec_eq _ _ _ _ _ H). cbn.
    by destruct (frameLoopRef (refs s)) as [[|n]|].
  - intros c [h [[v|] cv w m f tr] b cc]; by vm_compute.
  - intros s. destruct (onopen_result s) as (s' & l & H & Hh & _).
    by rewrite (exec_eq _ _ _ _ _ H), Hh.
  - vm_compute. repeat split.
  - vm_compute. repeat split.
Qed.

(** ** C5: Live and NoSignal *)

(** C5, as stated, fails: the first cell a classification message writes is
    the rate metric [fps]; the face flag and the status come second and
    third. *)
Lemma rate_metric_written_before_flag :
  take 3 (calls (onmessage (sample_msg true "calm" (1 # 5))) opened_session)
  = [Set_fps (num 0); Set_faceDetected true; Set_status live] ∧
  is_flag_write (Set_fps (num 0)) = false.
Proof. vm_compute. split; reflexivity. Qed.

(** C5 (amended): ["live"] and ["no_face"] exclude each other.  From the
    moment the socket opens, and for as long as only messages, animation
    frames, encoder callbacks, resets and prop changes occur, the socket is
    open and the status is one of the two.  A message that is not a control
    frame selects between them by its flag alone (truthy [face_detected]:
    ["live"], otherwise ["no_face"]).  The handler writes [fps] first, then
    [faceDetected] and [status], and only then the classification cells
    (emotion, distribution, confidence, stress score, mock flag, timeline):
    the flag precedes every derived cell except the rate metric. *)
Theorem live_nosignal_by_flag
    (s : Store) (evs : list Event) (s0 : Store) (data : value) :
  socket_state s = Some CONNECTING ->
  Forall (λ ev, in_session ev = true) evs ->
  data ≠ VNull -> data ≠ VUndefined -> is_control data = false ->
  let s1 := run evs (handle SocketOpened s) in
  let s2 := exec (onmessage (Parsed data)) s0 in
  let flag := truthy (field data "face_detected") in
  (ws_open s1 = true ∧ (Live s1 ∨ NoSignal s1)) ∧
  (Live s0 -> NoSignal s0 -> False) ∧
  status (hooks s2) = (if flag then live else no_face) ∧
  faceDetected (hooks s2) = flag ∧
  ∃ rest,
    calls (onmessage (Parsed data)) s0
      = Set_fps (js_or (field data "fps") (num 0))
        :: Set_faceDetected flag
        :: Set_status (if flag then live else no_face) :: rest ∧
    Forall (λ c, is_flag_write c = false ∧ is_rate_write c = false) rest.
Proof.
  intros Hc Hevs Hn Hu Hctl. cbn zeta. split; [|split; [|split; [|split]]].
  - destruct (handle_opened s Hc) as (Hs & Ho & _).
    apply in_session_run; [done | by apply ws_open_socket_state | by left].
  - unfold Live, NoSignal. congruence.
  - apply (onmessage_status data s0 Hn Hu Hctl).
  - apply (onmessage_status data s0 Hn Hu Hctl).
  - destruct (truthy (field data "face_detected")) eqn:Hf.
    + destruct (truthy (field data "emotion")) eqn:He.
      * rewrite (calls_eq _ _ _ _ _ (onmessage_sample data s0 Hctl Hf He)).
        eexists. split; [reflexivity|]. repeat constructor.
      * rewrite (calls_eq _ _ _ _ _ (onmessage_face_only data s0 Hctl Hf He)).
        exists []. split; [done|constructor].
    + rewrite (calls_eq _ _ _ _ _ (onmessage_no_face data s0 Hn Hu Hctl Hf)).
      exists []. split; [done|constructor].
Qed.

Lemma live_nosignal_by_flag_witness :
  status (hooks (exec (onmessage (Parsed (VObj {[ "face_detected" := VBool false ]})))
                      live_session)) = no_face.
Proof.
  refine (proj1 (proj2 (proj2
            (live_nosignal_by_flag connecting_session
               [SocketMessage (sample_msg true "calm" (1 # 5)); AnimationFrame 1;
                BlobReady (Some "AAAA"); ClickReset]
               live_session (VObj {[ "face_detected" := VBool false ]})
               _ _ _ _ _))));
    [reflexivity | repeat constructor | done | done | reflexivity].
Defined.

(** ** C6: the channel opens *)

(** C6, as stated, fails: once the socket has opened, and before any
    message has come in, the status is no longer ["connecting"]. *)
Lemma opened_session_not_connecting :
  status (hooks connecting_session) = connecting ∧
  status (hooks opened_session) ≠ connecting.
Proof. vm_compute. split; [reflexivity | discriminate]. Qed.

(** C6 (amended): when the socket opens the status is set to ["live"] at
    once, before any message has come in; [faceDetected] and the timeline
    are left as they were, and the first frame of the capture loop is
    requested (when the canvas and the video element are mounted).  From
    then on every message that is not a control frame sets the status by
    its flag: ["live"] when [face_detected] is truthy, ["no_face"]
    otherwise. *)
Theorem open_sets_live (s : Store) (data : value) :
  socket_state s = Some CONNECTING ->
  data ≠ VNull -> data ≠ VUndefined -> is_control data = false ->
  let s1 := handle SocketOpened s in
  status (hooks s1) = live ∧
  socket_state s1 = Some OPEN ∧
  faceDetected (hooks s1) = faceDetected (hooks s) ∧
  timeline (hooks s1) = timeline (hooks s) ∧
  raf_queue (browser s1)
    = (if canvasRef (refs s) && bool_decide (is_Some (videoRef (refs s)))
       then raf_queue (browser s) ++ [raf_next (browser s)]
       else raf_queue (browser s)) ∧
  status (hooks (handle (SocketMessage (Parsed data)) s1))
    = (if truthy (field data "face_detected") then live else no_face).
Proof.
  intros Hc Hn Hu Hctl.
  destruct (handle_opened s Hc) as (Hs & Ho & Hf & Ht & _ & Hq). cbn zeta in *.
  set (s1 := handle SocketOpened s) in *.
  do 5 (split; [done|]).
  cbn [handle]. rewrite Ho.
  apply (onmessage_status data _ Hn Hu Hctl).
Qed.

Lemma open_sets_live_witness :
  status (hooks (handle SocketOpened connecting_session)) = live.
Proof.
  apply (open_sets_live connecting_session (VObj ∅)); done.
Defined.

(** ** C7: ticks while the channel is not open *)

(** C7: a run of the [capture] callback that finds no socket, or a socket
    whose [readyState] is not OPEN, returns at once: it makes no call at
    all, and over any number of such animation frames nothing is drawn or
    encoded ([toBlob_calls]), nothing is sent (the socket and every other
    ref are untouched), no encoder callback is left pending
    ([blobs_pending]) and no further frame is requested ([raf_next]). *)
Theorem closed_channel_tick_skipped (s : Store) (ids : list nat) :
  ws_open s = false ->
  capture s = (Some (), s, []) ∧
  let s' := run (AnimationFrame <$> ids) s in
  toBlob_calls (browser s') = toBlob_calls (browser s) ∧
  blobs_pending (browser s') = blobs_pending (browser s) ∧
  raf_next (browser s') = raf_next (browser s) ∧
  wsRef (refs s') = wsRef (refs s) ∧
  refs s' = refs s ∧ hooks s' = hooks s.
Proof.
  intros H. split; [by apply capture_closed|].
  destruct (frames_closed ids s H) as (Hh & Hr & Hn & Ht & Hb & _).
  cbn zeta in *. by rewrite Hr.
Qed.

Lemma closed_channel_tick_skipped_witness :
  raf_queue (browser closing_session) = [1] ∧
  toBlob_calls (browser (run (AnimationFrame <$> [1; 2; 3; 4; 5])
                             closing_session)) = 0.
Proof.
  split; [reflexivity|].
  apply (closed_channel_tick_skipped closing_session [1; 2; 3; 4; 5]).
  reflexivity.
Defined.

(** ** C8: the reset button *)

(** C8: while the status is ["live"] or ["no_face"] and the socket is open
    (as Live and NoSignal require), a click on RESET empties [timelineRef]
    and [timeline], keeps the status, keeps the socket open and the camera
    stream, the video element, the capture loop and the browser objects as
    they were, and sends exactly one message, [{ "type": "reset" }]. *)
Theorem reset_clears_history (s : Store) (w : WebSocket) :
  Live s ∨ NoSignal s ->
  wsRef (refs s) = Some w ->
  readyState w = OPEN ->
  let s' := handle ClickReset s in
  throws reset_click s = false ∧
  timeline (hooks s') = [] ∧
  timelineRef (refs s') = [] ∧
  length (timeline (hooks s')) = 0 ∧
  status (hooks s') = status (hooks s) ∧
  (Live s' ∨ NoSignal s') ∧
  wsRef (refs s')
    = Some (mkWebSocket OPEN (sent w ++ [reset_msg]) (closure_status w)) ∧
  reset_msg = VObj {[ "type" := VStr "reset" ]} ∧
  ws_open s' = true ∧
  streamRef (refs s') = streamRef (refs s) ∧
  videoRef (refs s') = videoRef (refs s) ∧
  frameLoopRef (refs s') = frameLoopRef (refs s) ∧
  browser s' = browser s ∧
  calls reset_click s
    = [Call_send reset_msg; Assign_timelineRef []; Set_timeline []].
Proof.
  intros Hst Hw Ho. pose proof (reset_open s w Hw Ho) as H.
  cbn [handle]. rewrite bool_decide_true
    by (unfold Live, NoSignal in Hst; destruct Hst as [-> | ->]; done).
  cbn zeta. unfold throws. rewrite (exec_eq _ _ _ _ _ H), (calls_eq _ _ _ _ _ H), H.
  repeat split; try done.
Qed.

Lemma reset_clears_history_witness :
  timelineRef (refs (handle ClickReset live_session)) = [].
Proof.
  eapply (reset_clears_history live_session);
    [left; reflexivity | reflexivity | reflexivity].
Defined.

(** ** C9: the session statistics *)

(** C9, as stated, fails.  For the one-entry timeline
    [{ e: "stressed", stress: 0.004 }] the mean is 1/250, but the figure
    computed for it is 0 (a whole percentage), and the label computed is
    ["STRE"], not ["stressed"].  And the figure is computed in doubles:
    for the stress scores 0.57 and 0.58 the mean is 0.575 and its whole
    percentage is 58, but the code adds to 1.15, halves to
    0.57499999999999996 and shows 57. *)
Lemma stats_are_rounded_and_cut :
  let tl := [ent "stressed" (1 # 250)] in
  let tl' := [ent "calm" (57 # 100); ent "calm" (58 # 100)] in
  this (mean (score <$> tl)) = (1 # 250)%Q ∧
  avg_stress tl = Some (whole 0) ∧
  label <$> tl = ["stressed"] ∧
  top_state tl = Some (Shown "STRE") ∧
  frames tl = 1 ∧
  round_half_up (mean (score <$> tl') * Qc_of_nat 100) = 58%Z ∧
  avg_stress tl' = Some (whole 57).
Proof.
  cbn zeta. split; [by vm_compute|]. split; [by_evaluation|].
  split; [done|]. split; [by vm_compute|]. split; [done|].
  split; [by vm_compute | by_evaluation].
Qed.

(** Labels that are array indices come first in [Object.entries], so among
    equally frequent labels they win even when they were met later. *)
Example index_label_wins_tie :
  top_state [ent "calm" 0; ent "7" 0] = Some (Shown "7").
Proof. by vm_compute. Qed.

(** A label that names a function every object inherits is not counted:
    its property is a string, and [sort] takes it for equal to any other. *)
Example inherited_label_is_not_counted :
  top_state [ent "calm" 0; ent "constructor" 0; ent "constructor" 0]
  = Some (Shown "CALM").
Proof. by vm_compute. Qed.

(** C9 (amended): for a non-empty timeline of plain entries, AVG STRESS is
    [Math.round] of the percentage computed in doubles: the stress scores
    added in the order of the buffer, the sum divided by the length, the
    quotient multiplied by 100.  FRAMES is the length.  TOP STATE is the
    first four characters, in upper case, of the most frequent label, the
    one met first winning among equally frequent ones.  All three are
    functions of the timeline alone. *)
Theorem session_stats_spec (tl : list Entry) :
  0 < length tl ->
  Forall plain tl ->
  let ls := label <$> tl in
  avg_stress tl = Some (Math_round (double_percentage (score <$> tl))) ∧
  frames tl = length tl ∧
  ∃ k shown,
    slice4 k ≫= toUpperCase = Some shown ∧
    top_state tl = Some (Shown shown) ∧
    k ∈ ls ∧
    (∀ k', occurrences k' ls ≤ occurrences k ls) ∧
    (∀ k', k' ≠ k -> occurrences k' ls = occurrences k ls ->
       ∃ l1 l2, ls = l1 ++ k :: l2 ∧ k' ∉ l1).
Proof.
  intros Hlen Hplain. cbn zeta. split; [|split; [done|]].
  { unfold avg_stress, stress_total, double_percentage, double_sum.
    rewrite (stress_total_numeric tl _ (plain_numeric tl Hplain)).
    cbn. by rewrite length_fmap. }
  set (ls := label <$> tl).
  assert (∀ k, k ∈ ls ->
            k ≠ "" ∧ fresh_name k ∧ is_Some (slice4 k ≫= toUpperCase)) as Hls.
  { intros k Hk. apply list_elem_of_fmap in Hk as (en & -> & Hen).
    rewrite Forall_forall in Hplain. destruct (Hplain en Hen) as (_ & _ & ? & ? & ?).
    done. }
  assert (Forall fresh_name ls) as Hfresh.
  { apply Forall_forall. intros k Hk. by apply Hls. }
  destruct (tally_spec ls Hfresh) as (Hnd & Hkeys & Hcnt & Hord & Htimes).
  cbn zeta in *.
  set (counts := foldl (λ c k, bump k c) [] ls) in *.
  assert (counts ≠ []) as Hne.
  { destruct tl as [|en tl']; [cbn in Hlen; lia|].
    assert (label en ∈ counts.*1) as Hin by (apply Hkeys; left).
    intros E. rewrite E in Hin. by apply elem_of_nil in Hin. }
  assert (Object_entries counts = counts) as Hent.
  { apply Object_entries_named, Forall_forall. intros [k n] Hkn.
    apply Hls, Hkeys, list_elem_of_fmap. by exists (k, n). }
  destruct (sort_by_count_head counts Htimes Hne)
    as (c1 & k & n & c2 & rest & Hc & Hs & H1 & H2).
  assert (∀ k' n', (k', n') ∈ counts -> times n' = occurrences k' ls) as Hocc.
  { intros k' n' Hin. rewrite <- Hcnt. symmetry. by apply count_of_elem. }
  assert ((k, n) ∈ counts) as Hkn by (rewrite Hc, elem_of_app; right; left).
  assert (k ∈ ls) as Hk by (apply Hkeys, list_elem_of_fmap; by exists (k, n)).
  destruct (Hls k Hk) as (Hk0 & _ & [shown Hshown]).
  exists k, shown. split; [done|]. split; [|split; [done|split]].
  - unfold top_state.
    rewrite (count_labels_strings tl)
      by (eapply Forall_impl; [exact Hplain|]; by intros en (? & _)).
    fold ls counts. cbn [mbind option_bind].
    rewrite Hent, (sort_entries_times counts Htimes), Hs, Hshown.
    rewrite bool_decide_false; [done|]. by apply (shown_nonempty k).
  - intros k'. destruct (decide (k' ∈ ls)) as [Hk'|Hk'].
    + apply Hkeys, list_elem_of_fmap in Hk' as ([k0 n'] & -> & Hin). cbn.
      rewrite <- (Hocc _ _ Hin), <- (Hocc _ _ Hkn).
      rewrite Hc in Hin. apply elem_of_app in Hin as [Hin|Hin].
      * rewrite Forall_forall in H1. specialize (H1 _ Hin). cbn in H1. lia.
      * apply elem_of_cons in Hin as [[= _ ->]|Hin]; [lia|].
        rewrite Forall_forall in H2. apply (H2 _ Hin).
    + assert (occurrences k' ls = 0); [|lia].
      destruct (occurrences k' ls) eqn:E; [done|].
      exfalso. apply Hk', occurrences_pos. lia.
  - intros k' Hneq Htie.
    destruct (Hord (c1.*1) k (c2.*1)) as (l1 & l2 & Hl & Hl1).
    { by rewrite Hc, fmap_app. }
    exists l1, l2. split; [done|]. intros Hin.
    apply Hl1, list_elem_of_fmap in Hin as ([k0 n'] & -> & Hin). cbn in *.
    assert ((k0, n') ∈ counts) as Hin' by (rewrite Hc, elem_of_app; by left).
    rewrite Forall_forall in H1. specialize (H1 _ Hin). cbn in H1.
    rewrite (Hocc _ _ Hin'), (Hocc _ _ Hkn) in H1. lia.
Qed.

Lemma session_stats_spec_witness :
  avg_stress [ent "calm" (1 # 5); ent "stressed" (4 # 5); ent "stressed" (1 # 2)]
  = Some (Math_round (double_percentage (Q2Qc <$> [1 # 5; 4 # 5; 1 # 2]))).
Proof.
  refine (proj1 (session_stats_spec
                   [ent "calm" (1 # 5); ent "stressed" (4 # 5);
                    ent "stressed" (1 # 2)] _ _)).
  - cbn. lia.
  - repeat (apply Forall_cons; split); try (by constructor);
      (split; [reflexivity | split; [reflexivity | split; [discriminate |
        split; by_evaluation]]]).
Defined.

(** ** C10: a face without an emotion label *)

(** C10: a message with a truthy [face_detected] whose [emotion] is absent
    or [null] sets the status to ["live"] and updates [fps]; it appends
    nothing to the timeline and leaves emotion, distribution, confidence
    and stress score alone.  Whenever the handler does assign the timeline,
    the message carried a truthy (so neither absent nor null) [emotion]. *)
Theorem face_without_emotion (s : Store) (data : value) :
  is_control data = false ->
  truthy (field data "face_detected") = true ->
  field data "emotion" = VUndefined ∨ field data "emotion" = VNull ->
  let s' := exec (onmessage (Parsed data)) s in
  status (hooks s') = live ∧
  fps (hooks s') = js_or (field data "fps") (num 0) ∧
  timeline (hooks s') = timeline (hooks s) ∧
  timelineRef (refs s') = timelineRef (refs s) ∧
  emotion (hooks s') = emotion (hooks s) ∧
  allEmotions (hooks s') = allEmotions (hooks s) ∧
  confidence (hooks s') = confidence (hooks s) ∧
  stressScore (hooks s') = stressScore (hooks s) ∧
  ∀ (event : MessageEvent) (s0 : Store) (x : list Entry),
    Assign_timelineRef x ∈ calls (onmessage event) s0 ->
    ∃ d, event = Parsed d ∧ truthy (field d "emotion") = true ∧
         field d "emotion" ≠ VNull ∧ field d "emotion" ≠ VUndefined ∧
         x = push_entry (timelineRef (refs s0)) (entry_of d).
Proof.
  intros Hc Hf He.
  assert (truthy (field data "emotion") = false) as He'
    by (destruct He as [-> | ->]; reflexivity).
  cbn zeta. rewrite (exec_eq _ _ _ _ _ (onmessage_face_only data s Hc Hf He')).
  do 8 (split; [reflexivity|]).
  intros event s0 x Hx.
  destruct (onmessage_cases event s0)
    as [[_ H]|(d & -> & _ & _ & _ &
               [(_ & _ & H)|[(_ & _ & _ & H)|(_ & Hem & _ & H)]])];
    rewrite (calls_eq _ _ _ _ _ H) in Hx.
  - by apply not_elem_of_nil in Hx.
  - unfold flag_calls in Hx. rewrite !elem_of_cons, elem_of_nil in Hx.
    decompose [or] Hx; done.
  - unfold flag_calls in Hx. rewrite !elem_of_cons, elem_of_nil in Hx.
    decompose [or] Hx; done.
  - exists d. split; [done|]. split; [done|].
    split; [intros E; by rewrite E in Hem|].
    split; [intros E; by rewrite E in Hem|].
    unfold flag_calls, sample_calls in Hx. cbn [app] in Hx.
    rewrite !elem_of_cons, elem_of_nil in Hx.
    decompose [or] Hx; try done. congruence.
Qed.

Lemma face_without_emotion_witness :
  timeline (hooks (exec (onmessage (Parsed (VObj {[ "face_detected" := VBool true ]})))
                        live_session))
  = timeline (hooks live_session).
Proof.
  apply (face_without_emotion live_session
           (VObj {[ "face_detected" := VBool true ]}));
    [reflexivity | reflexivity | left; reflexivity].
Defined.

(** * Further properties *)

(** ** The message handler *)

(** X1: a control frame ([type] ["keepalive"] or ["pong"]) is ignored
    whatever else it carries: the store is left as it was and no call is
    made, not even [setFps]. *)
Theorem control_frame_ignored (data : value) (s : Store) :
  is_control data = true ->
  exec (onmessage (Parsed data)) s = s ∧
  calls (onmessage (Parsed data)) s = [] ∧
  recorded (Parsed data) = None.
Proof.
  intros H. rewrite (exec_eq _ _ _ _ _ (onmessage_control data s H)),
    (calls_eq _ _ _ _ _ (onmessage_control data s H)).
  do 2 (split; [done|]).
  destruct data; try done; cbn [recorded]; by rewrite H.
Qed.

Lemma control_frame_ignored_witness :
  exec (onmessage (Parsed (VObj (<["type" := VStr "pong"]>
                                (<["face_detected" := VBool false]> ∅)))))
       live_session = live_session.
Proof.
  apply (control_frame_ignored
           (VObj (<["type" := VStr "pong"]> (<["face_detected" := VBool false]> ∅)))
           live_session).
  reflexivity.
Defined.

Lemma last_push_entry cur x : last (push_entry cur x) = Some x.
Proof. unfold push_entry. by rewrite last_snoc. Qed.

(** X2: after a message with a truthy [face_detected] and a truthy
    [emotion], the latest-sample cells and the newest timeline entry agree:
    [emotion] is the entry's label, [stressScore] its stress (the message's
    [stress_score], or 0 when that is missing), the entry's time is the
    message's [timestamp]; confidence and mock flag default to 0 and
    [false]; and the timeline state is the ref's content. *)
Theorem sample_updates_latest_and_history (data : value) (s : Store) :
  is_control data = false ->
  truthy (field data "face_detected") = true ->
  truthy (field data "emotion") = true ->
  let s' := exec (onmessage (Parsed data)) s in
  ∃ en,
    last (timeline (hooks s')) = Some en ∧
    timeline (hooks s') = timelineRef (refs s') ∧
    emotion (hooks s') = e en ∧ e en = field data "emotion" ∧
    stressScore (hooks s') = stress en ∧
    stress en = js_or (field data "stress_score") (num 0) ∧
    t en = field data "timestamp" ∧
    allEmotions (hooks s') = field data "all_emotions" ∧
    confidence (hooks s') = js_or (field data "confidence") (num 0) ∧
    isMock (hooks s') = js_or (field data "mock") (VBool false) ∧
    status (hooks s') = live ∧ faceDetected (hooks s') = true.
Proof.
  intros Hc Hf He. cbn zeta.
  rewrite (exec_eq _ _ _ _ _ (onmessage_sample data s Hc Hf He)).
  exists (entry_of data). cbn. rewrite last_push_entry. repeat split.
Qed.

Lemma sample_updates_latest_and_history_witness :
  ∃ en, last (timeline (hooks live_session)) = Some en ∧
        emotion (hooks live_session) = e en.
Proof.
  destruct (sample_updates_latest_and_history
              (VObj (<["face_detected" := VBool true]>
                    (<["emotion" := VStr "calm"]>
                    (<["stress_score" := num (1 # 5)]> ∅))))
              opened_session) as (en & H1 & _ & H2 & _);
    [reflexivity | reflexivity | reflexivity |].
  exists en. split; [exact H1 | exact H2].
Defined.

(** X3: the parent's [onEmotionUpdate] is called once, with the message as
    parsed, for a message that is recorded in the timeline, and not at all
    for any other (text that is not JSON, control frames, no-face messages,
    messages without an emotion label). *)
Theorem parent_notified_iff_recorded (event : MessageEvent) (s : Store) :
  parent_updates (calls (onmessage event) s)
  = match recorded event with
    | Some _ => match event with Parsed data => [data] | NotJSON => [] end
    | None => []
    end.
Proof.
  destruct (onmessage_cases event s)
    as [[Hr H]|(d & -> & _ & _ & _ &
               [(_ & Hr & H)|[(_ & _ & Hr & H)|(_ & _ & Hr & H)]])];
    by rewrite (calls_eq _ _ _ _ _ H), Hr.
Qed.

(** ** Every handler as one store update *)

Lemma exec_connect_begin s :
  exec connect_begin s
  = with_browser
      (λ b, with_camera_wait (camera_wait b ++ [connect_closure s]) b)
      (with_hooks (with_status connecting) s).
Proof. reflexivity. Qed.

Lemma exec_connect_resume captured r s :
  exec (connect_resume captured r) s
  = match r with
    | Denied => with_hooks (with_status error) s
    | Granted play_ok ws_ok =>
        let s1 :=
          with_refs
            (λ rf, with_videoRef ((λ _, mkVideo true) <$> videoRef rf)
                     (with_streamRef (Some (mkMediaStream 0)) rf)) s in
        if bool_decide (is_Some (videoRef (refs s))) && negb play_ok
        then with_hooks (with_status error) s1
        else if negb ws_ok then with_hooks (with_status error) s1
        else with_refs (with_wsRef (Some (mkWebSocket CONNECTING [] captured))) s1
    end.
Proof.
  unfold_handlers. destruct r as [|[] []]; [done|..];
    destruct s as [h [[v|] c w m f tr] b cc]; reflexivity.
Qed.

Lemma exec_onopen s :
  exec onopen s
  = (if canvasRef (refs s) && bool_decide (is_Some (videoRef (refs s)))
     then request_frame (with_hooks (with_status live) s)
     else with_hooks (with_status live) s).
Proof.
  unfold_handlers. destruct s as [h [[v|] [] w m f tr] b cc]; reflexivity.
Qed.

Lemma exec_onerror s : exec onerror s = with_hooks (with_status error) s.
Proof. reflexivity. Qed.

Lemma exec_onclose captured s :
  exec (onclose captured) s
  = with_hooks (λ h, if bool_decide (captured ≠ idle)
                     then with_status idle h else h)
      (with_browser (cancel_loop s) s).
Proof.
  destruct (onclose_result captured s) as (l & H & _).
  by rewrite (exec_eq _ _ _ _ _ H).
Qed.

Lemma exec_capture s :
  exec capture s
  = (if ws_open s then request_frame (with_browser count_frame s) else s).
Proof. unfold_handlers. destruct (ws_open s); reflexivity. Qed.

Lemma exec_blob_callback blob s :
  exec (blob_callback blob) s
  = match blob, wsRef (refs s) with
    | Some b64, Some w =>
        if bool_decide (readyState w = OPEN)
        then with_refs (with_wsRef (Some (after_send (frame_msg b64) w))) s
        else s
    | _, _ => s
    end.
Proof.
  unfold_handlers. destruct blob as [b64|]; [|done].
  destruct (wsRef (refs s)) as [w|]; [|done].
  case_bool_decide as Ho; [|done]. by rewrite Ho.
Qed.

Lemma exec_reset_click s :
  exec reset_click s
  = match wsRef (refs s) with
    | Some w =>
        match readyState w with
        | CONNECTING => s
        | OPEN => cleared (with_refs (with_wsRef (Some (after_send reset_msg w))) s)
        | CLOSING | CLOSED => cleared s
        end
    | None => cleared s
    end.
Proof.
  unfold_handlers. destruct (wsRef (refs s)) as [w|]; [|done].
  by destruct (readyState w).
Qed.

Lemma exec_disconnect s :
  exec disconnect s
  = with_hooks (λ h, with_allEmotions VNull
                       (with_emotion VNull (with_status idle h)))
      (with_refs
         (λ r, with_videoRef ((λ _, mkVideo false) <$> videoRef r)
                 (with_streamRef
                    ((λ m, mkMediaStream (S (stops m))) <$> streamRef r)
                    (with_wsRef (ws_close <$> wsRef r) r)))
         (with_browser (cancel_loop s) s)).
Proof.
  destruct (disconnect_result s) as (l & H).
  by rewrite (exec_eq _ _ _ _ _ H).
Qed.

(** Turn [handle ev s] into an explicit store, one case per branch. *)
Ltac step_event :=
  cbn [handle]; unfold socket_state, captured_status, set_readyState;
  repeat case_match; subst;
  rewrite ?exec_connect_begin, ?exec_connect_resume, ?exec_onclose,
    ?exec_onerror, ?exec_onopen, ?exec_capture, ?exec_blob_callback,
    ?exec_reset_click, ?exec_disconnect;
  cbn [hooks refs browser connect_closure with_hooks with_refs with_browser
       with_connect_closure cleared request_frame count_frame cancel_loop].

(** Events other than messages leave [faceDetected] alone and never set the
    status to ["no_face"]. *)
Lemma handle_flag ev s :
  (∀ m, ev ≠ SocketMessage m) ->
  let s' := handle ev s in
  faceDetected (hooks s') = faceDetected (hooks s) ∧
  (status (hooks s') = status (hooks s) ∨ status (hooks s') ≠ no_face).
Proof.
  intros Hev. destruct ev; try (by destruct (Hev m)); cbn zeta.
  all: step_event.
  all: repeat case_match; cbn; split; try done; auto.
Qed.

Lemma handle_timeline_other ev s :
  (∀ m, ev ≠ SocketMessage m) ->
  timelineRef (refs (handle ev s)) = timelineRef (refs s) ∨
  timelineRef (refs (handle ev s)) = [].
Proof.
  intros Hev. destruct ev; try (by destruct (Hev m)).
  all: step_event.
  all: repeat case_match; cbn; auto.
Qed.

Lemma run_snoc evs ev s : run (evs ++ [ev]) s = handle ev (run evs s).
Proof. unfold run. by rewrite foldl_app. Qed.

Lemma run_app evs1 evs2 s : run (evs1 ++ evs2) s = run evs2 (run evs1 s).
Proof. unfold run. by rewrite foldl_app. Qed.

Lemma run_cons ev evs s : run (ev :: evs) s = run evs (handle ev s).
Proof. reflexivity. Qed.

Lemma mirror_run evs s :
  timeline (hooks s) = timelineRef (refs s) ->
  timeline (hooks (run evs s)) = timelineRef (refs (run evs s)).
Proof.
  induction evs as [|ev evs IH] using rev_ind; [done|].
  intros H. rewrite run_snoc.
  destruct (handle_timeline ev (run evs s))
    as [[-> ->]|[[-> ->]|(x & -> & ->)]]; auto.
Qed.

(** X4: in every store the component can reach, the [timeline] state is
    the content of [timelineRef], and holds at most 300 entries: what is
    drawn is what is buffered. *)
Theorem timeline_state_mirrors_ref (evs : list Event) :
  timeline (hooks (run evs initial)) = timelineRef (refs (run evs initial)) ∧
  length (timeline (hooks (run evs initial))) ≤ 300.
Proof.
  split; [by apply mirror_run|].
  apply run_timeline_bound; cbn; lia.
Qed.

(** X5: in every store the component can reach, the status ["no_face"]
    comes with [faceDetected] false. *)
Theorem no_face_status_has_flag_down (evs : list Event) :
  status (hooks (run evs initial)) = no_face ->
  faceDetected (hooks (run evs initial)) = false.
Proof.
  induction evs as [|ev evs IH] using rev_ind; [done|].
  rewrite run_snoc. set (s := run evs initial) in *.
  assert ((∃ m, ev = SocketMessage m) ∨ ∀ m, ev ≠ SocketMessage m)
    as [[m ->]|Hev] by (destruct ev; eauto).
  - cbn [handle]. destruct (socket_state s) as [[]|]; try exact IH.
    all: destruct (onmessage_cases m s)
      as [[_ H]|(d & -> & _ & _ & _ &
                 [(_ & _ & H)|[(_ & _ & _ & H)|(_ & _ & _ & H)]])];
      rewrite (exec_eq _ _ _ _ _ H); done.
  - destruct (handle_flag ev s Hev) as [Hf [Hs|Hs]]; cbn zeta in *.
    + rewrite Hf, Hs. exact IH.
    + done.
Qed.

Lemma no_face_status_has_flag_down_witness :
  faceDetected
    (hooks (run [ClickStart; CameraSettled (Granted true true); SocketOpened;
                 SocketMessage (sample_msg true "calm" (1 # 5));
                 SocketMessage (Parsed (VObj ∅))] initial)) = false.
Proof.
  apply (no_face_status_has_flag_down
           [ClickStart; CameraSettled (Granted true true); SocketOpened;
            SocketMessage (sample_msg true "calm" (1 # 5));
            SocketMessage (Parsed (VObj ∅))]).
  reflexivity.
Defined.

Lemma typed_entry_of data :
  wire_typed (Parsed data) ->
  truthy (field data "emotion") = true ->
  typed_entry (entry_of data).
Proof.
  intros [He Hs] Ht. destruct (He Ht) as [k Hk].
  unfold typed_entry, label, score, entry_of. cbn. rewrite Hk.
  split; [done|]. split.
  - intros ->. by rewrite Hk in Ht.
  - unfold js_or. destruct (truthy (field data "stress_score")) eqn:E.
    + destruct (Hs eq_refl) as [q ->]. done.
    + done.
Qed.

Lemma typed_push_entry cur x :
  Forall typed_entry cur -> typed_entry x -> Forall typed_entry (push_entry cur x).
Proof.
  intros Hc Hx. unfold push_entry, slice_last.
  apply Forall_app. split; [by apply Forall_drop | by constructor].
Qed.

Lemma typed_numeric tl :
  Forall typed_entry tl -> Forall (λ en, stress en = VNum (score en)) tl.
Proof. intros H. eapply Forall_impl; [exact H|]. by intros en (_ & _ & ?). Qed.

Lemma typed_strings tl :
  Forall typed_entry tl -> Forall (λ en, e en = VStr (label en)) tl.
Proof. intros H. eapply Forall_impl; [exact H|]. by intros en (? & _). Qed.

(** Wire-typed messages only ever put typed entries in the buffer. *)
Lemma typed_run (evs : list Event) :
  (∀ m, SocketMessage m ∈ evs -> wire_typed m) ->
  Forall typed_entry (timelineRef (refs (run evs initial))).
Proof.
  intros Hty.
  induction evs as [|ev evs IH] using rev_ind; [constructor|].
  rewrite run_snoc. set (s := run evs initial) in *.
  assert (Forall typed_entry (timelineRef (refs s))) as IH'.
  { apply IH. intros m Hm. apply Hty, elem_of_app. by left. }
  assert ((∃ m, ev = SocketMessage m) ∨ ∀ m, ev ≠ SocketMessage m)
    as [[m ->]|Hev] by (destruct ev; eauto).
  - assert (wire_typed m) as Hm.
    { apply Hty, elem_of_app. right. left. }
    cbn [handle]. destruct (socket_state s) as [[]|]; try exact IH'.
    all: destruct (onmessage_cases m s)
      as [[_ H]|(d & -> & _ & _ & _ &
                 [(_ & _ & H)|[(_ & _ & _ & H)|(_ & He & _ & H)]])];
      rewrite (exec_eq _ _ _ _ _ H); try exact IH'.
    all: cbn; apply typed_push_entry; [exact IH' | by apply typed_entry_of].
  - destruct (handle_timeline_other ev s Hev) as [-> | ->];
      [exact IH' | constructor].
Qed.

(** X6: as long as every message the socket delivers is on the wire format
    (a truthy [emotion] is a string, a truthy [stress_score] a number),
    every entry the timeline ever holds has a non-empty string label and a
    numeric stress score, whatever else happens; so the AVG STRESS and TOP
    STATE figures are always computable from it. *)
Theorem timeline_entries_stay_typed (evs : list Event) :
  (∀ m, SocketMessage m ∈ evs -> wire_typed m) ->
  let tl := timeline (hooks (run evs initial)) in
  Forall typed_entry tl ∧
  is_Some (avg_stress tl) ∧ is_Some (top_state tl).
Proof.
  intros Hty. cbn zeta. rewrite mirror_run by done.
  pose proof (typed_run evs Hty) as H.
  split; [exact H|]. split.
  - unfold avg_stress, stress_total.
    rewrite (stress_total_numeric _ _ (typed_numeric _ H)). by eexists.
  - unfold top_state. rewrite (count_labels_strings _ (typed_strings _ H)).
    by eexists.
Qed.

Lemma timeline_entries_stay_typed_witness :
  is_Some (avg_stress (timeline (hooks live_session))).
Proof.
  refine (proj1 (proj2 (timeline_entries_stay_typed
            [ClickStart; CameraSettled (Granted true true); SocketOpened;
             SocketMessage (sample_msg true "calm" (1 # 5))] _))).
  intros m Hm. rewrite !elem_of_cons, elem_of_nil in Hm.
  destruct Hm as [Hm|[Hm|[Hm|[Hm|[]]]]]; try discriminate Hm.
  injection Hm as ->. split; intros _; eexists; reflexivity.
Defined.

(** ** Starting, stopping, failing *)

(** A start that meets a granted camera and a constructed socket. *)
Lemma start_granted (s : Store) :
  status (hooks s) = idle ->
  camera_wait (browser s) = [] ->
  let s' := run [ClickStart; CameraSettled (Granted true true)] s in
  streamRef (refs s') = Some (mkMediaStream 0) ∧
  videoRef (refs s') = ((λ _, mkVideo true) <$> videoRef (refs s)) ∧
  status (hooks s') = connecting ∧
  wsRef (refs s') = Some (mkWebSocket CONNECTING [] (connect_closure s)) ∧
  raf_queue (browser s') = raf_queue (browser s) ∧
  raf_next (browser s') = raf_next (browser s) ∧
  camera_wait (browser s') = [].
Proof.
  intros Hst Hcw. cbn zeta. unfold run. cbn [foldl handle].
  rewrite Hst, bool_decide_true by done.
  rewrite exec_connect_begin.
  cbn [browser with_browser with_hooks camera_wait with_camera_wait].
  rewrite Hcw. cbn [app]. rewrite exec_connect_resume.
  destruct (videoRef (refs s)) eqn:Hv; cbn;
    rewrite ?Hv, ?Hcw; cbn; repeat split; try done; by rewrite Hv.
Qed.

(** X7: what a click on START leads to, from an idle component with no
    start pending.  If the camera is refused the status is ["error"] and
    neither a stream nor a socket is stored.  If it is granted the stream
    is stored; the socket is created, CONNECTING and with the status still
    ["connecting"], only when [video.play()] did not fail and the WebSocket
    constructor returned; otherwise the status is ["error"], no socket is
    created, and the stream just acquired is left running and attached to
    the video element.  In no case is a frame drawn or requested before
    the socket opens. *)
Theorem start_outcomes (s : Store) (r : CameraResult) :
  status (hooks s) = idle ->
  camera_wait (browser s) = [] ->
  let s' := run [ClickStart; CameraSettled r] s in
  match r with
  | Denied =>
      status (hooks s') = error ∧ refs s' = refs s
  | Granted play_ok ws_ok =>
      streamRef (refs s') = Some (mkMediaStream 0) ∧
      videoRef (refs s') = ((λ _, mkVideo true) <$> videoRef (refs s)) ∧
      if (negb (bool_decide (is_Some (videoRef (refs s)))) || play_ok) && ws_ok
      then status (hooks s') = connecting ∧
           wsRef (refs s')
             = Some (mkWebSocket CONNECTING [] (connect_closure s))
      else status (hooks s') = error ∧ wsRef (refs s') = wsRef (refs s)
  end ∧
  raf_queue (browser s') = raf_queue (browser s) ∧
  raf_next (browser s') = raf_next (browser s) ∧
  toBlob_calls (browser s') = toBlob_calls (browser s) ∧
  camera_wait (browser s') = [] ∧
  timeline (hooks s') = timeline (hooks s).
Proof.
  intros Hst Hcw. cbn zeta. unfold run. cbn [foldl handle].
  rewrite Hst, bool_decide_true by done.
  rewrite exec_connect_begin.
  cbn [browser with_browser with_hooks camera_wait with_camera_wait].
  rewrite Hcw. cbn [app]. rewrite exec_connect_resume.
  destruct r as [|[] []]; destruct (videoRef (refs s)) eqn:Hv; cbn;
    rewrite ?Hv, ?Hcw; cbn; repeat split; try done; by rewrite Hv.
Qed.

Lemma start_outcomes_witness :
  status (hooks (run [ClickStart; CameraSettled Denied] initial)) = error ∧
  refs (run [ClickStart; CameraSettled Denied] initial) = refs initial.
Proof.
  apply (start_outcomes initial Denied); reflexivity.
Defined.

(** X8: when a connection fails the browser fires [error] and then
    [close].  The two handlers together leave the status at ["error"] only
    if the closure they were built in captured the status ["idle"];
    with any other captured status [ws.onclose] overwrites ["error"] with
    ["idle"].  Either way the capture loop's frame is cancelled and the
    camera stream, the socket's log and the timeline are not touched. *)
Theorem failure_status (captured : Status) (s : Store) :
  let s' := exec (onclose captured) (exec onerror s) in
  status (hooks s') = (if bool_decide (captured = idle) then error else idle) ∧
  browser s' = cancel_loop s (browser s) ∧
  refs s' = refs s ∧
  timeline (hooks s') = timeline (hooks s).
Proof.
  cbn zeta. rewrite exec_onerror, exec_onclose. cbn.
  destruct captured; cbn; repeat split.
Qed.

(** X9: the RESET button never changes the status, the camera stream or
    the capture loop.  While the socket is still CONNECTING [send] throws
    and the timeline is kept; without a socket, or with one that is CLOSING
    or CLOSED, the timeline is emptied and nothing goes out; with an OPEN
    socket the timeline is emptied and the reset message is sent. *)
Theorem reset_edge_cases (s : Store) :
  let s' := exec reset_click s in
  status (hooks s') = status (hooks s) ∧
  streamRef (refs s') = streamRef (refs s) ∧
  frameLoopRef (refs s') = frameLoopRef (refs s) ∧
  browser s' = browser s ∧
  socket_state s' = socket_state s ∧
  match socket_state s with
  | Some CONNECTING =>
      throws reset_click s = true ∧ s' = s
  | Some OPEN =>
      throws reset_click s = false ∧ timelineRef (refs s') = [] ∧
      timeline (hooks s') = [] ∧
      (sent <$> wsRef (refs s')) = ((λ w, sent w ++ [reset_msg]) <$> wsRef (refs s))
  | _ =>
      throws reset_click s = false ∧ timelineRef (refs s') = [] ∧
      timeline (hooks s') = [] ∧ wsRef (refs s') = wsRef (refs s)
  end.
Proof.
  cbn zeta. rewrite exec_reset_click. unfold socket_state, throws.
  unfold_handlers.
  destruct (wsRef (refs s)) as [[[] snt c]|] eqn:Hw; cbn; rewrite ?Hw;
    repeat split.
Qed.

(** X10: [disconnect] can be run again without harm (the unmount cleanup
    runs it after STOP): the second run changes nothing but the count of
    [stop()] calls on the camera track.  It resets the current emotion and
    the distribution to [null] and leaves confidence, stress score, [fps],
    mock flag and [faceDetected] as they were. *)
Theorem disconnect_twice (s : Store) :
  let s1 := exec disconnect s in
  let s2 := exec disconnect s1 in
  hooks s2 = hooks s1 ∧ browser s2 = browser s1 ∧
  wsRef (refs s2) = wsRef (refs s1) ∧
  videoRef (refs s2) = videoRef (refs s1) ∧
  frameLoopRef (refs s2) = frameLoopRef (refs s1) ∧
  timelineRef (refs s2) = timelineRef (refs s1) ∧
  (stops <$> streamRef (refs s2)) = (S ∘ stops <$> streamRef (refs s1)) ∧
  emotion (hooks s1) = VNull ∧ allEmotions (hooks s1) = VNull ∧
  confidence (hooks s1) = confidence (hooks s) ∧
  stressScore (hooks s1) = stressScore (hooks s) ∧
  fps (hooks s1) = fps (hooks s) ∧
  isMock (hooks s1) = isMock (hooks s) ∧
  faceDetected (hooks s1) = faceDetected (hooks s).
Proof.
  cbn zeta. rewrite !exec_disconnect. cbn.
  split; [done|]. split.
  { unfold cancel_loop. cbn. destruct (frameLoopRef (refs s)) as [[|n]|]; cbn;
      try done. by rewrite list_filter_filter_l. }
  split.
  { destruct (wsRef (refs s)) as [[[] snt c]|]; done. }
  split; [by destruct (videoRef (refs s))|].
  split; [done|]. split; [done|].
  split; [by destruct (streamRef (refs s))|].
  repeat split.
Qed.

(** ** The capture loop over a session *)

(** An event leaves the loop alone, cancels the frame in [frameLoopRef],
    runs a queued frame, or requests a new one (after running one, or at
    the open event). *)
Lemma handle_loop_view ev s :
  let '(q, nx, ref) := loop_view s in
  loop_view (handle ev s) = (q, nx, ref) ∨
  loop_view (handle ev s) = (raf_queue (cancel_loop s (browser s)), nx, ref) ∨
  (∃ id, id ∈ q ∧ loop_view (handle ev s) = (filter (λ j, j ≠ id) q, nx, ref)) ∨
  (∃ id, id ∈ q ∧
         loop_view (handle ev s)
         = (filter (λ j, j ≠ id) q ++ [nx], S nx, Some nx)) ∨
  (ev = SocketOpened ∧ loop_view (handle ev s) = (q ++ [nx], S nx, Some nx)).
Proof.
  unfold loop_view.
  assert ((∃ m, ev = SocketMessage m) ∨ ∀ m, ev ≠ SocketMessage m)
    as [[m ->]|Hev] by (destruct ev; eauto).
  { cbn [handle]. destruct (socket_state s) as [[]|]; try by left.
    all: destruct (onmessage_refs m s) as (_ & _ & Hf & Hb & _);
      cbn zeta in *; rewrite Hb, Hf; by left. }
  destruct ev; try (by destruct (Hev m)).
  - by left.
  - step_event; by left.
  - step_event; try (by left).
    destruct r as [|[] []]; destruct (videoRef (refs s)); by left.
  - step_event; try (by left).
    all: cbn; destruct (canvasRef (refs s)), (videoRef (refs s)); cbn;
      [right; right; right; right; by split | by left..].
  - step_event; try (by left); right; left; unfold cancel_loop; cbn;
      by destruct (frameLoopRef (refs s)) as [[|n]|].
  - step_event; try (by left); right; left; unfold cancel_loop; cbn;
      by destruct (frameLoopRef (refs s)) as [[|n]|].
  - step_event; try (by left).
    match goal with H : bool_decide _ = true |- _ =>
      apply bool_decide_eq_true in H; rename H into Hid end.
    unfold ws_open. cbn.
    destruct (wsRef (refs s)) as [w|]; [|right; right; left; by exists id].
    case_bool_decide.
    + right; right; right; left. by exists id.
    + right; right; left. by exists id.
  - step_event; try (by left).
    destruct blob; [|by left]. destruct (wsRef (refs s)); [|by left].
    case_bool_decide; by left.
  - step_event; try (by left).
    destruct (wsRef (refs s)) as [[[] ? ?]|]; by left.
  - step_event. right; left. unfold cancel_loop; cbn.
    by destruct (frameLoopRef (refs s)) as [[|n]|].
Qed.

Lemma single_loop_step ev s :
  single_loop s ->
  (ev = SocketOpened -> raf_queue (browser s) = []) ->
  single_loop (handle ev s).
Proof.
  intros [Hnx Hq] Hopen.
  pose proof (handle_loop_view ev s) as H. unfold loop_view in H.
  remember (handle ev s) as s' eqn:Es. clear Es.
  unfold single_loop.
  destruct H as [H|[H|[(id & Hid & H)|[(id & Hid & H)|[Hev H]]]]];
    injection H as -> -> ->.
  - by split.
  - split; [done|]. left.
    destruct Hq as [Hq|(i & Hq & Hr & Hi)]; unfold cancel_loop; rewrite ?Hr.
    + destruct (frameLoopRef (refs s)) as [[|n]|]; cbn; rewrite ?Hq; done.
    + destruct i as [|n]; [lia|]. cbn. rewrite Hq.
      by rewrite filter_cons_False, filter_nil by (intros ?; done).
  - split; [done|]. left.
    destruct Hq as [Hq|(i & Hq & Hr & Hi)]; rewrite Hq in *.
    + by apply elem_of_nil in Hid.
    + apply list_elem_of_singleton in Hid as ->.
      by rewrite filter_cons_False, filter_nil by (intros ?; done).
  - split; [lia|]. right. exists (raf_next (browser s)).
    split; [|split; [done | lia]].
    destruct Hq as [Hq|(i & Hq & Hr & Hi)]; rewrite Hq in *.
    + by apply elem_of_nil in Hid.
    + apply list_elem_of_singleton in Hid as ->.
      by rewrite filter_cons_False, filter_nil by (intros ?; done).
  - split; [lia|]. right. exists (raf_next (browser s)).
    rewrite (Hopen Hev). split; [done|]. split; [done | lia].
Qed.

Lemma single_loop_run evs s :
  single_loop s ->
  Forall (λ ev, ev ≠ SocketOpened) evs ->
  single_loop (run evs s).
Proof.
  intros Hs Hevs. revert s Hs.
  induction Hevs as [|ev evs Hev _ IH]; intros s Hs; [done|].
  rewrite run_cons. apply IH, single_loop_step; done.
Qed.

Lemma single_loop_stop s :
  single_loop s -> raf_queue (browser (handle ClickStop s)) = [].
Proof.
  intros [_ Hq]. cbn [handle]. rewrite exec_disconnect. cbn.
  unfold cancel_loop.
  destruct Hq as [Hq|(i & Hq & Hr & Hi)]; rewrite ?Hr.
  - destruct (frameLoopRef (refs s)) as [[|n]|]; cbn; rewrite ?Hq; done.
  - destruct i as [|n]; [lia|]. cbn. rewrite Hq.
    by rewrite filter_cons_False, filter_nil by (intros ?; done).
Qed.

(** X11: the capture loop never forks.  Starting with an empty frame queue,
    after the open event and any further events other than a second open
    event, at most one [capture] callback is queued and [frameLoopRef]
    holds its id; so a STOP at any later point leaves no callback queued. *)
Theorem capture_loop_single_flight (s : Store) (evs : list Event) :
  0 < raf_next (browser s) ->
  raf_queue (browser s) = [] ->
  Forall (λ ev, ev ≠ SocketOpened) evs ->
  let s' := run (SocketOpened :: evs) s in
  single_loop s' ∧
  length (raf_queue (browser s')) ≤ 1 ∧
  raf_queue (browser (handle ClickStop s')) = [].
Proof.
  intros Hnx Hq Hevs. cbn zeta.
  assert (single_loop (run (SocketOpened :: evs) s)) as H.
  { rewrite run_cons. apply single_loop_run; [|done].
    apply single_loop_step; [|done]. split; [done | by left]. }
  split; [done|]. split; [|by apply single_loop_stop].
  destruct H as [_ [-> | (i & -> & _)]]; cbn; lia.
Qed.

Lemma capture_loop_single_flight_witness :
  raf_queue (browser (handle ClickStop
     (run [SocketOpened; SocketMessage (sample_msg true "calm" (1 # 5));
           AnimationFrame 1; AnimationFrame 2; SocketClosed]
          connecting_session))) = [].
Proof.
  refine (proj2 (proj2 (capture_loop_single_flight connecting_session
            [SocketMessage (sample_msg true "calm" (1 # 5));
             AnimationFrame 1; AnimationFrame 2; SocketClosed] _ _ _))).
  - vm_compute. lia.
  - reflexivity.
  - repeat constructor; discriminate.
Defined.

Lemma in_session_keeps ev s :
  in_session ev = true ->
  streamRef (refs (handle ev s)) = streamRef (refs s) ∧
  videoRef (refs (handle ev s)) = videoRef (refs s) ∧
  camera_wait (browser (handle ev s)) = camera_wait (browser s) ∨
  status (hooks s) = idle.
Proof.
  intros Hev.
  destruct (decide (status (hooks s) = idle)) as [|Hst]; [by right|left].
  destruct ev; try discriminate.
  - done.
  - cbn [handle]. by rewrite bool_decide_false.
  - cbn [handle]. destruct (socket_state s) as [[]|]; try done.
    all: destruct (onmessage_cases m s)
      as [[_ H]|(d & -> & _ & _ & _ &
                 [(_ & _ & H)|[(_ & _ & _ & H)|(_ & _ & _ & H)]])];
      by rewrite (exec_eq _ _ _ _ _ H).
  - step_event; try done. unfold ws_open. cbn.
    destruct (wsRef (refs s)) as [w|]; [|done].
    by destruct (bool_decide (readyState w = OPEN)).
  - step_event; try done.
    destruct blob; [|done]. destruct (wsRef (refs s)) as [w|]; [|done].
    by destruct (bool_decide (readyState w = OPEN)).
  - step_event; try done. by destruct (wsRef (refs s)) as [[[] ? ?]|].
Qed.

Lemma session_keeps_camera evs s :
  Forall (λ ev, in_session ev = true) evs ->
  ws_open s = true -> Live s ∨ NoSignal s ->
  streamRef (refs (run evs s)) = streamRef (refs s) ∧
  videoRef (refs (run evs s)) = videoRef (refs s) ∧
  camera_wait (browser (run evs s)) = camera_wait (browser s).
Proof.
  intros Hevs. revert s. induction Hevs as [|ev evs Hev _ IH]; intros s Ho Hst.
  - done.
  - rewrite run_cons.
    destruct (in_session_step ev s Hev Ho Hst) as [Ho' Hst'].
    destruct (IH _ Ho' Hst') as (-> & -> & ->).
    destruct (in_session_keeps ev s Hev) as [H|H]; [done|].
    unfold Live, NoSignal in Hst. rewrite H in Hst. by destruct Hst.
Qed.

(** X12: one session, start to stop.  From an idle component with nothing
    pending, START with camera and socket granted, the open event, any
    number of messages, animation frames, encoder callbacks, resets and
    prop changes, and then STOP: the status is ["idle"] again, the camera
    stream acquired by this start has had its track stopped exactly once,
    the socket is CLOSING, the video element is detached, no capture
    callback is queued and no start is pending. *)
Theorem session_round_trip (s : Store) (evs : list Event) :
  status (hooks s) = idle ->
  camera_wait (browser s) = [] ->
  raf_queue (browser s) = [] ->
  0 < raf_next (browser s) ->
  Forall (λ ev, in_session ev = true) evs ->
  let s' := run ([ClickStart; CameraSettled (Granted true true); SocketOpened]
                 ++ evs ++ [ClickStop]) s in
  status (hooks s') = idle ∧
  streamRef (refs s') = Some (mkMediaStream 1) ∧
  socket_state s' = Some CLOSING ∧
  videoRef (refs s') = ((λ _, mkVideo false) <$> videoRef (refs s)) ∧
  raf_queue (browser s') = [] ∧
  camera_wait (browser s') = [].
Proof.
  intros Hst Hcw Hq Hnx Hevs. cbn zeta.
  rewrite !run_app.
  set (s1 := run [ClickStart; CameraSettled (Granted true true)] s).
  pose proof (start_granted s Hst Hcw) as Hs1.
  cbn zeta in Hs1. fold s1 in Hs1.
  destruct Hs1 as (Hstream & Hvid & Hst1 & Hws & Hq1 & Hnx1 & Hcw1).
  change (run ([ClickStart; CameraSettled (Granted true true); SocketOpened]) s)
    with (handle SocketOpened s1).
  clearbody s1.
  assert (socket_state s1 = Some CONNECTING) as Hc
    by (unfold socket_state; by rewrite Hws).
  destruct (handle_opened s1 Hc) as (Hlive & Hopen & _).
  assert (streamRef (refs (handle SocketOpened s1)) = streamRef (refs s1) ∧
          videoRef (refs (handle SocketOpened s1)) = videoRef (refs s1) ∧
          camera_wait (browser (handle SocketOpened s1))
          = camera_wait (browser s1))
    as (Hstream2 & Hvid2 & Hcw2).
  { cbn [handle]. rewrite Hc, exec_onopen.
    unfold set_readyState. rewrite Hws. cbn.
    by destruct (canvasRef (refs s1) && bool_decide (is_Some (videoRef (refs s1)))). }
  assert (single_loop (handle SocketOpened s1)) as Hloop2.
  { apply single_loop_step; [|by rewrite Hq1].
    split; [lia | left; by rewrite Hq1]. }
  set (s2 := handle SocketOpened s1) in *. clearbody s2.
  apply ws_open_socket_state in Hopen.
  destruct (in_session_run evs s2 Hevs Hopen (or_introl Hlive)) as [Ho3 _].
  destruct (session_keeps_camera evs s2 Hevs Hopen (or_introl Hlive))
    as (Hstream3 & Hvid3 & Hcw3).
  assert (single_loop (run evs s2)) as Hloop.
  { apply single_loop_run; [done|].
    eapply Forall_impl; [exact Hevs|]. intros ev Hev ->. discriminate. }
  set (s3 := run evs s2) in *. clearbody s3.
  change (run [ClickStop] s3) with (handle ClickStop s3).
  split; [|split; [|split; [|split; [|split]]]].
  - cbn [handle]. by rewrite exec_disconnect.
  - cbn [handle]. rewrite exec_disconnect. cbn.
    by rewrite Hstream3, Hstream2, Hstream.
  - apply ws_open_true in Ho3 as (w & Hw & Hr).
    cbn [handle]. rewrite exec_disconnect. unfold socket_state. cbn.
    rewrite Hw. cbn. unfold ws_close. by rewrite Hr.
  - cbn [handle]. rewrite exec_disconnect. cbn.
    rewrite Hvid3, Hvid2, Hvid. by destruct (videoRef (refs s)).
  - by apply single_loop_stop.
  - cbn [handle]. rewrite exec_disconnect. cbn.
    unfold cancel_loop. destruct (frameLoopRef (refs s3)) as [[|n]|]; cbn;
      by rewrite Hcw3, Hcw2, Hcw1.
Qed.

Lemma session_round_trip_witness :
  streamRef (refs (run ([ClickStart; CameraSettled (Granted true true);
                         SocketOpened]
                        ++ [SocketMessage (sample_msg true "calm" (1 # 5));
                            AnimationFrame 1; BlobReady (Some "AAAA")]
                        ++ [ClickStop]) initial))
  = Some (mkMediaStream 1).
Proof.
  refine (proj1 (proj2 (session_round_trip initial
            [SocketMessage (sample_msg true "calm" (1 # 5));
             AnimationFrame 1; BlobReady (Some "AAAA")] _ _ _ _ _)));
    [reflexivity | reflexivity | reflexivity | vm_compute; lia | repeat constructor].
Defined.

(** ** What goes out on the socket *)

Lemma is_frame_frame_msg b64 : is_frame (frame_msg b64) = true.
Proof.
  unfold is_frame, frame_msg. apply bool_decide_eq_true.
  rewrite lookup_singleton_eq. by eexists.
Qed.

Lemma is_frame_reset_msg : is_frame reset_msg = false.
Proof. reflexivity. Qed.

Lemma frames_sent_after_send msg w s :
  wsRef (refs s) = Some w ->
  frames_sent (with_refs (with_wsRef (Some (after_send msg w))) s)
  = frames_sent s + (if is_frame msg then 1 else 0).
Proof.
  intros Hw. unfold frames_sent. cbn. rewrite Hw. cbn.
  rewrite filter_app, length_app. f_equal.
  destruct (is_frame msg) eqn:E.
  - by rewrite filter_cons_True.
  - rewrite filter_cons_False; [done|]. by rewrite E.
Qed.

(** An event leaves transmission alone, swaps in a fresh socket, draws a
    frame, completes an encoder callback (sending the frame or dropping
    it), or sends the reset request. *)
Lemma handle_io_view ev s :
  let l := sent_log s in
  let p := blobs_pending (browser s) in
  let n := toBlob_calls (browser s) in
  io_view (handle ev s) = (l, p, n) ∨
  io_view (handle ev s) = ([], p, n) ∨
  io_view (handle ev s) = (l, S p, S n) ∨
  (∃ p' b64, p = S p' ∧ socket_state s = Some OPEN ∧
     io_view (handle ev s) = (l ++ [frame_msg b64], p', n)) ∨
  (∃ p', p = S p' ∧ io_view (handle ev s) = (l, p', n)) ∨
  (socket_state s = Some OPEN ∧
   io_view (handle ev s) = (l ++ [reset_msg], p, n)).
Proof.
  cbn zeta.
  assert ((∃ m, ev = SocketMessage m) ∨ ∀ m, ev ≠ SocketMessage m)
    as [[m ->]|Hev] by (destruct ev; eauto).
  { cbn [handle]. destruct (socket_state s) as [[]|]; try by left.
    all: destruct (onmessage_refs m s) as (Hw & _ & _ & Hb & _);
      unfold io_view, sent_log; cbn zeta in *; rewrite Hb, Hw; by left. }
  destruct ev; try (by destruct (Hev m)).
  - (* PropsChanged *) by left.
  - (* ClickStart *) step_event; by left.
  - (* CameraSettled *)
    step_event; try (by left). unfold io_view, sent_log; cbn.
    destruct r as [|[] []]; destruct (videoRef (refs s)); cbn;
      try (by left); right; by left.
  - (* SocketOpened *)
    step_event; try (by left).
    all: unfold io_view, sent_log, cancel_loop; cbn in *; repeat case_match;
      simplify_eq/=; by left.
  - (* SocketFailed *)
    step_event; try (by left).
    all: unfold io_view, sent_log, cancel_loop; cbn in *; repeat case_match;
      simplify_eq/=; by left.
  - (* SocketClosed *)
    step_event; try (by left).
    all: unfold io_view, sent_log, cancel_loop; cbn in *; repeat case_match;
      simplify_eq/=; by left.
  - (* AnimationFrame *)
    step_event; try (by left). unfold io_view, sent_log, ws_open; cbn.
    destruct (wsRef (refs s)) as [w|] eqn:Hw; [|cbn; rewrite Hw; by left].
    destruct (bool_decide (readyState w = OPEN)); cbn; rewrite Hw.
    + right; right; by left.
    + by left.
  - (* BlobReady *)
    step_event; unfold io_view, sent_log; cbn in *; repeat case_match;
      simplify_eq/=;
      try match goal with H : blobs_pending _ = _ |- _ => rewrite H end;
      first [ by left
            | right; right; right; left; do 2 eexists;
              split_and!; [done| |done];
              match goal with
              | Ho : bool_decide _ = true |- _ =>
                  apply bool_decide_eq_true in Ho; by rewrite Ho
              end
            | right; right; right; right; left; by eexists ].
  - (* ClickReset *)
    step_event; try (by left). unfold io_view, sent_log; cbn.
    destruct (wsRef (refs s)) as [[[] snt c]|] eqn:Hw; cbn; rewrite ?Hw;
      try (by left).
    right; right; right; right; by right.
  - (* ClickStop *)
    step_event. unfold io_view, sent_log; cbn.
    destruct (wsRef (refs s)) as [[[] snt c]|]; cbn; unfold cancel_loop;
      destruct (frameLoopRef (refs s)) as [[|k]|]; by left.
Qed.

Lemma frames_sent_log s :
  frames_sent s = length (filter (λ m, is_frame m = true) (sent_log s)).
Proof. unfold frames_sent, sent_log. by destruct (wsRef (refs s)). Qed.

Lemma frames_accounted_step ev s :
  frames_accounted s -> frames_accounted (handle ev s).
Proof.
  intros [Hk Hall]. unfold frames_accounted in *.
  rewrite frames_sent_log in *.
  pose proof (handle_io_view ev s) as H. cbn zeta in H. unfold io_view in H.
  destruct H as [H|[H|[H|[(p' & b64 & Hp & _ & H)|[(p' & Hp & H)|[_ H]]]]]];
    injection H as -> -> ->.
  - done.
  - split; [cbn; lia | constructor].
  - split; [lia | done].
  - split.
    + rewrite filter_app, length_app, filter_cons_True
        by apply is_frame_frame_msg.
      cbn. lia.
    + apply Forall_app. split; [done|]. apply Forall_singleton. left. by eexists.
  - split; [lia | done].
  - split.
    + rewrite filter_app, length_app, filter_cons_False
        by (rewrite is_frame_reset_msg; done).
      cbn. lia.
    + apply Forall_app. split; [done|]. apply Forall_singleton. by right.
Qed.

(** X13: over any sequence of events from the initial store, the frames
    sent on the current socket plus the encoder callbacks still outstanding
    never exceed the frames drawn, and the socket carries nothing but frame
    messages and reset requests. *)
Theorem frames_never_exceed_encodes evs :
  frames_accounted (run evs initial).
Proof.
  induction evs as [|ev evs IH] using rev_ind.
  - split; [cbn; lia | constructor].
  - rewrite run_snoc. by apply frames_accounted_step.
Qed.

(** X14: the encoder callback looks at the socket again before it sends.
    It never throws, and it calls [send], once and with the frame message,
    exactly when the socket [wsRef] points to is OPEN as the callback runs;
    the frame is then the last entry of the socket's log.  With no blob, no
    socket, or a socket that is connecting, closing or closed it calls
    nothing and leaves the store as it is. *)
Theorem frame_sent_only_when_open (blob : option string) (s : Store) :
  let out := match blob with
             | Some b64 => if ws_open s then [frame_msg b64] else []
             | None => []
             end in
  throws (blob_callback blob) s = false ∧
  calls (blob_callback blob) s = Call_send <$> out ∧
  sent_log (exec (blob_callback blob) s) = sent_log s ++ out ∧
  (out = [] -> exec (blob_callback blob) s = s).
Proof.
  destruct blob as [b64|].
  - destruct s as [h [v cv [[[] l c]|] m f tr] b cc]; cbn;
      rewrite ?app_nil_r; done.
  - cbn. by rewrite app_nil_r.
Qed.

(** ** The stress gauge *)

Lemma round_half_up_above (z : Z) (b : Qc) :
  (z < round_half_up b)%Z ↔ (Q2Qc (2 * z + 1 # 2) ≤ b)%Qc.
Proof.
  rewrite round_half_up_gt. unfold Qcle. cbn [this Q2Qc].
  rewrite Qred_correct.
  assert (inject_Z z + (1 # 2) == (2 * z + 1 # 2))%Q as ->; [|done].
  unfold Qeq, Qplus, inject_Z. cbn. lia.
Qed.

Lemma whole_gt (w z : Z) :
  dgt (whole w) (Q2Qc (inject_Z z)) = bool_decide (z < w)%Z.
Proof.
  unfold dgt, whole. apply bool_decide_ext.
  unfold Qclt. cbn [this Q2Qc]. rewrite !Qred_correct. by rewrite <- Zlt_Qlt.
Qed.

Lemma to_double_100 : to_double (Qc_of_nat 100) = Finite (Qc_of_nat 100).
Proof. apply to_double_nat. cbn. lia. Qed.

(** One threshold of the gauge.  [t] is the score whose percentage is the
    midpoint under [z + 1/2], itself a double with even mantissa: from [t]
    on the product is rounded up to [z + 1/2] or more, below [t] down to
    [c * 2^k] units or less. *)
Lemma gauge_step (a t : Qc) (z c k : Z) :
  (0 ≤ z)%Z -> (0 ≤ k)%Z -> (2 ^ 52 ≤ c < 2 ^ 53)%Z ->
  (c * 2 ^ k < 2 ^ 2098)%Z ->
  to_double (t * Qc_of_nat 100) = Finite (Q2Qc (2 * z + 1 # 2)) ->
  (t * Qc_of_nat 100)%Qc = Q2Qc ((2 * c + 1) * 2 ^ k # 2 ^ 1075) ->
  (units (c * 2 ^ k) < Q2Qc (2 * z + 1 # 2))%Qc ->
  dgt (Math_round (dmul (Finite a) (to_double (Qc_of_nat 100))))
      (Q2Qc (inject_Z z))
  = bool_decide (t ≤ a)%Qc.
Proof.
  intros Hz Hk Hc Hfin Hup Hmid Hdown.
  assert (0 ≤ Qc_of_nat 100)%Qc as H100 by (by vm_compute).
  rewrite to_double_100. cbn [dmul].
  case_bool_decide as Hta.
  - pose proof (to_double_mono _ _ (Qcmult_le_compat_r _ _ _ Hta H100)) as M.
    rewrite Hup in M.
    destruct (to_double (a * Qc_of_nat 100)) as [b|[]|]; try done.
    cbn [Math_round]. rewrite whole_gt. apply bool_decide_eq_true.
    by apply round_half_up_above.
  - apply Qcnot_le_lt in Hta.
    destruct (Qclt_le_dec a 0) as [Ha|Ha].
    + assert (a * Qc_of_nat 100 ≤ 0)%Qc as Hneg.
      { rewrite <- (Qcmult_0_l (Qc_of_nat 100)).
        apply Qcmult_le_compat_r; [by apply Qclt_le_weak | done]. }
      pose proof (to_double_mono _ _ Hneg) as M. rewrite to_double_0 in M.
      destruct (to_double (a * Qc_of_nat 100)) as [b|[]|]; try done.
      cbn [Math_round]. rewrite whole_gt. apply bool_decide_eq_false.
      pose proof (round_half_up_mono _ _ M) as Hr.
      change 0%Qc with (Q2Qc (inject_Z 0)) in Hr.
      rewrite round_half_up_Z in Hr. lia.
    + assert (0 ≤ a * Qc_of_nat 100)%Qc as Hpos
        by (by apply Qcmult_nonneg_nonneg).
      assert (a * Qc_of_nat 100 < t * Qc_of_nat 100)%Qc as Hlt
        by (apply Qcmult_lt_compat_r; [by vm_compute | done]).
      rewrite Hmid in Hlt.
      destruct (to_double_below _ c k Hpos Hk Hc Hfin Hlt) as (m & -> & _ & Hm).
      cbn [Math_round]. rewrite whole_gt. apply bool_decide_eq_false.
      rewrite round_half_up_above. apply Qclt_not_le.
      eapply Qcle_lt_trans; [|exact Hdown]. by apply units_le.
Qed.

Lemma gauge_high (a : Qc) :
  dgt (Math_round (dmul (Finite a) (to_double (Qc_of_nat 100)))) (Qc_of_nat 70)
  = bool_decide (high_from ≤ a)%Qc.
Proof.
  apply (gauge_step a high_from 70 (141 * 2 ^ 45 - 1) 1028);
    try lia; try (by vm_compute); by_evaluation.
Qed.

Lemma gauge_moderate (a : Qc) :
  dgt (Math_round (dmul (Finite a) (to_double (Qc_of_nat 100)))) (Qc_of_nat 40)
  = bool_decide (moderate_from ≤ a)%Qc.
Proof.
  apply (gauge_step a moderate_from 40 (81 * 2 ^ 46 - 1) 1027);
    try lia; try (by vm_compute); by_evaluation.
Qed.

(** From 0.705 on, as a decimal, the gauge reads HIGH. *)
Lemma high_score (q : Qc) :
  (Q2Qc (141 # 200) ≤ q)%Qc ->
  stressLabel <$> stressPct (VNum q) = Some "HIGH".
Proof.
  intros H. pose proof (to_double_mono _ _ H) as M.
  assert (dge (to_double (Q2Qc (141 # 200))) high_from = true) as D
    by (by vm_compute).
  assert (dge (to_double q) high_from = true) as G.
  { revert M D. generalize (to_double (Q2Qc (141 # 200))) as x.
    generalize (to_double q) as y.
    intros [a|[]|] [d|[]|]; unfold dle, dge; try tauto; try discriminate.
    intros M D. apply bool_decide_eq_true in D. apply bool_decide_eq_true.
    by apply Qcle_trans with d. }
  unfold stressPct, number_of.
  cbn [mbind option_bind fmap option_fmap option_map].
  unfold stressLabel.
  destruct (to_double q) as [a|[]|]; unfold dge in G; try discriminate G.
  - by rewrite gauge_high, G.
  - rewrite to_double_100. reflexivity.
Qed.

(** X15: the gauge says HIGH, in red, exactly when the stress score, as
    the double it is, is at least 0.705 - 2^-47/100, MODERATE, in orange,
    from 0.405 - 2^-48/100 up to there, and LOW, in green, below; an
    infinite score reads HIGH or LOW by its sign.  The thresholds lie under
    0.705 and 0.405 because the product with 100 is rounded to a double
    before [Math.round] sees it.  Label and colour always agree. *)
Theorem gauge_thresholds (x : Qc) :
  let band (high moderate low : string) :=
    if dge (to_double x) high_from then high
    else if dge (to_double x) moderate_from then moderate else low in
  stressLabel <$> stressPct (VNum x) = Some (band "HIGH" "MODERATE" "LOW") ∧
  stressLabelClr <$> stressPct (VNum x)
  = Some (band "#f87171" "#fb923c" "#4ade80").
Proof.
  cbn. unfold stressLabel, stressLabelClr.
  destruct (to_double x) as [a|[]|] eqn:E.
  - rewrite gauge_high, gauge_moderate. done.
  - rewrite to_double_100. done.
  - rewrite to_double_100. done.
  - done.
Qed.

(** X16: a stress score between 0 and 1 gives a percentage between 0 and
    100, so the filled part of the gauge never leaves its track; and a higher
    score never gives a lower percentage. *)
Theorem gauge_within_track (x y : Qc) :
  (0 ≤ x)%Qc -> (x ≤ y)%Qc -> (y ≤ 1)%Qc ->
  ∃ p q, stressPct (VNum x) = Some (whole p) ∧
         stressPct (VNum y) = Some (whole q) ∧
         (0 ≤ p ≤ q)%Z ∧ (q ≤ 100)%Z.
Proof.
  intros H0 Hxy H1.
  assert (0 ≤ Qc_of_nat 100)%Qc as H100 by (by vm_compute).
  assert (to_double 1 = Finite 1%Qc) as E1 by (apply (to_double_whole 1); cbn; lia).
  destruct (to_double_between 0 1 y _ _ to_double_0 E1) as (b & Eb & Hb0 & Hb1);
    [by apply Qcle_trans with x | done |].
  destruct (to_double_between 0 y x _ _ to_double_0 Eb) as (a & Ea & Ha0 & Hab);
    [done..|].
  assert (b * Qc_of_nat 100 ≤ Qc_of_nat 100)%Qc as Hb100.
  { rewrite <- (Qcmult_1_l (Qc_of_nat 100)) at 2. by apply Qcmult_le_compat_r. }
  destruct (to_double_between 0 (Qc_of_nat 100) (b * Qc_of_nat 100) _ _
              to_double_0 to_double_100) as (b' & Eb' & Hb0' & Hb1');
    [by apply Qcmult_nonneg_nonneg | done |].
  destruct (to_double_between 0 (b * Qc_of_nat 100) (a * Qc_of_nat 100) _ _
              to_double_0 Eb') as (a' & Ea' & Ha0' & Hab');
    [by apply Qcmult_nonneg_nonneg | by apply Qcmult_le_compat_r |].
  exists (round_half_up a'), (round_half_up b'). cbn.
  rewrite Ea, Eb, to_double_100. cbn [dmul]. rewrite Ea', Eb'.
  split; [done|]. split; [done|].
  by apply round_half_up_percent.
Qed.

Lemma gauge_within_track_witness :
  ∃ p q, stressPct (num (3 # 10)) = Some (whole p) ∧
         stressPct (num (4 # 5)) = Some (whole q) ∧
         (0 ≤ p ≤ q)%Z ∧ (q ≤ 100)%Z.
Proof.
  apply (gauge_within_track (Q2Qc (3 # 10)) (Q2Qc (4 # 5))); by vm_compute.
Defined.

(** ** The stress timeline as drawn *)

Lemma Qc_of_nat_le n m : n ≤ m -> (Qc_of_nat n ≤ Qc_of_nat m)%Qc.
Proof.
  intros H. unfold Qc_of_nat, Qcle. cbn. rewrite !Qred_correct.
  rewrite <- Zle_Qle. lia.
Qed.

Lemma Qc_of_nat_lt n m : n < m -> (Qc_of_nat n < Qc_of_nat m)%Qc.
Proof.
  intros H. unfold Qc_of_nat, Qclt. cbn. rewrite !Qred_correct.
  rewrite <- Zlt_Qlt. lia.
Qed.

(** The share [i / len] of a position [i < len] lies in [0, 1). *)
Lemma share_bounds i len :
  i < len ->
  (0 ≤ Qc_of_nat i / Qc_of_nat len)%Qc ∧ (Qc_of_nat i / Qc_of_nat len < 1)%Qc.
Proof.
  intros H.
  assert (0 < Qc_of_nat len)%Qc as Hlen by (apply (Qc_of_nat_lt 0); lia).
  assert (0 ≤ Qc_of_nat i)%Qc as Hi by (apply (Qc_of_nat_le 0); lia).
  pose proof (Qcinv_pos _ Hlen) as Hinv.
  unfold Qcdiv. split.
  - apply Qcmult_nonneg_nonneg; [done | by apply Qclt_le_weak].
  - rewrite <- (Qcmult_inv_r (Qc_of_nat len)).
    + apply Qcmult_lt_compat_r; [done | by apply Qc_of_nat_lt].
    + intros E. apply Qclt_not_eq in Hlen. by rewrite E in Hlen.
Qed.

Lemma opacity_bounds i len :
  i < len ->
  let o := (Q2Qc (2 # 5) + Qc_of_nat i / Qc_of_nat len * Q2Qc (3 # 5))%Qc in
  (Q2Qc (2 # 5) ≤ o)%Qc ∧ (o < 1)%Qc.
Proof.
  intros H. cbn zeta. destruct (share_bounds i len H) as [H0 H1].
  split.
  - rewrite <- (Qcplus_0_r (Q2Qc (2 # 5))) at 1.
    apply Qcplus_le_mono_l, Qcmult_nonneg_nonneg; [done | by vm_compute].
  - apply Qclt_le_trans with (Q2Qc (2 # 5) + 1 * Q2Qc (3 # 5))%Qc;
      [|by vm_compute].
    apply Qcplus_lt_mono_l, Qcmult_lt_compat_r; [by vm_compute | done].
Qed.

Lemma height_bounds (q : Qc) :
  (q ≤ 1)%Qc ->
  let h := Math_max (Qc_of_nat 4) (q * Qc_of_nat 38) in
  (Qc_of_nat 4 ≤ h)%Qc ∧ (h ≤ Qc_of_nat 38)%Qc.
Proof.
  intros H1. cbn zeta. unfold Math_max. case_bool_decide as Hc.
  - split; [done|].
    apply Qcle_trans with (1 * Qc_of_nat 38)%Qc; [|by vm_compute].
    apply Qcmult_le_compat_r; [done | by vm_compute].
  - split; [apply Qcle_refl | by vm_compute].
Qed.

Lemma bars_fit len i recent :
  i + length recent ≤ len ->
  Forall score_in_range recent ->
  ∃ bs, bars len i recent = Some bs ∧ length bs = length recent ∧
        Forall bar_fits bs.
Proof.
  revert i. induction recent as [|en rest IH]; intros i Hlen Hall.
  - exists []. by repeat split.
  - apply Forall_cons in Hall as [(q & Hq & H0 & H1) Hall]. cbn in Hlen.
    destruct (IH (S i)) as (bs & Hbs & Hl & Hf); [lia | done |].
    cbn [bars]. rewrite Hq, Hbs. cbn. eexists. split; [done|].
    split; [cbn [length]; by rewrite Hl|]. apply Forall_cons. split; [|done].
    unfold bar_fits. cbn.
    destruct (height_bounds q H1) as [? ?].
    destruct (opacity_bounds i len) as [? ?]; [lia|]. done.
Qed.

Lemma StressTimeline_bars tl :
  tl ≠ [] ->
  StressTimeline tl
  = Bars <$> bars (length (slice_last 80 tl)) 0 (slice_last 80 tl).
Proof. by destruct tl. Qed.

(** X17: of a non-empty timeline whose stress scores are numbers between
    0 and 1, the last 80 entries are drawn, one bar each; every bar is
    between 4 and 38 units high, so it shows and stays inside the 40-unit
    strip, and its opacity lies between 0.4 and 1. *)
Theorem timeline_bars_fit (tl : list Entry) :
  tl ≠ [] ->
  Forall score_in_range tl ->
  ∃ bs, StressTimeline tl = Some (Bars bs) ∧
        length bs = length tl `min` 80 ∧
        Forall bar_fits bs.
Proof.
  intros Hne Hall. rewrite StressTimeline_bars by done.
  destruct (bars_fit (length (slice_last 80 tl)) 0 (slice_last 80 tl))
    as (bs & Hbs & Hl & Hf); [lia | by apply Forall_drop |].
  exists bs. rewrite Hbs. split; [done|]. split; [|done].
  rewrite Hl, length_slice_last. lia.
Qed.

Lemma timeline_bars_fit_witness :
  ∃ bs, StressTimeline [ent "calm" (1 # 5); ent "stressed" (4 # 5)]
        = Some (Bars bs) ∧ length bs = 2.
Proof.
  destruct (timeline_bars_fit [ent "calm" (1 # 5); ent "stressed" (4 # 5)])
    as (bs & H & Hl & _).
  - discriminate.
  - repeat (apply Forall_cons; split); try (by constructor);
      eexists; (split; [reflexivity | split; by vm_compute]).
  - exists bs. split; [exact H | exact Hl].
Defined.

Lemma bars_total len i recent :
  Forall typed_entry recent -> is_Some (bars len i recent).
Proof.
  revert i. induction recent as [|en rest IH]; intros i Hall; [by eexists|].
  apply Forall_cons in Hall as [(_ & _ & Hs) Hall].
  destruct (IH (S i) Hall) as [bs Hbs].
  cbn [bars]. rewrite Hs, Hbs. by eexists.
Qed.

Lemma bars_stuck len i recent en :
  en ∈ recent -> number_of (stress en) = None -> bars len i recent = None.
Proof.
  intros Hin Hn. revert i.
  induction recent as [|x rest IH]; intros i; [by apply elem_of_nil in Hin|].
  apply elem_of_cons in Hin as [<-|Hin]; cbn [bars].
  - by rewrite Hn.
  - rewrite (IH Hin). by destruct (number_of (stress x)).
Qed.

Lemma slice_last_keeps_last {A} n (xs : list A) x :
  0 < n -> x ∈ slice_last n (xs ++ [x]).
Proof.
  intros Hn. unfold slice_last. rewrite length_app. cbn [length].
  rewrite drop_app_le by lia. apply elem_of_app. right. left.
Qed.

(** X18: as long as every message is on the wire format, the stress
    timeline can be drawn in every store the component reaches: no entry
    makes the title's [toFixed] call throw. *)
Theorem timeline_always_renders (evs : list Event) :
  (∀ m, SocketMessage m ∈ evs -> wire_typed m) ->
  is_Some (StressTimeline (timeline (hooks (run evs initial)))).
Proof.
  intros Hty. rewrite mirror_run by done.
  pose proof (typed_run evs Hty) as H.
  destruct (timelineRef (refs (run evs initial))) as [|en tl'] eqn:E;
    [by eexists|].
  rewrite StressTimeline_bars by done.
  destruct (bars_total (length (slice_last 80 (en :: tl'))) 0
              (slice_last 80 (en :: tl'))) as [bs Hbs];
    [by apply Forall_drop|].
  rewrite Hbs. by eexists.
Qed.

Lemma timeline_always_renders_witness :
  is_Some (StressTimeline (timeline (hooks live_session))).
Proof.
  apply (timeline_always_renders
           [ClickStart; CameraSettled (Granted true true); SocketOpened;
            SocketMessage (sample_msg true "calm" (1 # 5))]).
  intros m Hm. rewrite !elem_of_cons, elem_of_nil in Hm.
  destruct Hm as [Hm|[Hm|[Hm|[Hm|[]]]]]; try discriminate Hm.
  injection Hm as ->. split; intros _; eexists; reflexivity.
Defined.

(** X19: one recorded message whose [stress_score] is truthy but not a
    number is enough to break the display: the entry it appends is among
    the bars to draw, and drawing it throws. *)
Theorem ill_typed_stress_stops_timeline (s : Store) (m : MessageEvent) (en : Entry) :
  socket_state s = Some OPEN ->
  recorded m = Some en ->
  number_of (stress en) = None ->
  StressTimeline (timeline (hooks (handle (SocketMessage m) s))) = None.
Proof.
  intros Ho Hr Hn. cbn [handle]. rewrite Ho.
  destruct (onmessage_cases m s)
    as [[Hr' H]|(d & -> & _ & _ & _ &
               [(_ & Hr' & H)|[(_ & _ & Hr' & H)|(_ & _ & Hr' & H)]])];
    rewrite Hr' in Hr; try discriminate Hr.
  injection Hr as <-. rewrite (exec_eq _ _ _ _ _ H). cbn.
  set (cur := timelineRef (refs s)).
  assert (push_entry cur (entry_of d) ≠ []) as Hne.
  { unfold push_entry. by destruct (slice_last 299 cur). }
  rewrite StressTimeline_bars by done.
  rewrite (bars_stuck _ _ _ (entry_of d)); [done| |done].
  unfold push_entry. apply slice_last_keeps_last. lia.
Qed.

Lemma ill_typed_stress_stops_timeline_witness :
  StressTimeline
    (timeline
       (hooks
          (handle
             (SocketMessage
                (Parsed (VObj (<["face_detected" := VBool true]>
                              (<["emotion" := VStr "calm"]>
                              (<["stress_score" := VStr "high"]> ∅))))))
             opened_session))) = None.
Proof.
  apply (ill_typed_stress_stops_timeline opened_session _
           (entry_of (VObj (<["face_detected" := VBool true]>
                           (<["emotion" := VStr "calm"]>
                           (<["stress_score" := VStr "high"]> ∅))))));
    reflexivity.
Defined.

(** ** The badge over the video *)

(** X20: the badge is empty in exactly one situation: the status is
    ["live"] and no face is flagged.  In every other state of the hooks it
    carries one of its five texts. *)
Theorem badge_blank_iff (h : Hooks) :
  badge h = "" ↔ status h = live ∧ faceDetected h = false.
Proof.
  unfold badge. destruct (status h), (faceDetected h); cbn; split;
    try done; by intros [? ?].
Qed.

Lemma badge_blank_iff_witness : badge (hooks opened_session) = "".
Proof.
  apply (proj2 (badge_blank_iff (hooks opened_session))).
  split; reflexivity.
Defined.

(** X21: when the socket opens the status becomes ["live"] but the face
    flag is not touched: until the first analysed frame the badge is empty,
    or, if the flag was left up by an earlier session, it already says
    TRACKING. *)
Theorem badge_on_open (s : Store) :
  socket_state s = Some CONNECTING ->
  let h' := hooks (handle SocketOpened s) in
  status h' = live ∧
  badge h' = (if faceDetected (hooks s) then "● TRACKING" else "").
Proof.
  intros Hc. cbn zeta.
  destruct (handle_opened s Hc) as (Hlive & _).
  destruct (handle_flag SocketOpened s) as [Hf _]; [done|]. cbn zeta in Hf.
  split; [done|]. unfold badge. rewrite Hlive, Hf.
  by destruct (faceDetected (hooks s)).
Qed.

Lemma badge_on_open_witness :
  badge (hooks (handle SocketOpened
                  (run [ClickStop; ClickStart; CameraSettled (Granted true true)]
                       live_session))) = "● TRACKING".
Proof.
  refine (proj2 (badge_on_open
                   (run [ClickStop; ClickStart; CameraSettled (Granted true true)]
                        live_session) _)).
  reflexivity.
Defined.

(** ** The parent and its breathing prompt *)

(** Whether a reported message is above the prompt's threshold. *)
Lemma handleEmotionUpdate_prompt c data a a' :
  handleEmotionUpdate c data a = Some a' ->
  ∃ over, js_gt (field data "stress_score") (Q2Qc (3 # 4)) = Some over ∧
          showBreathPrompt a' = showBreathPrompt a || (over && negb c) ∧
          route a' = route a ∧ detector a' = detector a.
Proof.
  unfold handleEmotionUpdate, field.
  destruct (prop data "emotion") as [em|]; [|done].
  destruct (prop data "stress_score") as [sc|]; [|done]. cbn.
  destruct (js_gt _ _) as [over|]; [|done]. intros [= <-]. exists over. cbn.
  split; [done|]. split; [|done].
  by destruct over, c, (showBreathPrompt a).
Qed.

Lemma app_run_snoc evs ev a :
  app_run (evs ++ [ev]) a = app_run evs a ≫= app_handle ev.
Proof. unfold app_run. by rewrite foldl_app. Qed.

Lemma app_run_cons ev evs a :
  app_run (ev :: evs) a = app_handle ev a ≫= app_run evs.
Proof.
  unfold app_run. cbn [foldl mbind option_bind].
  destruct (app_handle ev a) as [a1|]; cbn [mbind option_bind]; [done|].
  induction evs as [|x evs IH] using rev_ind; [done|].
  by rewrite foldl_app, IH.
Qed.

(** A run of reports from the mounted detector. *)
Lemma updates_run c ds a a' :
  detector a = Some c ->
  app_run (EmotionUpdate <$> ds) a = Some a' ->
  detector a' = Some c ∧ route a' = route a ∧
  showBreathPrompt a'
  = showBreathPrompt a
    || (negb c
        && existsb (λ d, bool_decide (js_gt (field d "stress_score")
                                        (Q2Qc (3 # 4)) = Some true)) ds).
Proof.
  intros Hd. revert a'.
  induction ds as [|d ds IH] using rev_ind; intros a' H.
  - injection H as <-. cbn. by rewrite andb_false_r, orb_false_r.
  - rewrite fmap_app in H.
    change (EmotionUpdate <$> [d]) with [EmotionUpdate d] in H.
    rewrite app_run_snoc in H.
    destruct (app_run (EmotionUpdate <$> ds) a) as [a1|]; [|done].
    destruct (IH a1 eq_refl) as (Hd1 & Hr1 & Hp1).
    cbn in H. rewrite Hd1 in H.
    apply handleEmotionUpdate_prompt in H as (over & Hgt & Hp & Hr & Hd').
    rewrite Hd', Hr, Hp, Hp1, existsb_app. cbn [existsb]. rewrite Hgt.
    repeat split; [done..|].
    destruct over, c, (showBreathPrompt a), (existsb _ ds); done.
Qed.

(** X22: while the detector stays mounted, its reports raise the prompt
    exactly when one of them carries a stress score above 0.75 and the
    handler the detector holds was created while the prompt was down.  A
    handler created while the prompt was up never raises it again. *)
Theorem prompt_follows_captured_flag (c : bool) (ds : list value) (a a' : App) :
  detector a = Some c ->
  app_run (EmotionUpdate <$> ds) a = Some a' ->
  showBreathPrompt a'
  = showBreathPrompt a
    || (negb c
        && existsb (λ d, bool_decide (js_gt (field d "stress_score")
                                        (Q2Qc (3 # 4)) = Some true)) ds) ∧
  (c = true -> showBreathPrompt a' = showBreathPrompt a).
Proof.
  intros Hd H. destruct (updates_run c ds a a' Hd H) as (_ & _ & Hp).
  split; [done|]. intros ->. rewrite Hp. cbn. by rewrite orb_false_r.
Qed.

Lemma prompt_follows_captured_flag_witness :
  let a' := mkApp "/emotion" (VStr "stressed", num (4 # 5)) true (Some false) in
  app_run (EmotionUpdate <$> [high_stress]) detector_page = Some a' ∧
  showBreathPrompt a'
  = showBreathPrompt detector_page
    || (negb false
        && existsb (λ d, bool_decide (js_gt (field d "stress_score")
                                        (Q2Qc (3 # 4)) = Some true))
                   [high_stress]).
Proof.
  cbn zeta. split; [reflexivity|].
  exact (proj1 (prompt_follows_captured_flag false [high_stress] detector_page
                  (mkApp "/emotion" (VStr "stressed", num (4 # 5)) true
                         (Some false))
                  eq_refl eq_refl)).
Defined.

(** X23: the prompt is up and the user is on another page than the
    detector's.  If the user now opens the detector and dismisses the
    prompt, no report of that detector brings the prompt back, however high
    the stress: the handler it holds was created while the prompt was up. *)
Theorem dismissed_prompt_stays_down (ds : list value) (a a' : App) :
  showBreathPrompt a = true ->
  route a ≠ "/emotion" ->
  app_run (Navigate "/emotion" :: Dismiss :: (EmotionUpdate <$> ds)) a = Some a' ->
  showBreathPrompt a' = false ∧ banner a' = false ∧ route a' = "/emotion".
Proof.
  intros Hp Hr H.
  rewrite app_run_cons in H. cbn [app_handle mbind option_bind] in H.
  rewrite app_run_cons in H. cbn [app_handle mbind option_bind] in H.
  assert (banner (setRoute "/emotion" a) = true) as Hb
    by (unfold banner; cbn; by rewrite Hp).
  rewrite Hb in H.
  apply (updates_run true) in H as (_ & Hr' & Hp').
  - cbn in Hr', Hp'. unfold banner. rewrite Hp', Hr'. done.
  - cbn. rewrite bool_decide_true, bool_decide_false by done. by rewrite Hp.
Qed.

Lemma dismissed_prompt_stays_down_witness :
  let a' := mkApp "/emotion" (VStr "stressed", num (4 # 5)) false (Some true) in
  showBreathPrompt prompted_app = true ∧
  app_run (Navigate "/emotion" :: Dismiss :: (EmotionUpdate <$> [high_stress]))
          prompted_app = Some a' ∧
  banner a' = false.
Proof.
  cbn zeta. split; [reflexivity|]. split; [reflexivity|].
  refine (proj1 (proj2 (dismissed_prompt_stays_down [high_stress] prompted_app
            (mkApp "/emotion" (VStr "stressed", num (4 # 5)) false (Some true))
            _ _ _))); [reflexivity | discriminate | reflexivity].
Defined.

(** X24: a report that raises the prompt carries a stress score for which
    the detector's own gauge, set from the same message, reads HIGH; the
    converse fails between 0.705 and 0.75, where the gauge reads HIGH and
    the prompt stays down. *)
Theorem prompt_implies_high_gauge (data : value) (s : Store) (a a' : App) (c : bool) :
  wire_typed (Parsed data) ->
  parent_updates (calls (onmessage (Parsed data)) s) = [data] ->
  handleEmotionUpdate c data a = Some a' ->
  showBreathPrompt a = false ->
  (showBreathPrompt a' = true ->
   stressLabel <$> stressPct (stressScore (hooks (exec (onmessage (Parsed data)) s)))
   = Some "HIGH") ∧
  (c = false ->
   ∀ q, field data "stress_score" = VNum q ->
        (Q2Qc (141 # 200) ≤ q)%Qc -> (q ≤ Q2Qc (3 # 4))%Qc ->
        showBreathPrompt a' = false ∧
        stressLabel <$> stressPct (stressScore (hooks (exec (onmessage (Parsed data)) s)))
        = Some "HIGH").
Proof.
  intros [_ Hty] Hcalls Hup Hdown.
  assert (stressScore (hooks (exec (onmessage (Parsed data)) s))
          = js_or (field data "stress_score") (num 0)) as Hscore.
  { destruct (onmessage_cases (Parsed data) s)
      as [[_ H]|(d & [= <-] & _ & _ & _ &
                 [(_ & _ & H)|[(_ & _ & _ & H)|(_ & _ & _ & H)]])];
      rewrite (calls_eq _ _ _ _ _ H) in Hcalls; try discriminate Hcalls.
    by rewrite (exec_eq _ _ _ _ _ H). }
  rewrite Hscore.
  apply handleEmotionUpdate_prompt in Hup as (over & Hgt & Hp & _).
  rewrite Hdown in Hp. cbn in Hp.
  assert (∀ q, field data "stress_score" = VNum q -> (Q2Qc (141 # 200) ≤ q)%Qc ->
               stressLabel <$> stressPct (js_or (field data "stress_score") (num 0))
               = Some "HIGH") as Hhigh.
  { intros q Hq Hle. rewrite Hq. unfold js_or, truthy.
    rewrite bool_decide_false.
    - by apply high_score.
    - intros ->. revert Hle. by vm_compute. }
  split.
  - intros Hup. rewrite Hup in Hp. destruct over; [|discriminate Hp].
    destruct (truthy (field data "stress_score")) eqn:Ht.
    + destruct (Hty eq_refl) as [q Hq]. apply (Hhigh q Hq).
      rewrite Hq in Hgt. cbn in Hgt. injection Hgt as Hgt.
      apply bool_decide_eq_true in Hgt.
      apply Qclt_le_weak. eapply Qcle_lt_trans; [|exact Hgt]. by vm_compute.
    + exfalso.
      destruct (field data "stress_score") as [| |[]|q| | |];
        cbn in Ht, Hgt; try discriminate Ht; try discriminate Hgt;
        try (revert Hgt; by vm_compute).
      apply negb_false_iff, bool_decide_eq_true in Ht. subst q.
      revert Hgt. by vm_compute.
  - intros -> q Hq Hlo Hhi. split; [|by apply (Hhigh q)].
    rewrite Hp. rewrite Hq in Hgt. cbn in Hgt. injection Hgt as <-.
    rewrite bool_decide_false; [reflexivity|]. by apply Qcle_not_lt.
Qed.

Lemma prompt_implies_high_gauge_witness :
  stressLabel
    <$> stressPct (stressScore
                     (hooks (exec (onmessage (Parsed high_stress)) opened_session)))
  = Some "HIGH".
Proof.
  refine (proj1 (prompt_implies_high_gauge high_stress opened_session
                   detector_page
                   (mkApp "/emotion" (VStr "stressed", num (4 # 5)) true
                          (Some false))
                   false _ _ _ _) _);
    try reflexivity.
  split; intros _; eexists; reflexivity.
Defined.

(** ** The average as a percentage *)

Lemma Qc_of_nat_S n : Qc_of_nat (S n) = (1 + Qc_of_nat n)%Qc.
Proof.
  unfold Qc_of_nat. apply Qc_is_canon. cbn [this Q2Qc Qcplus].
  rewrite !Qred_correct. rewrite Nat2Z.inj_succ. unfold Z.succ.
  rewrite inject_Z_plus. ring.
Qed.

Lemma whole_limit_absorbs :
  to_double (whole_limit + 1) = Finite whole_limit.
Proof. by_evaluation. Qed.

Lemma partial_sum_step k a q :
  partial_sum k a -> (0 ≤ q)%Qc -> (q ≤ 1)%Qc ->
  ∃ a', to_double (a + q) = Finite a' ∧ partial_sum (S k) a'.
Proof.
  intros (H0 & Hlim & Hk) Hq0 Hq1.
  assert (0 ≤ a + q)%Qc as Hs0 by (by apply Qcplus_nonneg_nonneg).
  destruct (to_double_between 0 (whole_limit + 1) (a + q) 0 whole_limit
              to_double_0 whole_limit_absorbs Hs0) as (a' & E & Ha0 & Ha1).
  { by apply Qcplus_le_compat. }
  exists a'. split; [done|]. split; [done|]. split; [done|].
  intros HS.
  destruct (to_double_between 0 (Qc_of_nat (S k)) (a + q) 0 (Qc_of_nat (S k))
              to_double_0 (to_double_nat _ HS) Hs0) as (b & E' & _ & Hb).
  { rewrite Qc_of_nat_S, (Qcplus_comm 1).
    apply Qcplus_le_compat; [|done]. apply Hk. lia. }
  rewrite E in E'. by injection E' as ->.
Qed.

Lemma stress_total_in_range tl k a :
  Forall score_in_range tl -> partial_sum k a ->
  ∃ t, foldl (λ a b, x ← a; y ← number_of (stress b);
                     Some (dadd x (to_double y)))
             (Some (Finite a)) tl = Some (Finite t) ∧
       partial_sum (k + length tl) t.
Proof.
  intros H. revert k a.
  induction H as [|en tl (q & Hq & H0 & H1) _ IH]; intros k a Ha.
  - exists a. cbn [foldl length]. by rewrite Nat.add_0_r.
  - cbn [foldl length]. rewrite Hq.
    cbn [number_of mbind option_bind].
    destruct (to_double_between 0 1 q 0 1 to_double_0
                (to_double_whole 1 ltac:(cbn; lia)) H0 H1)
      as (q' & -> & Hq0 & Hq1).
    cbn [dadd].
    destruct (partial_sum_step k a q' Ha Hq0 Hq1) as (a' & -> & Ha').
    destruct (IH (S k) a' Ha') as (t & -> & Ht).
    exists t. split; [done|]. by rewrite Nat.add_succ_r.
Qed.

(** The number of entries as a double: itself up to [2^53], and never
    under what the scores sum to. *)
Lemma length_as_double (n : nat) (t : Qc) :
  0 < n -> partial_sum n t ->
  to_double (Qc_of_nat n) = Infinite false ∨
  ∃ b, to_double (Qc_of_nat n) = Finite b ∧ (0 < b)%Qc ∧ (t ≤ b)%Qc.
Proof.
  intros Hn (H0 & Hlim & Hk).
  destruct (Z.le_gt_cases (Z.of_nat n) (2 ^ 53)) as [Hle|Hgt].
  - right. exists (Qc_of_nat n). split; [by apply to_double_nat|].
    split; [by apply (Qc_of_nat_lt 0) | by apply Hk].
  - assert (whole_limit ≤ Qc_of_nat n)%Qc as Hbig.
    { unfold whole_limit, Qc_of_nat, Qcle. cbn [this Q2Qc].
      rewrite !Qred_int. rewrite <- Zle_Qle. lia. }
    pose proof (to_double_mono _ _ Hbig) as M.
    unfold whole_limit in M at 1.
    rewrite (to_double_whole (2 ^ 53)) in M by (cbn; lia).
    unfold whole in M. fold whole_limit in M.
    destruct (to_double (Qc_of_nat n)) as [b|[]|]; try done; [|by left].
    right. exists b. cbn in M. split; [done | split].
    + eapply Qclt_le_trans; [|exact M]. by vm_compute.
    + by apply Qcle_trans with whole_limit.
Qed.

(** X25: for a non-empty timeline whose stress scores lie between 0 and 1
    the AVG STRESS figure is a percentage between 0 and 100. *)
Theorem avg_stress_is_percentage (tl : list Entry) :
  tl ≠ [] ->
  Forall score_in_range tl ->
  ∃ p, avg_stress tl = Some (whole p) ∧ (0 ≤ p ≤ 100)%Z.
Proof.
  intros Hne Hall. unfold avg_stress, stress_total.
  assert (partial_sum 0 0) as Hz.
  { split; [done|]. split; [by vm_compute | done]. }
  destruct (stress_total_in_range tl 0 0%Qc Hall Hz) as (t & -> & Ht).
  cbn [mbind option_bind]. rewrite Nat.add_0_l in Ht.
  assert (0 < length tl) as Hlen by (destruct tl; [done | cbn; lia]).
  assert (∃ m, ddiv (Finite t) (to_double (Qc_of_nat (length tl))) = Finite m
               ∧ (0 ≤ m)%Qc ∧ (m ≤ 1)%Qc) as (m & -> & Hm0 & Hm1).
  { destruct (length_as_double _ t Hlen Ht) as [->|(b & -> & Hb & Htb)].
    { exists 0%Qc. by repeat split. }
    destruct Ht as (Ht0 & _).
    cbn [ddiv]. rewrite bool_decide_false.
    2:{ intros E. apply Qclt_not_eq in Hb. by rewrite E in Hb. }
    pose proof (Qcinv_pos _ Hb) as Hinv.
    apply (to_double_between 0 1 (t / b) 0 1 to_double_0
             (to_double_whole 1 ltac:(cbn; lia))); unfold Qcdiv.
    - apply Qcmult_nonneg_nonneg; [done | by apply Qclt_le_weak].
    - rewrite <- (Qcmult_inv_r b).
      + apply Qcmult_le_compat_r; [done | by apply Qclt_le_weak].
      + intros E. apply Qclt_not_eq in Hb. by rewrite E in Hb. }
  rewrite to_double_100. cbn [dmul].
  destruct (to_double_between 0 (Qc_of_nat 100) (m * Qc_of_nat 100)
              0 (Qc_of_nat 100) to_double_0 to_double_100)
    as (c & -> & Hc0 & Hc1).
  { apply Qcle_trans with (0 * Qc_of_nat 100)%Qc; [by vm_compute|].
    by apply Qcmult_le_compat_r. }
  { apply Qcle_trans with (1 * Qc_of_nat 100)%Qc; [|by vm_compute].
    by apply Qcmult_le_compat_r. }
  exists (round_half_up c). split; [done|].
  destruct (round_half_up_percent c c Hc0 (Qcle_refl c) Hc1) as ((? & _) & ?).
  done.
Qed.

Lemma avg_stress_is_percentage_witness :
  ∃ p, avg_stress [ent "calm" (1 # 5); ent "stressed" (4 # 5)]
       = Some (whole p) ∧ (0 ≤ p ≤ 100)%Z.
Proof.
  apply (avg_stress_is_percentage [ent "calm" (1 # 5); ent "stressed" (4 # 5)]).
  - discriminate.
  - repeat (apply Forall_cons; split); try (by constructor);
      eexists; (split; [reflexivity | split; by vm_compute]).
Defined.

(** ** How far the average is from the mean *)

Lemma Qc_of_nat_this n : this (Qc_of_nat n) = inject_Z (Z.of_nat n).
Proof. unfold Qc_of_nat. cbn [this Q2Qc]. apply Qred_int. Qed.

(** Up to 512 a non-negative number is within [2^-44] of its double. *)
Lemma to_double_near (x : Qc) :
  (0 ≤ x)%Qc -> (x ≤ Qc_of_nat 512)%Qc ->
  ∃ a, to_double x = Finite a ∧
       (this a <= this x + rounding_error)%Q ∧
       (this x <= this a + rounding_error)%Q.
Proof.
  intros H0 H1. unfold rounding_error. rewrite to_double_nonneg by done.
  apply Qc_sign in H0.
  unfold Qcle in H1. rewrite Qc_of_nat_this in H1.
  unfold Qle in H1. cbn [Qnum Qden inject_Z] in H1.
  destruct x as [[n d] Hc]. cbn [this Qnum Qden] in *.
  unfold round53.
  set (U := (2 ^ 1074)%Z). set (X := (n * U)%Z).
  set (fx := (X / Z.pos d)%Z).
  set (k := Z.max 0 (Z.log2 fx - 52)).
  assert (0 < U)%Z as HU by (by apply Z.pow_pos_nonneg).
  assert (0 ≤ fx ≤ 2 ^ 1083)%Z as [Hf0 Hf1].
  { split; [apply Z.div_pos; nia|].
    apply Z.div_le_upper_bound; [lia|].
    replace (2 ^ 1083)%Z with (512 * U)%Z
      by (unfold U; change 512%Z with (2 ^ 9)%Z;
          rewrite <- Z.pow_add_r by lia; done).
    unfold X. nia. }
  assert (0 ≤ k ≤ 1031)%Z as [Hk0 Hk1].
  { unfold k. split; [lia|].
    apply Z.max_lub; [lia|].
    pose proof (Z.log2_le_mono fx (2 ^ 1083) Hf1) as Hl.
    rewrite Z.log2_pow2 in Hl by lia. lia. }
  assert (0 < 2 ^ k)%Z as Hp by (by apply Z.pow_pos_nonneg).
  assert (2 ^ k ≤ 2 * 2 ^ 1030)%Z as Hpk.
  { rewrite <- (Z.pow_succ_r 2 1030) by lia. by apply Z.pow_le_mono_r. }
  pose proof (rne_div_bounds X (Z.pos d * 2 ^ k) ltac:(nia)) as [Hl Hu].
  set (r := rne_div X (Z.pos d * 2 ^ k)) in *.
  set (V := (2 ^ 1030)%Z) in *.
  assert (0 < V)%Z as HV by (by apply Z.pow_pos_nonneg).
  assert (U = 2 ^ 44 * V)%Z as EU
    by (unfold U, V; rewrite <- Z.pow_add_r by lia; done).
  set (m := (r * 2 ^ k)%Z).
  assert (Z.pos d * m - Z.pos d * V ≤ X ≤ Z.pos d * m + Z.pos d * V)%Z
    as [Hm1 Hm2] by (unfold m; nia).
  assert (m < 2 ^ 2098)%Z as Hfin.
  { assert (m ≤ 513 * U)%Z as Hm.
    { assert (Z.pos d * m ≤ Z.pos d * (513 * U))%Z; [|nia].
      unfold X in Hm1. nia. }
    eapply Z.le_lt_trans; [exact Hm|].
    replace (2 ^ 2098)%Z with (2 ^ 1024 * U)%Z
      by (unfold U; rewrite <- Z.pow_add_r by lia; done).
    apply Z.mul_lt_mono_pos_r; [done|]. by vm_compute. }
  destruct (Z.leb_spec (2 ^ 2098) m); [lia|].
  eexists. split; [done|].
  unfold units. cbn [this Q2Qc].
  assert (Z.pos (2 ^ 1074) = U) as EP by apply units_pos_den.
  assert (Z.pos (2 ^ 44) = 2 ^ 44)%Z as E44 by done.
  split.
  - rewrite Qred_correct. unfold Qle, Qplus. cbn [Qnum Qden].
    rewrite !Pos2Z.inj_mul, EP, E44. unfold X in *.
    rewrite EU in *. nia.
  - rewrite Qred_correct. unfold Qle, Qplus. cbn [Qnum Qden].
    rewrite !Pos2Z.inj_mul, EP, E44. unfold X in *.
    rewrite EU in *. nia.
Qed.

Lemma this_plus (a b : Qc) : (this (a + b)%Qc == this a + this b)%Q.
Proof. unfold Qcplus. cbn [this Q2Qc]. apply Qred_correct. Qed.

Lemma this_mult (a b : Qc) : (this (a * b)%Qc == this a * this b)%Q.
Proof. unfold Qcmult. cbn [this Q2Qc]. apply Qred_correct. Qed.

Lemma this_div (a b : Qc) : (this (a / b)%Qc == this a / this b)%Q.
Proof.
  unfold Qcdiv, Qcinv, Qdiv. rewrite this_mult. cbn [this Q2Qc].
  by rewrite Qred_correct.
Qed.

Lemma inject_Z_S n : (inject_Z (Z.of_nat (S n)) == inject_Z (Z.of_nat n) + 1)%Q.
Proof. rewrite Nat2Z.inj_succ. unfold Z.succ. by rewrite inject_Z_plus. Qed.

Lemma Qdiv_near (a b n e : Q) :
  (0 < n)%Q -> (a <= b + n * e)%Q -> (a / n <= b / n + e)%Q.
Proof.
  intros Hn H.
  assert (a / n <= (b + n * e) / n)%Q as H'.
  { unfold Qdiv. apply Qmult_le_compat_r; [done|].
    apply Qlt_le_weak, Qinv_lt_0_compat, Hn. }
  eapply Qle_trans; [exact H'|]. apply Qle_lteq. right. field.
  intros E. rewrite E in Hn. by apply Qlt_irrefl in Hn.
Qed.

(** A score between 0 and 1 as a double. *)
Lemma score_as_double (q : Qc) :
  (0 ≤ q)%Qc -> (q ≤ 1)%Qc ->
  ∃ q', to_double q = Finite q' ∧ (0 ≤ q')%Qc ∧ (q' ≤ 1)%Qc ∧
        (this q' <= this q + rounding_error)%Q ∧
        (this q <= this q' + rounding_error)%Q.
Proof.
  intros H0 H1.
  destruct (to_double_between 0 1 q 0 1 to_double_0
              (to_double_whole 1 ltac:(cbn; lia)) H0 H1)
    as (q' & E & Hq0 & Hq1).
  destruct (to_double_near q H0) as (q'' & E' & Hn1 & Hn2).
  { apply Qcle_trans with 1%Qc; [done | by vm_compute]. }
  rewrite E in E'. injection E' as <-. by exists q'.
Qed.

(** The sum computed in doubles is within [2 * 2^-44] per entry of the
    exact sum. *)
Lemma stress_total_near tl k a :
  Forall score_in_range tl -> partial_sum k a -> k + length tl ≤ 300 ->
  ∃ t, foldl (λ a b, x ← a; y ← number_of (stress b);
                     Some (dadd x (to_double y)))
             (Some (Finite a)) tl = Some (Finite t) ∧
       partial_sum (k + length tl) t ∧
       (this t <= this a + this (total (score <$> tl))
                  + inject_Z (Z.of_nat (length tl)) * (2 * rounding_error))%Q ∧
       (this a + this (total (score <$> tl))
        <= this t + inject_Z (Z.of_nat (length tl)) * (2 * rounding_error))%Q.
Proof.
  intros H. revert k a.
  induction H as [|en tl (q & Hq & H0 & H1) _ IH]; intros k a Ha Hlen.
  - exists a. cbn [foldl length fmap list_fmap total foldr].
    rewrite Nat.add_0_r. split; [done|]. split; [done|].
    change (this 0%Qc) with 0%Q. change (inject_Z (Z.of_nat 0)) with 0%Q.
    generalize rounding_error. intros eps. split; lra.
  - cbn [foldl length] in *. rewrite Hq. cbn [number_of mbind option_bind].
    destruct (score_as_double q H0 H1) as (q' & -> & Hq0 & Hq1 & Hn1 & Hn2).
    cbn [dadd].
    destruct (partial_sum_step k a q' Ha Hq0 Hq1) as (a' & E & Ha').
    destruct (to_double_near (a + q')) as (a'' & E' & Hs1 & Hs2).
    { destruct Ha as (Ha0 & _). by apply Qcplus_nonneg_nonneg. }
    { destruct Ha as (_ & _ & Hk).
      apply Qcle_trans with (Qc_of_nat k + 1)%Qc.
      - apply Qcplus_le_compat; [apply Hk; lia | done].
      - rewrite Qcplus_comm, <- Qc_of_nat_S. apply Qc_of_nat_le. lia. }
    rewrite E in E'. injection E' as <-. rewrite E.
    destruct (IH (S k) a' Ha' ltac:(lia)) as (t & -> & Ht & Ht1 & Ht2).
    exists t. split; [done|]. split; [by rewrite Nat.add_succ_r|].
    rewrite this_plus in Hs1, Hs2.
    assert (this (total (score <$> en :: tl))
            == this q + this (total (score <$> tl)))%Q as ->.
    { cbn [fmap list_fmap total foldr]. unfold score at 1. rewrite Hq.
      apply this_plus. }
    rewrite inject_Z_S.
    set (eps := rounding_error) in *. clearbody eps.
    set (n := inject_Z (Z.of_nat (length tl))) in *. clearbody n.
    split; lra.
Qed.

(** [Math.round] moves a number by at most a half. *)
Lemma round_half_up_near (c : Qc) :
  (inject_Z (round_half_up c) <= this c + (1 # 2))%Q ∧
  (this c <= inject_Z (round_half_up c) + (1 # 2))%Q.
Proof.
  rewrite round_half_up_Q.
  pose proof (Qfloor_le (this c + (1 # 2))) as H1.
  pose proof (Qlt_floor (this c + (1 # 2))) as H2.
  rewrite inject_Z_plus in H2. change (inject_Z 1) with 1%Q in H2.
  set (p := inject_Z (Qfloor (this c + (1 # 2)))) in *. clearbody p.
  split; lra.
Qed.

(** X26: for a timeline of at most 300 entries, as the timeline always
    is, with stress scores between 0 and 1, the AVG STRESS figure is within
    a half, and [2^-35] for the arithmetic in doubles, of the mean of the
    scores taken as a percentage. *)
Theorem avg_stress_near_mean (tl : list Entry) :
  tl ≠ [] -> length tl ≤ 300 ->
  Forall score_in_range tl ->
  ∃ p, avg_stress tl = Some (whole p) ∧
       (inject_Z p <= this (mean (score <$> tl)) * 100 + figure_slack)%Q ∧
       (this (mean (score <$> tl)) * 100 <= inject_Z p + figure_slack)%Q.
Proof.
  intros Hne Hlen Hall. unfold avg_stress, stress_total.
  assert (partial_sum 0 0) as Hz.
  { split; [done|]. split; [by vm_compute | done]. }
  destruct (stress_total_near tl 0 0%Qc Hall Hz Hlen)
    as (t & -> & Ht & Ht1 & Ht2).
  cbn [mbind option_bind]. rewrite Nat.add_0_l in Ht.
  assert (0 < length tl) as Hpos by (destruct tl; [done | cbn; lia]).
  destruct Ht as (Ht0 & _ & Htn). specialize (Htn ltac:(lia)).
  rewrite to_double_nat by lia. cbn [ddiv].
  assert (0 < Qc_of_nat (length tl))%Qc as Hn by (by apply (Qc_of_nat_lt 0)).
  rewrite bool_decide_false.
  2:{ intros E. apply Qclt_not_eq in Hn. by rewrite E in Hn. }
  pose proof (Qcinv_pos _ Hn) as Hinv.
  assert (0 ≤ t / Qc_of_nat (length tl))%Qc as Hm0.
  { unfold Qcdiv. apply Qcmult_nonneg_nonneg; [done | by apply Qclt_le_weak]. }
  assert (t / Qc_of_nat (length tl) ≤ 1)%Qc as Hm1.
  { unfold Qcdiv. rewrite <- (Qcmult_inv_r (Qc_of_nat (length tl))).
    - apply Qcmult_le_compat_r; [done | by apply Qclt_le_weak].
    - intros E. apply Qclt_not_eq in Hn. by rewrite E in Hn. }
  destruct (score_as_double _ Hm0 Hm1) as (m & -> & Hq0 & Hq1 & Hd1 & Hd2).
  rewrite to_double_100. cbn [dmul].
  destruct (to_double_near (m * Qc_of_nat 100)) as (c & -> & Hc1 & Hc2).
  { apply Qcle_trans with (0 * Qc_of_nat 100)%Qc; [by vm_compute|].
    by apply Qcmult_le_compat_r. }
  { apply Qcle_trans with (1 * Qc_of_nat 100)%Qc; [|by vm_compute].
    by apply Qcmult_le_compat_r. }
  exists (round_half_up c). split; [done|].
  destruct (round_half_up_near c) as [Hr1 Hr2].
  rewrite this_mult, Qc_of_nat_this in Hc1, Hc2.
  change (inject_Z (Z.of_nat 100)) with 100%Q in Hc1, Hc2.
  rewrite this_div, Qc_of_nat_this in Hd1, Hd2.
  change (this 0%Qc) with 0%Q in Ht1, Ht2.
  unfold mean. rewrite this_div, length_fmap, Qc_of_nat_this.
  unfold Qclt in Hn. rewrite Qc_of_nat_this in Hn.
  change (this 0%Qc) with 0%Q in Hn.
  set (n := inject_Z (Z.of_nat (length tl))) in *.
  assert (this t / n <= this (total (score <$> tl)) / n + 2 * rounding_error)%Q
    as Hu1 by (apply Qdiv_near; [done | lra]).
  assert (this (total (score <$> tl)) / n <= this t / n + 2 * rounding_error)%Q
    as Hu2 by (apply Qdiv_near; [done | lra]).
  assert (302 * rounding_error <= 1 # 2 ^ 35)%Q as He by (by vm_compute).
  unfold figure_slack.
  set (eps := rounding_error) in *. clearbody eps.
  set (u := (this t / n)%Q) in *. clearbody u.
  set (v := (this (total (score <$> tl)) / n)%Q) in *. clearbody v.
  set (d := (1 # 2 ^ 35)%Q) in *. clearbody d.
  set (p := inject_Z (round_half_up c)) in *. clearbody p.
  split; lra.
Qed.

Lemma avg_stress_near_mean_witness :
  ∃ p, avg_stress [ent "calm" (57 # 100); ent "calm" (58 # 100)]
       = Some (whole p) ∧
       (inject_Z p
        <= this (mean (score <$> [ent "calm" (57 # 100); ent "calm" (58 # 100)]))
           * 100 + figure_slack)%Q ∧
       (this (mean (score <$> [ent "calm" (57 # 100); ent "calm" (58 # 100)]))
        * 100 <= inject_Z p + figure_slack)%Q.
Proof.
  apply (avg_stress_near_mean
           [ent "calm" (57 # 100); ent "calm" (58 # 100)]).
  - discriminate.
  - cbn. lia.
  - repeat (apply Forall_cons; split); try (by constructor);
      eexists; (split; [reflexivity | split; by vm_compute]).
Defined.
